(** * marinjf/arbitrage: temporal arithmetic and 2-D interpolation

    A shallow embedding of [src/datastructure/datetime] (TimeDelta,
    DateTime and the calendar functions) and of [src/math/interpolation2D]
    (the Interpolation2D base class, LinearInterpolation2D and
    CubicSpline2D), with the properties the specification states about
    them.

    Conventions of the embedding.
    - [long long] and [int] are [Z]; arithmetic wraps around in two's
      complement ([wrap64], [wrap32]).
    - [double] is IEEE 754 binary64, given by the Standard Library's
      [SpecFloat] at precision 53 and maximal exponent 1024.
    - [None] stands for undefined behaviour of the C++ program: a
      floating-point value converted to an integer type that cannot hold
      it, a vector read out of bounds, a null pointer dereferenced,
      control reaching the end of a value-returning function.
    - A thrown exception is [Throw e]; a normal return is [Ret v].
    - Objects held by [std::shared_ptr] live in a heap indexed by
      location, so that two pointers to one object alias.
    - A [std::map] and a [std::set] are lists kept in increasing order of
      their keys.
    - [std::time_t] is a 64-bit integer, and [std::localtime], which
      depends on the time zone of the process, is a parameter of the
      functions that call it. *)

From Stdlib Require Import ZArith Bool List Lia Sorted.
From Stdlib Require Import Floats.SpecFloat.
From stdpp Require Import base option list strings.

Open Scope Z_scope.

(** * The program *)

(** ** Machine integers *)

Definition wrap64 (z : Z) : Z := (z + 2 ^ 63) mod 2 ^ 64 - 2 ^ 63.
Definition wrap32 (z : Z) : Z := (z + 2 ^ 31) mod 2 ^ 32 - 2 ^ 31.

Definition in_llong (z : Z) : bool := (- 2 ^ 63 <=? z) && (z <? 2 ^ 63).
Definition in_int (z : Z) : bool := (- 2 ^ 31 <=? z) && (z <? 2 ^ 31).
Definition in_size_t (z : Z) : bool := (0 <=? z) && (z <? 2 ^ 64).

(** ** IEEE 754 binary64 *)

Module Double.

Definition double : Type := spec_float.

Definition prec : Z := 53.
Definition emax : Z := 1024.

Definition add : double -> double -> double := SFadd prec emax.
Definition sub : double -> double -> double := SFsub prec emax.
Definition mul : double -> double -> double := SFmul prec emax.
Definition div : double -> double -> double := SFdiv prec emax.

(** [x < y], [x <= y] and [x == y]; [x > y] is [ltb y x] and [x >= y]
    is [leb y x].  Every comparison with a NaN is false. *)
Definition ltb : double -> double -> bool := SFltb.
Definition leb : double -> double -> bool := SFleb.
Definition eqb : double -> double -> bool := SFeqb.

Definition is_nan (x : double) : bool :=
  match x with S754_nan => true | _ => false end.

(** Conversion of an integer to [double] (round to nearest, ties to even). *)
Definition of_Z (z : Z) : double := binary_normalize prec emax z 0 false.

Definition zero : double := S754_zero false.

(** The integer part of a finite magnitude [m * 2^e], and whether the
    discarded fraction is at least one half. *)
Definition int_part (m : positive) (e : Z) : Z :=
  match e with
  | Zneg p => Z.shiftr (Zpos m) (Zpos p)
  | _ => Z.shiftl (Zpos m) e
  end.

Definition half_or_more (m : positive) (e : Z) : bool :=
  match e with
  | Zneg p => Z.testbit (Zpos m) (Zpos p - 1)
  | _ => false
  end.

Definition signed (s : bool) (z : Z) : Z := if s then - z else z.

(** [round] of <cmath>: the nearest integral value, halfway cases away
    from zero, as a [double]. *)
Definition round (x : double) : double :=
  match x with
  | S754_finite s m e =>
      let q := int_part m e + (if half_or_more m e then 1 else 0) in
      binary_normalize prec emax (signed s q) 0 s
  | _ => x
  end.

(** Truncation toward zero, the value of a floating-integral conversion
    when the destination type can hold it. *)
Definition trunc (x : double) : option Z :=
  match x with
  | S754_zero _ => Some 0
  | S754_finite s m e => Some (signed s (int_part m e))
  | _ => None
  end.

Definition to_llong (x : double) : option Z :=
  match trunc x with
  | Some z => if in_llong z then Some z else None
  | None => None
  end.

Definition to_int (x : double) : option Z :=
  match trunc x with
  | Some z => if in_int z then Some z else None
  | None => None
  end.

Definition to_size_t (x : double) : option Z :=
  match trunc x with
  | Some z => if in_size_t z then Some z else None
  | None => None
  end.

End Double.

Import Double.

(** ** Exceptions and results *)

Inductive exn : Type :=
| NegativeEpochTimestampError
| UndefinedDayCountConventionError
| UndefinedTenorError
| NonPositiveYearFractionError
| Interpolation2DMinimalVectorSize
| Interpolation2DOutOfRange
| Interpolation2DWrongXaxis
| std_length_error
| std_out_of_range.

Inductive result (A : Type) : Type :=
| Ret (a : A)
| Throw (e : exn).
Arguments Ret {A} a.
Arguments Throw {A} e.

(** ** datetime.h: the enumerations *)

Inductive EpochTimestampType : Type :=
| SECONDS | MILLISECONDS | MICROSECONDS | NANOSECONDS.

(** The enumerators' values, [static_cast<int>(type)]. *)
Definition type_value (t : EpochTimestampType) : Z :=
  match t with
  | SECONDS => 1
  | MILLISECONDS => 1000
  | MICROSECONDS => 1000000
  | NANOSECONDS => 1000000000
  end.

Inductive Tenor : Type :=
| ON | TN | SN | _1W | _2W | _1M | _3M | _6M | _1Y | _5Y | _10Y | _20Y | _30Y.

Inductive DayCountConvention : Type := ACT360 | ACT365 | ACT364.

Definition add64 (a b : Z) : Z := wrap64 (a + b).
Definition sub64 (a b : Z) : Z := wrap64 (a - b).
Definition mul64 (a b : Z) : Z := wrap64 (a * b).
Definition mul32 (a b : Z) : Z := wrap32 (a * b).

(** [long long v = round(q)] for an integer expression [q]: <cmath>'s
    integer overload converts [q] to [double], rounds, and the result is
    converted back. *)
Definition round_to_llong (q : Z) : option Z := to_llong (round (of_Z q)).

(** ** TimeDelta *)

Module TimeDelta.

Record t : Type := mk
  { d : Z; h : Z; m : Z; s : Z; ms : Z; mcs : Z; ns : Z }.

Definition get_total_seconds (x : t) : option Z :=
  let mcs_value := type_value MICROSECONDS in
  let ns_value := type_value NANOSECONDS in
  let ms_value := type_value MILLISECONDS in
  let day_s := mul64 (mul64 (mul64 (d x) 24) 60) 60 in
  let hour_s := mul64 (mul64 (h x) 60) 60 in
  let min_s := mul64 (m x) 60 in
  micros_s ← round_to_llong (Z.quot (mcs x) mcs_value);
  millis_s ← round_to_llong (Z.quot (ms x) ms_value);
  nanos_s ← round_to_llong (Z.quot (ns x) ns_value);
  Some (add64 (add64 (add64 (add64 (add64 (add64 (s x) day_s) hour_s) min_s)
                        micros_s) millis_s) nanos_s).

Definition get_total_milliseconds (x : t) : option Z :=
  let mcs_value := type_value MICROSECONDS in
  let ns_value := type_value NANOSECONDS in
  let ms_value := type_value MILLISECONDS in
  let day_s := mul64 (mul64 (mul64 (d x) 24) 60) 60 in
  let hour_s := mul64 (mul64 (h x) 60) 60 in
  let min_s := mul64 (m x) 60 in
  let total_seconds := add64 (add64 (add64 (s x) day_s) hour_s) min_s in
  micros_ms ← round_to_llong (Z.quot (mul64 (mcs x) ms_value) mcs_value);
  nanos_ms ← round_to_llong (Z.quot (mul64 (ns x) ms_value) ns_value);
  Some (add64 (add64 (add64 (mul64 total_seconds 1000) (ms x)) micros_ms) nanos_ms).

Definition get_total_microseconds (x : t) : option Z :=
  let mcs_value := type_value MICROSECONDS in
  let ns_value := type_value NANOSECONDS in
  let day_s := mul64 (mul64 (mul64 (d x) 24) 60) 60 in
  let hour_s := mul64 (mul64 (h x) 60) 60 in
  let min_s := mul64 (m x) 60 in
  let total_seconds := add64 (add64 (add64 (s x) day_s) hour_s) min_s in
  let total_milliseconds := add64 (mul64 total_seconds 1000) (ms x) in
  nanos_ms ← round_to_llong (Z.quot (mul64 (ns x) mcs_value) ns_value);
  Some (add64 (add64 (mul64 total_milliseconds 1000) (mcs x)) nanos_ms).

Definition get_total_nanoseconds (x : t) : Z :=
  let day_s := mul64 (mul64 (mul64 (d x) 24) 60) 60 in
  let hour_s := mul64 (mul64 (h x) 60) 60 in
  let min_s := mul64 (m x) 60 in
  let total_seconds := add64 (add64 (add64 (s x) day_s) hour_s) min_s in
  let total_milliseconds := add64 (mul64 total_seconds 1000) (ms x) in
  let total_microseconds := add64 (mul64 total_milliseconds 1000) (mcs x) in
  add64 (mul64 total_microseconds 1000) (ns x).

Definition set_days (n : Z) (x : t) : t :=
  mk n (h x) (m x) (s x) (ms x) (mcs x) (ns x).
Definition set_hours (n : Z) (x : t) : t :=
  mk (d x) n (m x) (s x) (ms x) (mcs x) (ns x).
Definition set_minutes (n : Z) (x : t) : t :=
  mk (d x) (h x) n (s x) (ms x) (mcs x) (ns x).
Definition set_seconds (n : Z) (x : t) : t :=
  mk (d x) (h x) (m x) n (ms x) (mcs x) (ns x).
Definition set_microseconds (n : Z) (x : t) : t :=
  mk (d x) (h x) (m x) (s x) (ms x) n (ns x).
Definition set_milliseconds (n : Z) (x : t) : t :=
  mk (d x) (h x) (m x) (s x) n (mcs x) (ns x).
Definition set_nanoseconds (n : Z) (x : t) : t :=
  mk (d x) (h x) (m x) (s x) (ms x) (mcs x) n.

End TimeDelta.

(** ** DateTime *)

Module DateTime.

Record t : Type := mk { tmsp : Z; type_ : EpochTimestampType }.

(** The constructor: the only place where the sign of the timestamp is
    looked at. *)
Definition new (timestamp : Z) (type : EpochTimestampType) : result t :=
  if timestamp <? 0 then Throw NegativeEpochTimestampError
  else Ret (mk timestamp type).

Definition get_timestamp (x : t) : Z := tmsp x.
Definition get_timestamp_type (x : t) : EpochTimestampType := type_ x.

Definition set_timestamp (timestamp : Z) (x : t) : t :=
  mk timestamp (type_ x).

Definition set_timestamp_type (type : EpochTimestampType) (x : t) : t :=
  mk (tmsp x) type.

Definition apply_time_delta (dt : TimeDelta.t) (x : t) : option t :=
  match type_ x with
  | SECONDS =>
      v ← TimeDelta.get_total_seconds dt; Some (mk (add64 (tmsp x) v) (type_ x))
  | MILLISECONDS =>
      v ← TimeDelta.get_total_milliseconds dt; Some (mk (add64 (tmsp x) v) (type_ x))
  | MICROSECONDS =>
      v ← TimeDelta.get_total_microseconds dt; Some (mk (add64 (tmsp x) v) (type_ x))
  | NANOSECONDS =>
      Some (mk (add64 (tmsp x) (TimeDelta.get_total_nanoseconds dt)) (type_ x))
  end.

Definition convert_timestamp (type : EpochTimestampType) (x : t) : option t :=
  let type1 := type_value type in
  let type2 := type_value (type_ x) in
  let factor := div (of_Z type1) (of_Z type2) in
  new_tmsp ← to_llong (round (mul factor (of_Z (tmsp x))));
  Some (set_timestamp_type type (set_timestamp new_tmsp x)).

End DateTime.

(** ** The heap of shared DateTime objects *)

Abbreviation loc := nat (only parsing).
Abbreviation heap := (list DateTime.t) (only parsing).

(** [std::make_shared<DateTime>(x)]: a new object at a fresh location. *)
Definition alloc (x : DateTime.t) (hp : heap) : loc * heap :=
  (length hp, hp ++ [x]).

(** A call [p->f(...)] of a mutating member function. *)
Definition call (f : DateTime.t -> option DateTime.t) (p : loc) (hp : heap)
  : option heap :=
  x ← hp !! p; x' ← f x; Some (<[p := x']> hp).

(** ** Free functions of datetime *)

Definition get_timedelta (start_datetime end_datetime : loc)
    (delta_type : EpochTimestampType) (hp : heap)
  : option (TimeDelta.t * heap) :=
  start_type ← DateTime.get_timestamp_type <$> hp !! start_datetime;
  end_type ← DateTime.get_timestamp_type <$> hp !! end_datetime;
  hp ← call (DateTime.convert_timestamp delta_type) start_datetime hp;
  hp ← call (DateTime.convert_timestamp delta_type) end_datetime hp;
  e ← DateTime.get_timestamp <$> hp !! end_datetime;
  s ← DateTime.get_timestamp <$> hp !! start_datetime;
  let delta := sub64 e s in
  hp ← call (DateTime.convert_timestamp start_type) start_datetime hp;
  hp ← call (DateTime.convert_timestamp end_type) end_datetime hp;
  Some (match delta_type with
        | SECONDS => TimeDelta.mk 0 0 0 delta 0 0 0
        | MILLISECONDS => TimeDelta.mk 0 0 0 0 delta 0 0
        | MICROSECONDS => TimeDelta.mk 0 0 0 0 0 delta 0
        | NANOSECONDS => TimeDelta.mk 0 0 0 0 0 0 delta
        end, hp).

(** The [default:] branches of the source's switches throw
    UndefinedDayCountConventionError and UndefinedTenorError; they are
    taken by no value of the enumerations. *)
Definition get_number_days_in_year (dcc : DayCountConvention) : Z :=
  match dcc with
  | ACT360 => 360
  | ACT365 => 365
  | ACT364 => 364
  end.

Definition get_number_days_in_month (dcc : DayCountConvention) : option Z :=
  actual_days ← to_int (round (of_Z (Z.quot (get_number_days_in_year dcc) 12)));
  match dcc with
  | ACT360 => Some actual_days
  | ACT365 => Some actual_days
  | ACT364 => Some actual_days
  end.

Definition get_year_fraction_from_datetimes (start_datetime end_datetime : loc)
    (day_count_convention : DayCountConvention) (hp : heap)
  : option (result double * heap) :=
  let ns_value := type_value NANOSECONDS in
  '(dt, hp) ← get_timedelta start_datetime end_datetime NANOSECONDS hp;
  let total_ns := TimeDelta.get_total_nanoseconds dt in
  let day_in_s := 24 * 60 * 60 in
  let day_in_ns := mul64 day_in_s ns_value in
  let t := div (of_Z total_ns)
               (of_Z (mul64 (get_number_days_in_year day_count_convention) day_in_ns)) in
  if ltb t (of_Z 0) then Some (Throw NonPositiveYearFractionError, hp)
  else Some (Ret t, hp).

Definition get_tenor_in_days (tenor : Tenor) (dcc : DayCountConvention) : option Z :=
  let days_in_year := get_number_days_in_year dcc in
  days_in_month ← get_number_days_in_month dcc;
  Some match tenor with
       | ON => 1
       | TN => 2
       | SN => 3
       | _1W => 7
       | _2W => 14
       | _1M => days_in_month
       | _3M => mul32 3 days_in_month
       | _6M => mul32 6 days_in_month
       | _1Y => days_in_year
       | _5Y => mul32 5 days_in_year
       | _10Y => mul32 10 days_in_year
       | _20Y => mul32 20 days_in_year
       | _30Y => mul32 30 days_in_year
       end.

Definition get_tenor_in_timedelta (tenor : Tenor) (dcc : DayCountConvention)
  : option TimeDelta.t :=
  days ← get_tenor_in_days tenor dcc;
  Some (TimeDelta.mk days 0 0 0 0 0 0).

(** [int / int] is evaluated in [int] (truncating), and only the quotient
    is converted to the [double] that is returned. *)
Definition get_tenor_year_fraction (tenor : Tenor) (dcc : DayCountConvention)
  : option double :=
  days ← get_tenor_in_days tenor dcc;
  Some (of_Z (Z.quot days (get_number_days_in_year dcc))).

Definition sequence_length_from_frequency_tenor (start_datetime end_datetime : loc)
    (frequency_tenor : Tenor) (day_count_convention : DayCountConvention) (hp : heap)
  : option (Z * heap) :=
  freq_dt ← get_tenor_in_timedelta frequency_tenor day_count_convention;
  '(dt, hp) ← get_timedelta start_datetime end_datetime SECONDS hp;
  a ← TimeDelta.get_total_seconds dt;
  b ← TimeDelta.get_total_seconds freq_dt;
  n ← to_int (round (div (of_Z a) (of_Z b)));
  Some (n, hp).

Definition get_end_datetime_from_tenor (start_datetime : loc) (end_tenor : Tenor)
    (day_count_convention : DayCountConvention) (hp : heap)
  : option (loc * heap) :=
  dt_ptr ← get_tenor_in_timedelta end_tenor day_count_convention;
  x ← hp !! start_datetime;
  let '(end_datetime, hp) := alloc x hp in
  hp ← call (DateTime.apply_time_delta dt_ptr) end_datetime hp;
  Some (end_datetime, hp).

(** The body of [while (i<n) { ... i++; }], run [iters] times: the
    condition holds exactly [n - 1] times when [i] starts at 1. *)
Fixpoint sequence_loop (iters : nat) (next_datetime : loc) (dt_ptr : TimeDelta.t)
    (output : list loc) (hp : heap) : option (list loc * heap) :=
  match iters with
  | O => Some (output, hp)
  | S iters' =>
      hp ← call (DateTime.apply_time_delta dt_ptr) next_datetime hp;
      x ← hp !! next_datetime;
      let '(p, hp) := alloc x hp in
      sequence_loop iters' next_datetime dt_ptr (output ++ [p]) hp
  end.

Definition generate_datetime_sequence (start_datetime : loc)
    (frequency_tenor : Tenor) (day_count_convention : DayCountConvention)
    (include_start include_end : bool) (end_datetime : loc) (hp : heap)
  : option (list loc * heap) :=
  dt_ptr ← get_tenor_in_timedelta frequency_tenor day_count_convention;
  x ← hp !! start_datetime;
  let '(next_datetime, hp) := alloc x hp in
  '(n, hp) ← sequence_length_from_frequency_tenor
               start_datetime end_datetime frequency_tenor day_count_convention hp;
  '(output, hp) ← sequence_loop (Z.to_nat (n - 1)) next_datetime dt_ptr [] hp;
  let output := if include_start then start_datetime :: output else output in
  let output := if include_end then output ++ [end_datetime] else output in
  Some (output, hp).

(** ** Names *)

Definition get_day_count_convention_name (dcc : DayCountConvention) : string :=
  match dcc with
  | ACT360 => "ACT/360"
  | ACT365 => "ACT/365"
  | ACT364 => "ACT/364"
  end%string.

Definition get_tenor_name (tenor : Tenor) : string :=
  match tenor with
  | ON => "ON"
  | TN => "TN"
  | SN => "SN"
  | _1W => "1W"
  | _2W => "2W"
  | _1M => "1M"
  | _3M => "3M"
  | _6M => "6M"
  | _1Y => "1Y"
  | _5Y => "5Y"
  | _10Y => "10Y"
  | _20Y => "20Y"
  | _30Y => "30Y"
  end%string.

(** ** Ordering a sequence of DateTimes *)

(** [std::set<long long>::insert]: the elements are kept in increasing
    order, and a value that is already there is not inserted again. *)
Fixpoint set_insert (v : Z) (s : list Z) : list Z :=
  match s with
  | [] => [v]
  | w :: s' =>
      if v <? w then v :: s
      else if w <? v then w :: set_insert v s'
      else s
  end.

(** The first loop of [order_datetime_sequence]: every object of the
    sequence is converted to nanoseconds, in place, and its timestamp goes
    into the set. *)
Fixpoint order_convert (datetime_sequence : list loc) (set_intervals : list Z)
    (hp : heap) : option (list Z * heap) :=
  match datetime_sequence with
  | [] => Some (set_intervals, hp)
  | dt :: rest =>
      hp ← call (DateTime.convert_timestamp NANOSECONDS) dt hp;
      i ← DateTime.get_timestamp <$> hp !! dt;
      order_convert rest (set_insert i set_intervals) hp
  end.

(** The second loop: a new object for each element of the set.  The
    constructor of DateTime can throw; the vector, which the caller passed
    by reference, then keeps what was pushed so far. *)
Fixpoint order_rebuild (set_intervals : list Z) (datetime_sequence : list loc)
    (hp : heap) : result unit * list loc * heap :=
  match set_intervals with
  | [] => (Ret tt, datetime_sequence, hp)
  | i :: rest =>
      match DateTime.new i NANOSECONDS with
      | Throw e => (Throw e, datetime_sequence, hp)
      | Ret x =>
          let '(p, hp) := alloc x hp in
          order_rebuild rest (datetime_sequence ++ [p]) hp
      end
  end.

(** The result holds the vector as the call leaves it, whether it returns
    or throws. *)
Definition order_datetime_sequence (datetime_sequence : list loc) (hp : heap)
  : option (result unit * list loc * heap) :=
  '(set_intervals, hp) ← order_convert datetime_sequence [] hp;
  let datetime_sequence := [] in
  Some (order_rebuild set_intervals datetime_sequence hp).

(** ** Calendar queries *)

(** [std::tm]. *)
Record tm : Type := mk_tm
  { tm_sec : Z; tm_min : Z; tm_hour : Z; tm_mday : Z; tm_mon : Z;
    tm_year : Z; tm_wday : Z; tm_yday : Z; tm_isdst : Z }.

(** A call [p->f(...)] of a member function that mutates its object and
    returns a value. *)
Definition call_ret {A : Type} (f : DateTime.t -> option (A * DateTime.t))
    (p : loc) (hp : heap) : option (A * heap) :=
  x ← hp !! p; '(a, x') ← f x; Some (a, <[p := x']> hp).

Section Calendar.

(** [std::localtime] depends on the time zone of the process.  It returns
    a null pointer for a time it cannot represent, and [get_time_info]
    dereferences what it returns. *)
Variable localtime : Z -> option tm.

Definition get_time_info (x : DateTime.t) : option (tm * DateTime.t) :=
  let old_tmsp_type := DateTime.type_ x in
  x ← DateTime.convert_timestamp SECONDS x;
  let timestamp := DateTime.tmsp x in
  x ← DateTime.convert_timestamp old_tmsp_type x;
  time_info ← localtime timestamp;
  Some (time_info, x).

Definition is_week_end (x : DateTime.t) : option (bool * DateTime.t) :=
  '(time_info, x) ← get_time_info x;
  if tm_wday time_info =? 0 then Some (true, x)
  else if tm_wday time_info =? 6 then Some (true, x)
  else Some (false, x).

(** The loop of [is_date_in_holiday] over the holidays that are left. *)
Fixpoint holiday_loop (time_info : tm) (holiday_datetimes : list loc) (hp : heap)
  : option (bool * heap) :=
  match holiday_datetimes with
  | [] => Some (false, hp)
  | h :: rest =>
      '(h_time_info, hp) ← call_ret get_time_info h hp;
      if (tm_mday time_info =? tm_mday h_time_info)
         && (tm_mon time_info =? tm_mon h_time_info)
         && (tm_year time_info =? tm_year h_time_info)
      then Some (true, hp)
      else holiday_loop time_info rest hp
  end.

Definition is_date_in_holiday (this : loc) (holiday_datetimes : list loc)
    (hp : heap) : option (bool * heap) :=
  '(time_info, hp) ← call_ret get_time_info this hp;
  holiday_loop time_info holiday_datetimes hp.

End Calendar.

(** ** interpolation2D *)

(** A [std::map<double, double>] is the list of its entries in iteration
    order, which is ascending key order whatever the order of insertion. *)
Definition map_double : Type := list (double * double).

(** [std::map::insert]: an entry whose key is equivalent to one already
    present is not inserted. *)
Fixpoint map_insert (k v : double) (mp : map_double) : map_double :=
  match mp with
  | [] => [(k, v)]
  | (k', v') :: mp' =>
      if ltb k k' then (k, v) :: mp
      else if ltb k' k then (k', v') :: map_insert k v mp'
      else mp
  end.

(** The map written [{k1: v1, k2: v2, ...}], built from its entries in the
    order they are written. *)
Definition map_of_list (l : list (double * double)) : map_double :=
  fold_left (fun mp kv => map_insert (fst kv) (snd kv) mp) l [].

(** [std::map::at]: the value of the entry whose key is equivalent to [k]. *)
Fixpoint map_at (mp : map_double) (k : double) : result double :=
  match mp with
  | [] => Throw std_out_of_range
  | (k', v') :: mp' =>
      if ltb k k' || ltb k' k then map_at mp' k else Ret v'
  end.

(** [std::min_element] and [std::max_element], dereferenced: the first
    smallest and the first largest element; dereferencing the iterator of
    an empty range is undefined. *)
Fixpoint min_element_from (best : double) (l : list double) : double :=
  match l with
  | [] => best
  | v :: l' => min_element_from (if ltb v best then v else best) l'
  end.

Definition min_element (l : list double) : option double :=
  match l with
  | [] => None
  | v :: l' => Some (min_element_from v l')
  end.

Fixpoint max_element_from (best : double) (l : list double) : double :=
  match l with
  | [] => best
  | v :: l' => max_element_from (if ltb best v then v else best) l'
  end.

Definition max_element (l : list double) : option double :=
  match l with
  | [] => None
  | v :: l' => Some (max_element_from v l')
  end.

(** [std::vector<double>::max_size()] where [size_t] has 64 bits. *)
Definition vector_max_size : Z := 2 ^ 60 - 1.

(** A counted loop [for (i = first; ...; ++i) body], run [iters] times on
    a state that a step may fail to produce. *)
Fixpoint for_up {St : Type} (iters : nat) (i : nat)
    (body : nat -> St -> option St) (st : St) : option St :=
  match iters with
  | O => Some st
  | S iters' => st' ← body i st; for_up iters' (S i) body st'
  end.

(** [for (j = first; ...; --j) body]. *)
Fixpoint for_down {St : Type} (iters : nat) (j : nat)
    (body : nat -> St -> option St) (st : St) : option St :=
  match iters with
  | O => Some st
  | S iters' => st' ← body j st; for_down iters' (Nat.pred j) body st'
  end.

(** [v[i] = a]: a write through [operator[]], undefined out of bounds. *)
Definition vec_set (i : nat) (a : double) (v : list double) : option (list double) :=
  if (i <? length v)%nat then Some (<[i := a]> v) else None.

Module Interpolation2D.

(** The members, in the order of their declaration in the class, which is
    the order in which the constructor initialises them. *)
Record t : Type := mk
  { mapped_x_y : map_double;
    x : list double;
    y : list double;
    x_min : double;
    x_max : double }.

(** The loop has no braces: its body is [keys.push_back(imap.first)]
    alone, and the test of [keys[i-1] > keys[i]] runs once, after the
    loop, with [i] equal to 0. *)
Definition get_x_values (mapped_x_y : map_double) : option (result (list double)) :=
  let keys := map fst mapped_x_y in
  let i := 0%nat in
  wrong ← (if (0 <? i)%nat
           then a ← keys !! (i - 1)%nat; b ← keys !! i; Some (ltb b a)
           else Some false);
  if (wrong : bool) then Some (Throw Interpolation2DWrongXaxis)
  else
    let i := S i in
    if (length keys <? 2)%nat then Some (Throw Interpolation2DMinimalVectorSize)
    else Some (Ret keys).

Definition get_y_values (mapped_x_y : map_double) : list double :=
  map snd mapped_x_y.

(** The constructor.  The initialisers run in declaration order:
    [mapped_x_y], then [x] from [get_x_values], then [y], whose
    initialiser is the dereferenced [std::min_element] of [x]: this is the
    constructor [vector(size_type n)] applied to the smallest key
    converted to [size_t], and makes [n] zeros; then [x_max].  No initialiser names
    [x_min]: it keeps the indeterminate value [indeterminate] of its
    storage. *)
Definition new (indeterminate : double) (mapped_x_y_ : map_double)
  : option (result t) :=
  r ← get_x_values mapped_x_y_;
  match r with
  | Throw e => Some (Throw e)
  | Ret x_ =>
      lo ← min_element x_;
      n ← to_size_t lo;
      if vector_max_size <? n then Some (Throw std_length_error)
      else
        hi ← max_element x_;
        Some (Ret (mk mapped_x_y_ x_ (replicate (Z.to_nat n) zero) indeterminate hi))
  end.

End Interpolation2D.

Module LinearInterpolation2D.

Import Interpolation2D.

Definition new := Interpolation2D.new.

Definition linear_interpolate (x0 y0 x1 y1 x : double) : double :=
  add y0 (div (mul (sub x x0) (sub y1 y0)) (sub x1 x0)).

(** The loop [for (int i = 1; i < x.size(); ++i)] of [evaluate], with
    [iters] iterations left; leaving the loop reaches the end of the
    function without a [return]. *)
Fixpoint evaluate_loop (iters : nat) (i : nat) (self : t) (x_ : double)
  : option (result double) :=
  match iters with
  | O => None
  | S iters' =>
      a ← x self !! (i - 1)%nat;
      b ← x self !! i;
      if leb a x_ && leb x_ b then
        let x0 := a in
        let x1 := b in
        match map_at (mapped_x_y self) x0, map_at (mapped_x_y self) x1 with
        | Ret y0, Ret y1 => Some (Ret (linear_interpolate x0 y0 x1 y1 x_))
        | Throw e, _ => Some (Throw e)
        | _, Throw e => Some (Throw e)
        end
      else evaluate_loop iters' (S i) self x_
  end.

Definition evaluate (self : t) (x_ : double) : option (result double) :=
  if ltb x_ (x_min self) || ltb (x_max self) x_
  then Some (Throw Interpolation2DOutOfRange)
  else evaluate_loop (length (x self) - 1) 1 self x_.

End LinearInterpolation2D.

Module CubicSpline2D.

Record t : Type := mk
  { base : Interpolation2D.t;
    x_ : list double;
    a_ : list double;
    b_ : list double;
    c_ : list double;
    d_ : list double }.

Definition three : double := of_Z 3.
Definition two : double := of_Z 2.
Definition one : double := of_Z 1.

Definition get_parameters (self : Interpolation2D.t) : option t :=
  let x := Interpolation2D.x self in
  let y := Interpolation2D.y self in
  let n := (length x - 1)%nat in
  let x_ := Interpolation2D.x self in
  let a_ := Interpolation2D.y self in
  let h := replicate n zero in
  let alpha := replicate n zero in
  h ← for_up n 0
        (fun i h =>
           xi1 ← x !! (i + 1)%nat; xi ← x !! i;
           vec_set i (sub xi1 xi) h) h;
  alpha ← for_up (n - 1) 1
        (fun i alpha =>
           hi ← h !! i; ai1 ← a_ !! (i + 1)%nat; ai ← a_ !! i;
           hp ← h !! (i - 1)%nat; ap ← a_ !! (i - 1)%nat;
           vec_set i (sub (mul (div three hi) (sub ai1 ai))
                          (mul (div three hp) (sub ai ap))) alpha) alpha;
  let l := replicate (n + 1) zero in
  let mu := replicate n zero in
  let z := replicate (n + 1) zero in
  l ← vec_set 0 one l;
  mu ← vec_set 0 zero mu;
  z ← vec_set 0 zero z;
  '(l, mu, z) ← for_up (n - 1) 1
        (fun i '(l, mu, z) =>
           xi1 ← x !! (i + 1)%nat; xp ← x !! (i - 1)%nat;
           hp ← h !! (i - 1)%nat; mup ← mu !! (i - 1)%nat;
           l ← vec_set i (sub (mul two (sub xi1 xp)) (mul hp mup)) l;
           hi ← h !! i; li ← l !! i;
           mu ← vec_set i (div hi li) mu;
           ali ← alpha !! i; zp ← z !! (i - 1)%nat;
           z ← vec_set i (div (sub ali (mul hp zp)) li) z;
           Some (l, mu, z)) (l, mu, z);
  l ← vec_set n one l;
  z ← vec_set n zero z;
  let c_ := replicate (n + 1) zero in
  let b_ := replicate n zero in
  let d_ := replicate n zero in
  c_ ← vec_set n zero c_;
  '(c_, b_, d_) ← for_down n (n - 1)
        (fun j '(c_, b_, d_) =>
           zj ← z !! j; muj ← mu !! j; cj1 ← c_ !! (j + 1)%nat;
           c_ ← vec_set j (sub zj (mul muj cj1)) c_;
           aj1 ← a_ !! (j + 1)%nat; aj ← a_ !! j; hj ← h !! j;
           cj ← c_ !! j;
           b_ ← vec_set j (sub (div (sub aj1 aj) hj)
                               (div (mul hj (add cj1 (mul two cj))) three)) b_;
           d_ ← vec_set j (div (sub cj1 cj) (mul three hj)) d_;
           Some (c_, b_, d_)) (c_, b_, d_);
  Some (mk self x_ a_ b_ c_ d_).

Definition new (indeterminate : double) (mapped_x_y_ : map_double)
  : option (result t) :=
  r ← Interpolation2D.new indeterminate mapped_x_y_;
  match r with
  | Throw e => Some (Throw e)
  | Ret self => obj ← get_parameters self; Some (Ret obj)
  end.

(** The search [for (int j = 1; j < x.size(); ++j) if (x_ < x[j]) {i = j - 1; break;}]
    with [iters] iterations left; [i] stays 0 when no key is above [x_]. *)
Fixpoint find_segment (iters : nat) (j : nat) (x : list double) (x_ : double)
  : option nat :=
  match iters with
  | O => Some 0%nat
  | S iters' =>
      xj ← x !! j;
      if ltb x_ xj then Some (j - 1)%nat
      else find_segment iters' (S j) x x_
  end.

Definition evaluate (self : t) (x_ : double) : option (result double) :=
  let b := base self in
  if ltb x_ (Interpolation2D.x_min b) || ltb (Interpolation2D.x_max b) x_
  then Some (Throw Interpolation2DOutOfRange)
  else if eqb x_ (Interpolation2D.x_max b)
  then Some (map_at (Interpolation2D.mapped_x_y b) (Interpolation2D.x_max b))
  else
    i ← find_segment (length (Interpolation2D.x b) - 1) 1 (Interpolation2D.x b) x_;
    xi ← Interpolation2D.x b !! i;
    let dx := sub x_ xi in
    ai ← a_ self !! i; bi ← b_ self !! i; ci ← c_ self !! i; di ← d_ self !! i;
    Some (Ret (add (add (add ai (mul bi dx)) (mul (mul ci dx) dx))
                   (mul (mul (mul di dx) dx) dx))).

End CubicSpline2D.

(** * Vocabulary of the statements *)

(** Keys in strictly increasing order, as [operator<] sees them. *)
Fixpoint increasing (l : list double) : Prop :=
  match l with
  | a :: ((b :: _) as l') => ltb a b = true /\ increasing l'
  | _ => True
  end.

(** The segment [s] of the axis of [self], between the keys of index [s]
    and [s + 1], holds [x_]. *)
Definition holds (self : Interpolation2D.t) (x_ : double) (s : nat) : Prop :=
  exists a b,
    Interpolation2D.x self !! s = Some a /\
    Interpolation2D.x self !! S s = Some b /\
    leb a x_ = true /\ leb x_ b = true.

(** The axis [{0:0, 1:1, 2:0, 3:1}] and the same values over the keys
    4, 5, 6, 7. *)
Definition four_point_axis : map_double :=
  map_of_list [(of_Z 0, of_Z 0); (of_Z 1, of_Z 1); (of_Z 2, of_Z 0); (of_Z 3, of_Z 1)].

Definition shifted_axis : map_double :=
  map_of_list [(of_Z 4, of_Z 0); (of_Z 5, of_Z 1); (of_Z 6, of_Z 0); (of_Z 7, of_Z 1)].

(** The axis [{0:0, 10:10}] and the axis [{0:0, 3:0.1}]. *)
Definition ten_axis : map_double :=
  map_of_list [(of_Z 0, of_Z 0); (of_Z 10, of_Z 10)].

Definition tenth : double := div (of_Z 1) (of_Z 10).

Definition tenth_axis : map_double :=
  map_of_list [(of_Z 0, of_Z 0); (of_Z 3, tenth)].

(** A TimeDelta with one field populated, the one of [delta_type]. *)
Definition single_field (delta_type : EpochTimestampType) (delta : Z) : TimeDelta.t :=
  match delta_type with
  | SECONDS => TimeDelta.mk 0 0 0 delta 0 0 0
  | MILLISECONDS => TimeDelta.mk 0 0 0 0 delta 0 0
  | MICROSECONDS => TimeDelta.mk 0 0 0 0 0 delta 0
  | NANOSECONDS => TimeDelta.mk 0 0 0 0 0 0 delta
  end.

(** The timestamp of a DateTime in nanoseconds, as an exact integer. *)
Definition nanoseconds_of (x : DateTime.t) : Z :=
  DateTime.tmsp x * (1000000000 / type_value (DateTime.type_ x)).

(** The delta applied [k] times in a row, starting from [x]. *)
Fixpoint iter_apply (k : nat) (dt : TimeDelta.t) (x : DateTime.t) : option DateTime.t :=
  match k with
  | O => Some x
  | S k' => x' ← DateTime.apply_time_delta dt x; iter_apply k' dt x'
  end.

(** The heap of a result, followed by the objects [ext]. *)
Definition extend (ext : heap) (r : option heap) : option heap :=
  match r with Some h => Some (h ++ ext) | None => None end.

(** The divisor of [get_year_fraction_from_datetimes]: the days of the
    year in nanoseconds. *)
Definition year_in_ns (dcc : DayCountConvention) : Z :=
  get_number_days_in_year dcc * 86400 * 1000000000.

(** The scale factor of [convert_timestamp], as the code computes it. *)
Definition factor (type type_ : EpochTimestampType) : double :=
  div (of_Z (type_value type)) (of_Z (type_value type_)).

(** A value that does not compare below zero. *)
Definition not_negative (x : double) : bool :=
  match x with
  | S754_finite true _ _ | S754_infinity true => false
  | _ => true
  end.

(** What is left of [M] after [n] right shifts: the quotient [m], the bit
    [r] shifted out last and whether any bit shifted out before is set
    ([s]), stated on the remainder [M - m * 2^n]. *)
Definition shr_inv (M : Z) (n : Z) (mrs : shr_record) : Prop :=
  0 <= shr_m mrs /\
  0 <= M - shr_m mrs * 2 ^ n < 2 ^ n /\
  (shr_r mrs = true <-> 2 ^ n <= 2 * (M - shr_m mrs * 2 ^ n)) /\
  (shr_s mrs = true <->
   2 * (M - shr_m mrs * 2 ^ n) - (if shr_r mrs then 2 ^ n else 0) <> 0).

(** A finite value [q * 2^E] with [2^52 <= q <= 2^53], in normal form. *)
Definition pack (sx : bool) (q E : Z) : double :=
  if q <? 2 ^ 53 then S754_finite sx (Z.to_pos q) E
  else S754_finite sx (Z.to_pos (2 ^ 52)) (E + 1).

(** The integer nearest to [m * 2^e], halfway cases upward: what [round]
    makes of a positive finite value. *)
Definition nearest (m : positive) (e : Z) : Z :=
  int_part m e + (if half_or_more m e then 1 else 0).

(** The integer nearest to [M / 2^n], halfway cases to the even one. *)
Definition rne (M n : Z) : Z :=
  let m := M / 2 ^ n in
  let rest := M mod 2 ^ n in
  if 2 * rest <? 2 ^ n then m
  else if 2 ^ n <? 2 * rest then m + 1
  else if Z.even m then m else m + 1.

(** The value of the [double] nearest to a non-negative integer: the
    integer itself below 2^53 and, above, the multiple nearest to it of the
    weight of the last of its 53 leading bits. *)
Definition round53 (z : Z) : Z :=
  let k := Z.log2 z - 52 in
  if k <=? 0 then z else rne z k * 2 ^ k.

(** The value of a tenor in the enumeration, ON first. *)
Definition tenor_index (tenor : Tenor) : Z :=
  match tenor with
  | ON => 0 | TN => 1 | SN => 2 | _1W => 3 | _2W => 4 | _1M => 5 | _3M => 6
  | _6M => 7 | _1Y => 8 | _5Y => 9 | _10Y => 10 | _20Y => 11 | _30Y => 12
  end.

(** The days, hours, minutes and seconds of a TimeDelta, in seconds. *)
Definition whole_seconds (x : TimeDelta.t) : Z :=
  TimeDelta.d x * 86400 + TimeDelta.h x * 3600 + TimeDelta.m x * 60 + TimeDelta.s x.

(** The TimeDelta of the opposite fields. *)
Definition negate (x : TimeDelta.t) : TimeDelta.t :=
  TimeDelta.mk (- TimeDelta.d x) (- TimeDelta.h x) (- TimeDelta.m x)
    (- TimeDelta.s x) (- TimeDelta.ms x) (- TimeDelta.mcs x) (- TimeDelta.ns x).

(** Neither an infinity nor NaN. *)
Definition finite (x : double) : bool :=
  match x with
  | S754_zero _ | S754_finite _ _ _ => true
  | _ => false
  end.

Definition is_zero (x : double) : bool :=
  match x with
  | S754_zero _ => true
  | _ => false
  end.

(** A stand-in for [std::localtime] in the examples: the time of day and
    the day of the week in UTC (1970-01-01 was a Thursday), and the days
    since the epoch in place of the date. *)
Definition utc_day_and_time (secs : Z) : option tm :=
  Some (mk_tm (secs mod 60) (secs / 60 mod 60) (secs / 3600 mod 24)
          (secs / 86400) 0 0 ((secs / 86400 + 4) mod 7) (secs / 86400) 0).

(** * Properties *)

(** ** Arithmetic of [long long] *)

Lemma wrap64_idem z : wrap64 (wrap64 z) = wrap64 z.
Proof.
  unfold wrap64.
  replace ((z + 2 ^ 63) mod 2 ^ 64 - 2 ^ 63 + 2 ^ 63)
    with ((z + 2 ^ 63) mod 2 ^ 64) by lia.
  rewrite Z.mod_mod by lia. reflexivity.
Qed.

Lemma wrap64_range z : - 2 ^ 63 <= wrap64 z < 2 ^ 63.
Proof.
  unfold wrap64.
  pose proof (Z.mod_pos_bound (z + 2 ^ 63) (2 ^ 64) ltac:(lia)). lia.
Qed.

Lemma wrap64_small z : - 2 ^ 63 <= z < 2 ^ 63 -> wrap64 z = z.
Proof.
  intros Hz. unfold wrap64. rewrite Z.mod_small by lia. lia.
Qed.

Lemma wrap64_mod z : wrap64 z mod 2 ^ 64 = z mod 2 ^ 64.
Proof.
  unfold wrap64.
  rewrite <- (Zminus_mod_idemp_l ((z + 2 ^ 63) mod 2 ^ 64)), Z.mod_mod by lia.
  rewrite Zminus_mod_idemp_l. f_equal. lia.
Qed.

Lemma wrap64_congr a b : a mod 2 ^ 64 = b mod 2 ^ 64 -> wrap64 a = wrap64 b.
Proof.
  intros H. unfold wrap64.
  rewrite <- (Zplus_mod_idemp_l a), H, Zplus_mod_idemp_l. reflexivity.
Qed.

Lemma wrap64_repr z : exists k, wrap64 z = z + 2 ^ 64 * k.
Proof.
  exists (- ((z + 2 ^ 63) / 2 ^ 64)). unfold wrap64.
  rewrite Z.mod_eq by lia. lia.
Qed.

(** Equality of two wrapped sums of products, each operand of which may
    itself be wrapped. *)
Ltac wrap64_eq :=
  apply wrap64_congr;
  repeat match goal with
    | |- context [wrap64 ?z] =>
        let k := fresh "k" in
        let Hk := fresh "Hk" in
        destruct (wrap64_repr z) as [k Hk]; rewrite Hk; clear Hk
    end;
  Z.div_mod_to_equations; lia.

Lemma quot_bound (a k : Z) :
  0 < k -> - (2 ^ 53 * k) < a < 2 ^ 53 * k -> - 2 ^ 53 < Z.quot a k < 2 ^ 53.
Proof.
  intros Hk Ha.
  assert (Hpos : forall b, 0 <= b < 2 ^ 53 * k -> 0 <= Z.quot b k < 2 ^ 53).
  { intros b Hb.
    pose proof (Z.quot_rem' b k) as Hqr.
    pose proof (Z.rem_bound_pos b k ltac:(lia) Hk).
    assert (0 <= Z.quot b k) by (apply Z.quot_pos; lia). nia. }
  destruct (Z_le_gt_dec 0 a) as [H0 | H0].
  - specialize (Hpos a ltac:(lia)). lia.
  - specialize (Hpos (- a) ltac:(lia)).
    rewrite Z.quot_opp_l in Hpos by lia. lia.
Qed.

(** ** The order of [double] *)

Lemma SFcompare_antisym x y :
  SFcompare y x = option_map CompOpp (SFcompare x y).
Proof.
  destruct x as [[] | [] | | [] mx ex], y as [[] | [] | | [] my ey];
    try reflexivity; cbn;
    rewrite (Z.compare_antisym ex ey);
    destruct (ex ?= ey); cbn; try reflexivity;
    change (Pos.compare_cont Eq) with Pos.compare;
    rewrite (Pos.compare_antisym mx my);
    destruct (mx ?= my)%positive; reflexivity.
Qed.

Lemma ltb_leb x y : ltb x y = true -> leb x y = true.
Proof.
  unfold ltb, leb, SFltb, SFleb.
  destruct (SFcompare x y) as [[] |]; intros H; try discriminate H; reflexivity.
Qed.

Lemma ltb_not_leb x y : ltb x y = true -> leb y x = false.
Proof.
  unfold ltb, leb, SFltb, SFleb. rewrite (SFcompare_antisym x y).
  destruct (SFcompare x y) as [[] |]; intros H; try discriminate H; reflexivity.
Qed.

Lemma ltb_not_leb_inv x y : leb y x = true -> ltb x y = false.
Proof.
  intros H. destruct (ltb x y) eqn:E; [| reflexivity].
  apply ltb_not_leb in E. congruence.
Qed.

Lemma ltb_irrefl x : ltb x x = false.
Proof.
  unfold ltb, SFltb.
  pose proof (SFcompare_antisym x x) as H.
  destruct (SFcompare x x) as [[] |]; try reflexivity. discriminate H.
Qed.

Lemma ltb_asym x y : ltb x y = true -> ltb y x = false.
Proof.
  unfold ltb, SFltb. rewrite (SFcompare_antisym x y).
  destruct (SFcompare x y) as [[] |]; intros H; try discriminate H; reflexivity.
Qed.

Lemma compare_is_nan x y :
  SFcompare x y = None <-> is_nan x = true \/ is_nan y = true.
Proof.
  destruct x as [[] | [] | | [] mx ex], y as [[] | [] | | [] my ey]; cbn;
    split; intros H; try discriminate H; try tauto;
    destruct H as [H | H]; discriminate H.
Qed.

Lemma leb_not_nan x y :
  leb x y = true -> is_nan x = false /\ is_nan y = false.
Proof.
  unfold leb, SFleb.
  destruct x as [[] | [] | | [] mx ex], y as [[] | [] | | [] my ey];
    cbn; intros H; try discriminate H; split; reflexivity.
Qed.

Lemma ltb_not_nan x y :
  ltb x y = true -> is_nan x = false /\ is_nan y = false.
Proof. intros H. apply leb_not_nan, ltb_leb, H. Qed.

(** Two values that are not NaN are comparable. *)
Lemma leb_total x y :
  is_nan x = false -> is_nan y = false -> leb x y = false -> ltb y x = true.
Proof.
  intros Hx Hy. unfold leb, ltb, SFleb, SFltb.
  rewrite (SFcompare_antisym x y).
  destruct (SFcompare x y) as [[] |] eqn:Hc; intros H; try discriminate H;
    try reflexivity.
  apply compare_is_nan in Hc. destruct Hc; congruence.
Qed.

Lemma SFcompare_Lt_trans x y z :
  SFcompare x y = Some Lt -> SFcompare y z = Some Lt -> SFcompare x z = Some Lt.
Proof.
  destruct x as [[] | [] | | [] mx ex], y as [[] | [] | | [] my ey],
    z as [[] | [] | | [] mz ez]; cbn; try discriminate; try reflexivity;
    change (Pos.compare_cont Eq) with Pos.compare;
    destruct (Z.compare_spec ex ey), (Z.compare_spec ey ez);
    try discriminate; subst;
    destruct (Pos.compare_spec mx my), (Pos.compare_spec my mz);
    cbn; try discriminate; subst; intros _ _;
    repeat match goal with
      | |- context [?a ?= ?b] =>
          destruct (Z.compare_spec a b); try lia
      | |- context [(?a ?= ?b)%positive] =>
          destruct (Pos.compare_spec a b); try lia
      end; reflexivity.
Qed.

Lemma ltb_trans x y z : ltb x y = true -> ltb y z = true -> ltb x z = true.
Proof.
  unfold ltb, SFltb.
  destruct (SFcompare x y) as [[] |] eqn:Hxy; try discriminate.
  destruct (SFcompare y z) as [[] |] eqn:Hyz; try discriminate.
  rewrite (SFcompare_Lt_trans _ _ _ Hxy Hyz). reflexivity.
Qed.

Lemma leb_refl x : is_nan x = false -> leb x x = true.
Proof.
  intros Hx. unfold leb, SFleb.
  pose proof (SFcompare_antisym x x) as H.
  destruct (SFcompare x x) as [[] |] eqn:Hc; try reflexivity; try discriminate H.
  apply compare_is_nan in Hc. destruct Hc; congruence.
Qed.

Lemma ltb_zero_not_negative x : ltb x zero = negb (not_negative x).
Proof. destruct x as [[] | [] | | [] m e]; reflexivity. Qed.

(** ** Rounding to binary64 *)

Lemma binary_round_aux_sign sx mx ex lx :
  match binary_round_aux prec emax sx mx ex lx with
  | S754_zero s | S754_infinity s | S754_finite s _ _ => s = sx
  | S754_nan => True
  end.
Proof.
  unfold binary_round_aux.
  destruct (shr_fexp _ _ mx ex lx) as [mrs' e'].
  destruct (shr_fexp _ _ _ e' loc_Exact) as [mrs'' e''].
  destruct (shr_m mrs''); try exact I; try reflexivity.
  destruct (e'' <=? emax - prec); reflexivity.
Qed.

Lemma of_Z_not_negative n : 0 <= n -> not_negative (of_Z n) = true.
Proof.
  intros Hn. destruct n as [| p | p]; [reflexivity | | lia].
  unfold of_Z, binary_normalize, binary_round.
  destruct (shl_align _ _ _) as [mz ez].
  pose proof (binary_round_aux_sign false (Z.pos mz) ez loc_Exact) as H.
  destruct (binary_round_aux _ _ _ _ _ _) as [s | s | | s m e];
    try reflexivity; subst s; reflexivity.
Qed.

Lemma div_not_negative x m e :
  not_negative x = true ->
  not_negative (div x (S754_finite false m e)) = true.
Proof.
  destruct x as [[] | [] | | [] mx ex]; try discriminate; try reflexivity.
  intros _. unfold div, SFdiv.
  destruct (SFdiv_core_binary _ _ _ _ _ _) as [[mz ez] lz].
  pose proof (binary_round_aux_sign (xorb false false) mz ez lz) as H.
  destruct (binary_round_aux _ _ _ _ _ _) as [s | s | | s m' e'];
    try reflexivity; cbn in H; subst s; reflexivity.
Qed.

Lemma digits2_pos_bounds (p : positive) :
  2 ^ (Zpos (digits2_pos p) - 1) <= Zpos p < 2 ^ Zpos (digits2_pos p).
Proof.
  induction p as [p IH | p IH |]; cbn [digits2_pos].
  - rewrite Pos2Z.inj_succ, Z.pow_succ_r by lia.
    replace (Z.succ (Zpos (digits2_pos p)) - 1) with (Z.succ (Zpos (digits2_pos p) - 1)) by lia.
    rewrite Z.pow_succ_r by lia. lia.
  - rewrite Pos2Z.inj_succ, Z.pow_succ_r by lia.
    replace (Z.succ (Zpos (digits2_pos p)) - 1) with (Z.succ (Zpos (digits2_pos p) - 1)) by lia.
    rewrite Z.pow_succ_r by lia. lia.
  - cbn. lia.
Qed.

(** The number of binary digits is determined by the bounds. *)
Lemma digits2_pos_unique (p : positive) (d : Z) :
  2 ^ (d - 1) <= Zpos p < 2 ^ d -> Zpos (digits2_pos p) = d.
Proof.
  intros [Hlo Hhi].
  pose proof (digits2_pos_bounds p) as [Hlo' Hhi'].
  set (d' := Zpos (digits2_pos p)) in *.
  assert (Hd' : 0 < d') by (unfold d'; lia).
  assert (Hd : 0 < d).
  { destruct (Z.lt_ge_cases 0 d) as [H | H]; [exact H |].
    exfalso. destruct (Z.eq_dec d 0) as [-> | Hne].
    - rewrite Z.pow_0_r in Hhi. lia.
    - rewrite Z.pow_neg_r in Hhi by lia. lia. }
  destruct (Z.lt_trichotomy d' d) as [Hlt | [Heq | Hgt]]; [| exact Heq |].
  - exfalso.
    assert (2 ^ d' <= 2 ^ (d - 1)) by (apply Z.pow_le_mono_r; lia). lia.
  - exfalso.
    assert (2 ^ d <= 2 ^ (d' - 1)) by (apply Z.pow_le_mono_r; lia). lia.
Qed.

Lemma iter_pos_nat {A : Type} (f : A -> A) (p : positive) (a : A) :
  SpecFloat.iter_pos f p a = Nat.iter (Pos.to_nat p) f a.
Proof.
  revert a. induction p as [p IH | p IH |]; intros a; cbn [SpecFloat.iter_pos].
  - rewrite !IH, Pos2Nat.inj_xI.
    replace (S (2 * Pos.to_nat p)) with (Pos.to_nat p + Pos.to_nat p + 1)%nat by lia.
    rewrite !Nat.iter_add. reflexivity.
  - rewrite !IH, Pos2Nat.inj_xO.
    replace (2 * Pos.to_nat p)%nat with (Pos.to_nat p + Pos.to_nat p)%nat by lia.
    rewrite Nat.iter_add. reflexivity.
  - reflexivity.
Qed.

Ltac iff_bool :=
  repeat match goal with
    | H : true = true <-> _ |- _ => destruct H as [H _]; specialize (H eq_refl)
    | H : false = true <-> _ |- _ => destruct H as [_ H]
    end.

Lemma shr_1_nonneg m r s :
  0 <= m ->
  shr_1 (Build_shr_record m r s) = Build_shr_record (Z.div2 m) (Z.odd m) (r || s).
Proof.
  intros Hm. destruct m as [| [p | p |] | p]; try reflexivity. lia.
Qed.

Lemma shr_inv_step M n mrs :
  0 <= n -> shr_inv M n mrs -> shr_inv M (n + 1) (shr_1 mrs).
Proof.
  intros Hn. destruct mrs as [m r s]. unfold shr_inv. cbn [shr_m shr_r shr_s].
  intros (Hm & HR & Hr & Hs).
  rewrite shr_1_nonneg by exact Hm. cbn [shr_m shr_r shr_s].
  rewrite Z.pow_add_r, Z.pow_1_r by lia.
  pose proof (Z.div2_odd m) as Hdiv.
  assert (Hpow : 0 < 2 ^ n) by (apply Z.pow_pos_nonneg; lia).
  set (P := 2 ^ n) in *. set (q := Z.div2 m) in *.
  assert (Hq : 0 <= q) by (unfold q; apply Z.div2_nonneg; exact Hm).
  destruct (Z.odd m); cbn [Z.b2z] in Hdiv.
  - replace (M - q * (P * 2)) with (M - m * P + P) by nia.
    repeat split; try lia.
    + intros H. destruct r, s; cbn in H, Hs; try discriminate H; iff_bool; lia.
    + intros H. destruct r, s; cbn in Hs |- *; try reflexivity.
      iff_bool. exfalso. assert (E : false = true) by (apply Hs; lia).
      discriminate E.
  - replace (M - q * (P * 2)) with (M - m * P) by nia.
    repeat split; try lia; try discriminate.
    + intros H. destruct r, s; cbn in H, Hs; try discriminate H; iff_bool; lia.
    + intros H. destruct r, s; cbn in Hs |- *; try reflexivity.
      iff_bool. exfalso. assert (E : false = true) by (apply Hs; lia).
      discriminate E.
Qed.

Lemma shr_inv_iter M (k : nat) :
  0 <= M ->
  shr_inv M (Z.of_nat k) (Nat.iter k shr_1 (Build_shr_record M false false)).
Proof.
  intros HM. induction k as [| k IH].
  - cbn. unfold shr_inv. cbn. repeat split; try lia; try discriminate.
  - rewrite Nat2Z.inj_succ, <- Z.add_1_r. cbn [Nat.iter].
    apply shr_inv_step; [lia | exact IH].
Qed.

Lemma round_nearest_even_inv M n mrs :
  0 <= n -> shr_inv M n mrs ->
  shr_m mrs <= round_nearest_even (shr_m mrs) (loc_of_shr_record mrs)
            <= shr_m mrs + 1 /\
  2 * Z.abs (round_nearest_even (shr_m mrs) (loc_of_shr_record mrs) * 2 ^ n - M)
    <= 2 ^ n.
Proof.
  intros Hn. destruct mrs as [m r s]. unfold shr_inv. cbn [shr_m shr_r shr_s].
  intros (Hm & HR & Hr & Hs).
  assert (Hpow : 0 < 2 ^ n) by (apply Z.pow_pos_nonneg; lia).
  set (P := 2 ^ n) in *.
  destruct r, s; cbn [loc_of_shr_record round_nearest_even]; iff_bool.
  - split; [lia |]. replace ((m + 1) * P - M) with (P - (M - m * P)) by lia. lia.
  - assert (E : 2 * (M - m * P) = P).
    { destruct (Z.eq_dec (2 * (M - m * P) - P) 0) as [E | E]; [lia |].
      specialize (Hs E). discriminate Hs. }
    destruct (Z.even m); split; lia.
  - split; [lia |].
    assert (L : 2 * (M - m * P) < P).
    { destruct (Z_le_gt_dec P (2 * (M - m * P))) as [L | L]; [| lia].
      specialize (Hr L). discriminate Hr. }
    lia.
  - split; [lia |].
    assert (E : M - m * P = 0).
    { destruct (Z.eq_dec (2 * (M - m * P) - 0) 0) as [E | E]; [lia |].
      specialize (Hs E). discriminate Hs. }
    lia.
Qed.

Lemma fexp_normal x : -1074 <= x - 53 -> fexp prec emax x = x - 53.
Proof. intros H. unfold fexp, SpecFloat.emin, prec, emax. lia. Qed.

Lemma shr_fexp_normal (pm : positive) (e : Z) :
  53 <= Zpos (digits2_pos pm) ->
  -1074 <= Zpos (digits2_pos pm) + e - 53 ->
  exists mrs,
    shr_fexp prec emax (Zpos pm) e loc_Exact
      = (mrs, e + (Zpos (digits2_pos pm) - 53)) /\
    shr_inv (Zpos pm) (Zpos (digits2_pos pm) - 53) mrs.
Proof.
  intros Hd Hnorm. unfold shr_fexp. cbn [Zdigits2 shr_record_of_loc].
  rewrite fexp_normal by lia.
  replace (Zpos (digits2_pos pm) + e - 53 - e) with (Zpos (digits2_pos pm) - 53) by lia.
  destruct (Zpos (digits2_pos pm) - 53) as [| k | k] eqn:En; [| | lia].
  - exists (Build_shr_record (Zpos pm) false false). cbn [shr].
    split; [f_equal; lia |].
    apply (shr_inv_iter (Zpos pm) 0). lia.
  - cbn [shr]. eexists. split; [reflexivity |].
    rewrite iter_pos_nat, <- (positive_nat_Z k).
    apply shr_inv_iter. lia.
Qed.

(** Rounding a significand of 53 bits or more, in the range of normal
    numbers: the result is the nearest multiple of [2^(d - 53)]. *)
Lemma binary_round_aux_normal (sx : bool) (pm : positive) (e : Z) :
  let d := Zpos (digits2_pos pm) in
  53 <= d -> -1074 <= d + e - 53 -> d + e - 53 + 1 <= 971 ->
  exists q : Z,
    2 ^ 52 <= q <= 2 ^ 53 /\
    2 * Z.abs (q * 2 ^ (d - 53) - Zpos pm) <= 2 ^ (d - 53) /\
    binary_round_aux prec emax sx (Zpos pm) e loc_Exact = pack sx q (e + (d - 53)).
Proof.
  intros d Hd Hnorm Hmax. unfold binary_round_aux.
  destruct (shr_fexp_normal pm e Hd Hnorm) as (mrs & -> & Hinv).
  fold d in Hinv |- *.
  assert (Hn : 0 <= d - 53) by lia.
  destruct (round_nearest_even_inv _ _ _ Hn Hinv) as [Hq Herr].
  set (q := round_nearest_even (shr_m mrs) (loc_of_shr_record mrs)) in *.
  pose proof (digits2_pos_bounds pm) as [Hlo Hhi]. fold d in Hlo, Hhi.
  destruct Hinv as (Hm & HR & _ & _).
  assert (Hpow : 0 < 2 ^ (d - 53)) by (apply Z.pow_pos_nonneg; lia).
  assert (Hsplit : 2 ^ d = 2 ^ 53 * 2 ^ (d - 53)).
  { rewrite <- Z.pow_add_r by lia. f_equal. lia. }
  assert (Hsplit' : 2 ^ (d - 1) = 2 ^ 52 * 2 ^ (d - 53)).
  { rewrite <- Z.pow_add_r by lia. f_equal. lia. }
  assert (Hm1 : 2 ^ 52 <= shr_m mrs < 2 ^ 53) by nia.
  exists q. split; [lia |]. split; [exact Herr |].
  unfold pack.
  destruct (Z.ltb_spec q (2 ^ 53)) as [Hlt | Hge].
  - destruct q as [| pq | pq] eqn:Eq; try lia.
    unfold shr_fexp. cbn [Zdigits2 shr_record_of_loc].
    rewrite (digits2_pos_unique pq 53) by (cbn; lia).
    rewrite fexp_normal by lia.
    replace (53 + (e + (d - 53)) - 53 - (e + (d - 53))) with 0 by lia.
    cbn [shr shr_m Z.to_pos].
    destruct (Z.leb_spec (e + (d - 53)) (emax - prec)) as [L | L];
      [reflexivity | unfold emax, prec in L; lia].
  - assert (Eq : q = 2 ^ 53) by lia.
    rewrite Eq. unfold shr_fexp.
    change (Zdigits2 (2 ^ 53)) with 54. cbn [shr_record_of_loc].
    rewrite fexp_normal by lia.
    replace (54 + (e + (d - 53)) - 53 - (e + (d - 53))) with 1 by lia.
    cbn [shr SpecFloat.iter_pos]. cbn.
    destruct (Z.leb_spec (e + (d - 53) + 1) (emax - prec)) as [L | L];
      [reflexivity | unfold emax, prec in L; lia].
Qed.

Lemma iter_xO_pos (p k : positive) :
  Zpos (Pos.iter xO p k) = Zpos p * 2 ^ Zpos k.
Proof.
  induction k as [| k IH] using Pos.peano_ind.
  - cbn. lia.
  - rewrite Pos.iter_succ, Pos2Z.inj_xO, IH, Pos2Z.inj_succ, Z.pow_succ_r by lia.
    lia.
Qed.

(** An integer of at most 53 bits is converted exactly: its significand
    is the integer shifted to 53 bits. *)
Lemma binary_round_exact (s : bool) (pz : positive) :
  Zpos pz < 2 ^ 53 ->
  exists (mt : positive) (et : Z),
    binary_round prec emax s pz 0 = S754_finite s mt et /\
    Zpos (digits2_pos mt) = 53 /\
    -52 <= et <= 0 /\
    Zpos mt = Zpos pz * 2 ^ (- et).
Proof.
  intros Hz.
  pose proof (digits2_pos_bounds pz) as [Hlo Hhi].
  set (d := Zpos (digits2_pos pz)) in *.
  assert (Hd1 : 1 <= d) by (unfold d; lia).
  assert (Hd : d <= 53).
  { destruct (Z_le_gt_dec d 53) as [L | G]; [exact L | exfalso].
    assert (2 ^ 53 <= 2 ^ (d - 1)) by (apply Z.pow_le_mono_r; lia). lia. }
  unfold binary_round. rewrite Z.add_0_r. fold d.
  rewrite fexp_normal by lia. unfold shl_align.
  rewrite Z.sub_0_r.
  assert (Hpow : 2 ^ (d - 1) * 2 ^ (53 - d) = 2 ^ 52).
  { rewrite <- Z.pow_add_r by lia. f_equal. lia. }
  assert (Hpow' : 2 ^ d * 2 ^ (53 - d) = 2 ^ 53).
  { rewrite <- Z.pow_add_r by lia. f_equal. lia. }
  assert (Hpos : 0 < 2 ^ (53 - d)) by (apply Z.pow_pos_nonneg; lia).
  destruct (d - 53) as [| k | k] eqn:Ek; [| lia |].
  - assert (Hdig : Zpos (digits2_pos pz) = 53) by (fold d; lia).
    pose proof (binary_round_aux_normal s pz 0) as H.
    cbv zeta in H. rewrite Hdig in H.
    destruct H as (q & Hq & Herr & ->); [lia .. |].
    rewrite Z.sub_diag, Z.pow_0_r in Herr.
    assert (q = Zpos pz) as -> by lia.
    unfold pack. destruct (Z.ltb_spec (Zpos pz) (2 ^ 53)); [| lia].
    exists pz, 0. cbn [Z.to_pos]. rewrite Z.add_0_l.
    repeat split; solve [lia | exact Hdig].
  - assert (Hmz : Zpos (Pos.iter xO pz k) = Zpos pz * 2 ^ (53 - d)).
    { rewrite iter_xO_pos. do 2 f_equal. lia. }
    assert (Hdig : Zpos (digits2_pos (Pos.iter xO pz k)) = 53).
    { apply digits2_pos_unique. rewrite Hmz.
      replace (53 - 1) with 52 by lia. nia. }
    pose proof (binary_round_aux_normal s (Pos.iter xO pz k) (Zneg k)) as H.
    cbv zeta in H. rewrite Hdig in H.
    destruct H as (q & Hq & Herr & ->); [lia .. |].
    rewrite Z.sub_diag, Z.pow_0_r in Herr.
    assert (q = Zpos (Pos.iter xO pz k)) as -> by lia.
    unfold pack.
    destruct (Z.ltb_spec (Zpos (Pos.iter xO pz k)) (2 ^ 53)); [| nia].
    exists (Pos.iter xO pz k), (Zneg k). cbn [Z.to_pos]. rewrite Z.add_0_r.
    repeat split; try solve [lia | exact Hdig].
    rewrite Hmz. do 2 f_equal. lia.
Qed.

Lemma int_part_exact (mt : positive) (et z : Z) :
  et <= 0 -> Zpos mt = z * 2 ^ (- et) -> int_part mt et = z.
Proof.
  intros He Hm. unfold int_part.
  destruct et as [| k | k]; [| lia |].
  - rewrite Z.shiftl_0_r. cbn in Hm. lia.
  - rewrite Z.shiftr_div_pow2 by lia. rewrite Hm.
    change (- Zneg k) with (Zpos k).
    apply Z.div_mul. apply Z.pow_nonzero; lia.
Qed.

Lemma trunc_normalize (s : bool) (z : Z) :
  0 <= z < 2 ^ 53 ->
  trunc (binary_normalize prec emax (signed s z) 0 s) = Some (signed s z).
Proof.
  intros Hz. destruct z as [| pz | pz]; [destruct s; reflexivity | | lia].
  assert (Hn : binary_normalize prec emax (signed s (Zpos pz)) 0 s
               = binary_round prec emax s pz 0) by (destruct s; reflexivity).
  rewrite Hn.
  destruct (binary_round_exact s pz) as (mt & et & -> & _ & Het & Hmt); [lia |].
  cbn [trunc]. rewrite (int_part_exact mt et (Zpos pz)) by (lia || exact Hmt).
  reflexivity.
Qed.

Lemma of_Z_canonical (t : Z) :
  0 < t < 2 ^ 53 ->
  exists (mt : positive) (et : Z),
    of_Z t = S754_finite false mt et /\
    Zpos (digits2_pos mt) = 53 /\
    -52 <= et <= 0 /\
    Zpos mt = t * 2 ^ (- et).
Proof.
  intros Ht. destruct t as [| pt | pt]; try lia.
  apply (binary_round_exact false pt). lia.
Qed.

Lemma nearest_spec (m : positive) (e : Z) :
  e <= 0 -> nearest m e = (2 * Zpos m + 2 ^ (- e)) / (2 * 2 ^ (- e)).
Proof.
  intros He. unfold nearest, int_part, half_or_more.
  destruct e as [| k | k]; [| lia |].
  - rewrite Z.shiftl_0_r. cbn [Z.opp]. rewrite Z.pow_0_r.
    apply (Z.div_unique _ _ _ 1); lia.
  - change (- Zneg k) with (Zpos k).
    rewrite Z.shiftr_div_pow2 by lia.
    assert (Hk : 2 ^ Zpos k = 2 * 2 ^ (Zpos k - 1)).
    { rewrite <- Z.pow_succ_r by lia. f_equal. lia. }
    assert (HP : 0 < 2 ^ (Zpos k - 1)) by (apply Z.pow_pos_nonneg; lia).
    rewrite Hk. set (P := 2 ^ (Zpos k - 1)) in *.
    pose proof (Z.div_mod (Zpos m) P ltac:(lia)) as Hdm.
    pose proof (Z.mod_pos_bound (Zpos m) P HP) as Hr.
    pose proof (Z.div_mod (Zpos m / P) 2 ltac:(lia)) as Hdm2.
    pose proof (Z.mod_pos_bound (Zpos m / P) 2 ltac:(lia)) as Hr2.
    assert (Hq : Zpos m / (2 * P) = Zpos m / P / 2).
    { rewrite Z.div_div by lia. f_equal. lia. }
    rewrite Hq.
    set (a := Zpos m / P) in *. set (r0 := Zpos m mod P) in *.
    set (b := a / 2) in *. set (c := a mod 2) in *.
    destruct (Z.testbit (Zpos m) (Zpos k - 1)) eqn:Ebit.
    + apply Z.testbit_true in Ebit; [| lia]. fold P a c in Ebit.
      apply (Z.div_unique _ _ _ (2 * r0)); nia.
    + apply Z.testbit_false in Ebit; [| lia]. fold P a c in Ebit.
      apply (Z.div_unique _ _ _ (2 * P + 2 * r0)); nia.
Qed.

(** [round] and the conversion to [long long] of a normal value below
    2^53 in magnitude. *)
Lemma round_pack (sx : bool) (q E : Z) :
  2 ^ 52 <= q <= 2 ^ 53 -> E <= 0 ->
  (2 * q + 2 ^ (- E)) / (2 * 2 ^ (- E)) < 2 ^ 53 ->
  to_llong (round (pack sx q E))
    = Some (signed sx ((2 * q + 2 ^ (- E)) / (2 * 2 ^ (- E)))).
Proof.
  intros Hq HE HU.
  set (U := (2 * q + 2 ^ (- E)) / (2 * 2 ^ (- E))) in *.
  assert (HD : 0 < 2 ^ (- E)) by (apply Z.pow_pos_nonneg; lia).
  assert (HU0 : 0 <= U) by (unfold U; apply Z.div_pos; lia).
  assert (Hround : round (pack sx q E) = binary_normalize prec emax (signed sx U) 0 sx).
  { unfold pack. destruct (Z.ltb_spec q (2 ^ 53)) as [Hlt | Hge].
    - destruct q as [| pq | pq]; try lia. cbn [Z.to_pos round].
      fold (nearest pq E). rewrite nearest_spec by exact HE. reflexivity.
    - assert (q = 2 ^ 53) as Eq by lia.
      assert (HE' : E < 0).
      { destruct (Z.eq_dec E 0) as [E0 | E0]; [| lia]. exfalso.
        assert (HU' : U = 2 ^ 53)
          by (unfold U; rewrite E0, Eq; vm_compute; reflexivity).
        lia. }
      cbn [Z.to_pos round]. change (Z.to_pos (2 ^ 52)) with 4503599627370496%positive.
      fold (nearest 4503599627370496 (E + 1)).
      assert (HN : nearest 4503599627370496 (E + 1) = U).
      { rewrite nearest_spec by lia. unfold U. rewrite Eq.
        assert (Hs : 2 ^ (- E) = 2 * 2 ^ (- (E + 1))).
        { rewrite <- Z.pow_succ_r by lia. f_equal. lia. }
        rewrite Hs. set (P := 2 ^ (- (E + 1))).
        assert (0 < P) by (apply Z.pow_pos_nonneg; lia).
        replace (2 * 2 ^ 53 + 2 * P) with ((2 * 4503599627370496 + P) * 2) by lia.
        replace (2 * (2 * P)) with ((2 * P) * 2) by lia.
        symmetry. apply Z.div_mul_cancel_r; lia. }
      rewrite HN. reflexivity. }
  rewrite Hround. unfold to_llong.
  rewrite trunc_normalize by lia.
  assert (Hin : in_llong (signed sx U) = true).
  { unfold in_llong. destruct sx; cbn [signed];
      apply andb_true_iff; split; [apply Z.leb_le | apply Z.ltb_lt | apply Z.leb_le | apply Z.ltb_lt]; lia. }
  rewrite Hin. reflexivity.
Qed.

(** The product of a 53-bit constant [mc * 2^ec] and an integer [t] of at
    most 53 bits, rounded to [double], rounded to the nearest integer and
    converted to [long long].  With [C = 2^(-ec)], the result [U] is within
    [1/2 + G/(2C)] of the exact product, where [G/C] is the weight of the
    last bit of the rounded product. *)
Lemma mul_round_to_llong (mc : positive) (ec t : Z) :
  Zpos (digits2_pos mc) = 53 ->
  -900 <= ec <= 0 ->
  0 < t < 2 ^ 53 ->
  Zpos mc * t < 2 ^ 52 * 2 ^ (- ec) ->
  exists U G : Z,
    to_llong (round (mul (S754_finite false mc ec) (of_Z t))) = Some U /\
    0 <= U <= 2 ^ 52 /\
    0 < G /\ (G = 2 ^ (- ec) \/ 2 * G <= 2 ^ (- ec)) /\
    2 * Z.abs (2 ^ (- ec) * U - Zpos mc * t) <= 2 ^ (- ec) + G /\
    G * (2 ^ 53 - 1) <= 2 * (Zpos mc * t).
Proof.
  intros Hmc Hec Ht Hval.
  destruct (of_Z_canonical t Ht) as (mt & et & -> & Hmt & Het & Hmtv).
  pose proof (digits2_pos_bounds mc) as Bc. rewrite Hmc in Bc.
  pose proof (digits2_pos_bounds mt) as Bt. rewrite Hmt in Bt.
  change (53 - 1) with 52 in Bc, Bt.
  unfold mul, SFmul. cbn [xorb].
  pose proof (digits2_pos_bounds (mc * mt)) as BM.
  set (d := Zpos (digits2_pos (mc * mt))) in *.
  rewrite Pos2Z.inj_mul in BM.
  assert (Hd : 105 <= d <= 106).
  { assert (H104 : 2 ^ 104 <= Zpos mc * Zpos mt) by nia.
    assert (H106 : Zpos mc * Zpos mt < 2 ^ 106) by nia.
    split.
    - destruct (Z_le_gt_dec 105 d) as [L | L]; [exact L | exfalso].
      assert (2 ^ d <= 2 ^ 104) by (apply Z.pow_le_mono_r; lia). lia.
    - destruct (Z_le_gt_dec d 106) as [L | L]; [exact L | exfalso].
      assert (2 ^ 106 <= 2 ^ (d - 1)) by (apply Z.pow_le_mono_r; lia). lia. }
  pose proof (binary_round_aux_normal false (mc * mt) (ec + et)) as HR.
  cbv zeta in HR. fold d in HR.
  destruct HR as (q & Hq & Herr & ->); [lia .. |].
  rewrite Pos2Z.inj_mul in Herr.
  set (C := 2 ^ (- ec)) in *.
  set (g := d - 53 + et).
  assert (Hg : 0 <= g) by (unfold g; lia).
  set (G := 2 ^ g).
  assert (HG : 0 < G) by (apply Z.pow_pos_nonneg; lia).
  assert (HC : 0 < C) by (apply Z.pow_pos_nonneg; lia).
  assert (HT : 0 < 2 ^ (- et)) by (apply Z.pow_pos_nonneg; lia).
  assert (Hn : 2 ^ (d - 53) = G * 2 ^ (- et)).
  { unfold G. rewrite <- Z.pow_add_r by lia. f_equal. unfold g. lia. }
  rewrite Hn, Hmtv in Herr.
  assert (HerrG : 2 * Z.abs (q * G - Zpos mc * t) <= G).
  { replace (q * (G * 2 ^ (- et)) - Zpos mc * (t * 2 ^ (- et)))
      with ((q * G - Zpos mc * t) * 2 ^ (- et)) in Herr by ring.
    rewrite Z.abs_mul, (Z.abs_eq (2 ^ (- et))) in Herr by lia.
    nia. }
  clear Herr Hn.
  assert (HqG : 2 ^ 52 * G <= q * G) by (apply Z.mul_le_mono_nonneg_r; lia).
  set (X := q * G) in *. set (Y := Zpos mc * t) in *.
  assert (HGC : g <= - ec).
  { destruct (Z_le_gt_dec g (- ec)) as [L | L]; [exact L | exfalso].
    assert (2 * C <= G).
    { unfold C, G. rewrite <- Z.pow_succ_r by lia.
      apply Z.pow_le_mono_r; lia. }
    lia. }
  set (E := ec + et + (d - 53)).
  assert (HE : E <= 0) by (unfold E, g in *; lia).
  set (D := 2 ^ (- E)).
  assert (HD : 0 < D) by (apply Z.pow_pos_nonneg; lia).
  assert (HCGD : C = D * G).
  { unfold C, G, D. rewrite <- Z.pow_add_r by lia. f_equal. unfold E, g. lia. }
  assert (HqD : q <= 2 ^ 52 * D).
  { destruct (Z_le_gt_dec q (2 ^ 52 * D)) as [L | L]; [exact L | exfalso].
    assert ((2 ^ 52 * D + 1) * G <= q * G)
      by (apply Z.mul_le_mono_nonneg_r; lia).
    fold X in H.
    replace ((2 ^ 52 * D + 1) * G) with (2 ^ 52 * (D * G) + G) in H by ring.
    rewrite <- HCGD in H. lia. }
  set (U := (2 * q + D) / (2 * D)).
  assert (HU : 2 * D * U <= 2 * q + D < 2 * D * U + 2 * D).
  { unfold U.
    pose proof (Z.div_mod (2 * q + D) (2 * D) ltac:(lia)) as Hdm.
    pose proof (Z.mod_pos_bound (2 * q + D) (2 * D) ltac:(lia)) as Hmb.
    lia. }
  assert (HU52 : 0 <= U <= 2 ^ 52).
  { split.
    - unfold U. apply Z.div_pos; lia.
    - assert (U < 2 ^ 52 + 1); [| lia].
      unfold U. apply Z.div_lt_upper_bound; lia. }
  exists U, G.
  split.
  { replace (ec + et + (d - 53)) with E by reflexivity.
    apply (round_pack false q E); fold D; fold U; lia. }
  split; [exact HU52 |]. split; [exact HG |].
  split.
  { destruct (Z.eq_dec g (- ec)) as [Eg | Ng].
    - left. unfold G. rewrite Eg. reflexivity.
    - right. unfold G. rewrite <- Z.pow_succ_r by lia.
      apply Z.pow_le_mono_r; lia. }
  assert (H1 : (2 * D * U) * G <= (2 * q + D) * G)
    by (apply Z.mul_le_mono_nonneg_r; lia).
  assert (H2 : (2 * q + D) * G <= (2 * D * U + 2 * D) * G)
    by (apply Z.mul_le_mono_nonneg_r; lia).
  replace ((2 * D * U) * G) with (2 * (C * U)) in H1 by (rewrite HCGD; ring).
  replace ((2 * q + D) * G) with (2 * X + C) in H1, H2 by (rewrite HCGD; unfold X; ring).
  replace ((2 * D * U + 2 * D) * G) with (2 * (C * U) + 2 * C) in H2 by (rewrite HCGD; ring).
  split; lia.
Qed.

Lemma mul_zero_r (s : bool) (m : positive) (e : Z) :
  to_llong (round (mul (S754_finite s m e) (of_Z 0))) = Some 0.
Proof. destruct s; reflexivity. Qed.

Lemma half_or_more_exact (mt : positive) (et z : Z) :
  et <= 0 -> Zpos mt = z * 2 ^ (- et) -> half_or_more mt et = false.
Proof.
  intros He Hm. unfold half_or_more. destruct et as [| k | k]; try reflexivity.
  rewrite Hm. change (- Zneg k) with (Zpos k).
  apply Z.mul_pow2_bits_low. lia.
Qed.

(** [round] of an integer of at most 53 bits, converted back, is the
    integer. *)
Lemma round_to_llong_exact (q : Z) :
  - 2 ^ 53 < q < 2 ^ 53 -> round_to_llong q = Some q.
Proof.
  intros Hq. unfold round_to_llong.
  assert (H : forall (s : bool) (pz : positive),
            Zpos pz < 2 ^ 53 ->
            to_llong (round (binary_round prec emax s pz 0))
              = Some (signed s (Zpos pz))).
  { intros s pz Hpz.
    destruct (binary_round_exact s pz Hpz) as (mt & et & -> & _ & Het & Hmt).
    cbn [round].
    rewrite (int_part_exact mt et (Zpos pz)), (half_or_more_exact mt et (Zpos pz))
      by (lia || exact Hmt).
    rewrite Z.add_0_r. unfold to_llong.
    rewrite trunc_normalize by lia.
    assert (Hin : in_llong (signed s (Zpos pz)) = true).
    { unfold in_llong. destruct s; cbn [signed];
        apply andb_true_iff; split;
        [apply Z.leb_le | apply Z.ltb_lt | apply Z.leb_le | apply Z.ltb_lt]; lia. }
    rewrite Hin. reflexivity. }
  destruct q as [| pq | pq]; [reflexivity | |].
  - apply (H false pq). lia.
  - apply (H true pq). lia.
Qed.

(** ** Rounding of integers above 2^53 *)

Lemma round_nearest_even_rne M n mrs :
  0 <= n -> shr_inv M n mrs ->
  round_nearest_even (shr_m mrs) (loc_of_shr_record mrs) = rne M n.
Proof.
  intros Hn. destruct mrs as [m r s]. unfold shr_inv. cbn [shr_m shr_r shr_s].
  intros (Hm & HR & Hr & Hs).
  assert (Hpow : 0 < 2 ^ n) by (apply Z.pow_pos_nonneg; lia).
  unfold rne. cbv zeta.
  set (P := 2 ^ n) in *.
  assert (Hdiv : M / P = m) by (symmetry; apply (Z.div_unique _ _ _ (M - m * P)); lia).
  assert (Hmod : M mod P = M - m * P)
    by (symmetry; apply (Z.mod_unique _ _ m); lia).
  rewrite Hdiv, Hmod.
  destruct r, s; cbn [loc_of_shr_record round_nearest_even]; iff_bool.
  - destruct (Z.ltb_spec (2 * (M - m * P)) P); [lia |].
    destruct (Z.ltb_spec P (2 * (M - m * P))); [reflexivity | lia].
  - assert (E : 2 * (M - m * P) = P).
    { destruct (Z.eq_dec (2 * (M - m * P) - P) 0) as [E | E]; [lia |].
      specialize (Hs E). discriminate Hs. }
    destruct (Z.ltb_spec (2 * (M - m * P)) P); [lia |].
    destruct (Z.ltb_spec P (2 * (M - m * P))); [lia | reflexivity].
  - assert (L : 2 * (M - m * P) < P).
    { destruct (Z_le_gt_dec P (2 * (M - m * P))) as [L | L]; [| lia].
      specialize (Hr L). discriminate Hr. }
    destruct (Z.ltb_spec (2 * (M - m * P)) P); [reflexivity | lia].
  - assert (E : M - m * P = 0).
    { destruct (Z.eq_dec (2 * (M - m * P) - 0) 0) as [E | E]; [lia |].
      specialize (Hs E). discriminate Hs. }
    destruct (Z.ltb_spec (2 * (M - m * P)) P); [reflexivity | lia].
Qed.

(** [rne M n] is within half a unit of [M / 2^n]. *)
Lemma rne_error (M n : Z) :
  0 <= n -> 2 * Z.abs (rne M n * 2 ^ n - M) <= 2 ^ n.
Proof.
  intros Hn. unfold rne. cbv zeta.
  assert (Hpow : 0 < 2 ^ n) by (apply Z.pow_pos_nonneg; lia).
  set (P := 2 ^ n) in *.
  pose proof (Z.div_mod M P ltac:(lia)) as Hdm.
  pose proof (Z.mod_pos_bound M P Hpow) as Hr.
  set (m := M / P) in *. set (r := M mod P) in *.
  destruct (Z.ltb_spec (2 * r) P); [lia |].
  destruct (Z.ltb_spec P (2 * r)); [lia |].
  destruct (Z.even m); lia.
Qed.

(** A multiple of [2^n] is its own rounding. *)
Lemma rne_exact (Q n : Z) : 0 <= n -> rne (Q * 2 ^ n) n = Q.
Proof.
  intros Hn. unfold rne. cbv zeta.
  assert (Hpow : 0 < 2 ^ n) by (apply Z.pow_pos_nonneg; lia).
  rewrite Z.div_mul, Z.mod_mul by lia.
  destruct (Z.ltb_spec (2 * 0) (2 ^ n)); [reflexivity | lia].
Qed.

(** Rounding is invariant under a common scaling by a power of two. *)
Lemma rne_scale (z n a : Z) :
  0 <= n -> 0 <= a -> rne (z * 2 ^ a) (n + a) = rne z n.
Proof.
  intros Hn Ha. unfold rne. cbv zeta.
  assert (Hp : 0 < 2 ^ n) by (apply Z.pow_pos_nonneg; lia).
  assert (Hq : 0 < 2 ^ a) by (apply Z.pow_pos_nonneg; lia).
  rewrite Z.pow_add_r by lia.
  rewrite Z.div_mul_cancel_r by lia.
  rewrite Z.mul_mod_distr_r by lia.
  set (P := 2 ^ n) in *. set (A := 2 ^ a) in *.
  set (r := z mod P). set (m := z / P).
  assert (H1 : (2 * (r * A) <? P * A) = (2 * r <? P)).
  { destruct (Z.ltb_spec (2 * (r * A)) (P * A)), (Z.ltb_spec (2 * r) P);
      try reflexivity; exfalso; nia. }
  assert (H2 : (P * A <? 2 * (r * A)) = (P <? 2 * r)).
  { destruct (Z.ltb_spec (P * A) (2 * (r * A))), (Z.ltb_spec P (2 * r));
      try reflexivity; exfalso; nia. }
  rewrite H1, H2. reflexivity.
Qed.

(** [rne] is monotone in its first argument. *)
Lemma rne_mono (a b n : Z) :
  0 <= n -> a <= b -> rne a n <= rne b n.
Proof.
  intros Hn Hab.
  assert (Hpow : 0 < 2 ^ n) by (apply Z.pow_pos_nonneg; lia).
  destruct (Z.eq_dec a b) as [-> | Hne]; [lia |].
  pose proof (rne_error a n Hn) as Ea. pose proof (rne_error b n Hn) as Eb.
  set (P := 2 ^ n) in *.
  destruct (Z_le_gt_dec (rne a n) (rne b n)) as [L | G]; [exact L | exfalso].
  assert ((rne b n + 1) * P <= rne a n * P) by (apply Z.mul_le_mono_nonneg_r; lia).
  lia.
Qed.

Lemma rne_bounds (z k : Z) :
  0 <= k -> 2 ^ (52 + k) <= z < 2 ^ (53 + k) ->
  2 ^ 52 <= rne z k <= 2 ^ 53.
Proof.
  intros Hk Hz.
  pose proof (rne_exact (2 ^ 52) k Hk) as H52.
  pose proof (rne_exact (2 ^ 53) k Hk) as H53.
  rewrite <- Z.pow_add_r in H52, H53 by lia.
  pose proof (rne_mono (2 ^ (52 + k)) z k Hk ltac:(lia)).
  pose proof (rne_mono z (2 ^ (53 + k)) k Hk ltac:(lia)).
  lia.
Qed.

Lemma round53_exact (z : Z) : 0 <= z < 2 ^ 53 -> round53 z = z.
Proof.
  intros Hz. unfold round53. cbv zeta.
  destruct (Z.leb_spec (Z.log2 z - 52) 0) as [L | L]; [reflexivity | exfalso].
  destruct (Z.eq_dec z 0) as [-> | Hne]; [cbn in L; lia |].
  assert (Z.log2 z < 53) by (apply Z.log2_lt_pow2; lia). lia.
Qed.

(** Above 2^53 the rounding is to the grid of step [2^k], where
    [52 + k] is the position of the leading bit. *)
Lemma round53_grid (z : Z) :
  2 ^ 53 <= z ->
  let k := Z.log2 z - 52 in
  1 <= k /\
  2 ^ (52 + k) <= z < 2 ^ (53 + k) /\
  round53 z = rne z k * 2 ^ k /\
  2 ^ 52 <= rne z k <= 2 ^ 53 /\
  2 * Z.abs (round53 z - z) <= 2 ^ k.
Proof.
  intros Hz k.
  assert (Hlog : 53 <= Z.log2 z) by (apply Z.log2_le_pow2; lia).
  assert (Hk : 1 <= k) by (unfold k; lia).
  pose proof (Z.log2_spec z ltac:(lia)) as Hspec.
  replace (Z.succ (Z.log2 z)) with (53 + k) in Hspec by (unfold k; lia).
  replace (Z.log2 z) with (52 + k) in Hspec at 1 by (unfold k; lia).
  assert (Hr : round53 z = rne z k * 2 ^ k).
  { unfold round53. cbv zeta. fold k.
    destruct (Z.leb_spec k 0); [lia | reflexivity]. }
  split; [exact Hk |]. split; [exact Hspec |]. split; [exact Hr |].
  split; [apply rne_bounds; lia |].
  rewrite Hr. apply rne_error. lia.
Qed.

Lemma round53_mono (a b : Z) : 0 <= a <= b -> round53 a <= round53 b.
Proof.
  intros Hab.
  destruct (Z_lt_le_dec b (2 ^ 53)) as [Hb | Hb].
  - rewrite !round53_exact by lia. lia.
  - destruct (round53_grid b Hb) as (Hkb & Hsb & Hrb & Hqb & _).
    set (kb := Z.log2 b - 52) in *.
    assert (Hpb : 0 < 2 ^ kb) by (apply Z.pow_pos_nonneg; lia).
    assert (Hlow : 2 ^ (52 + kb) <= round53 b).
    { rewrite Hrb, Z.pow_add_r by lia. apply Z.mul_le_mono_nonneg_r; lia. }
    destruct (Z_lt_le_dec a (2 ^ 53)) as [Ha | Ha].
    + rewrite (round53_exact a) by lia.
      assert (2 ^ 53 <= 2 ^ (52 + kb)) by (apply Z.pow_le_mono_r; lia). lia.
    + destruct (round53_grid a Ha) as (Hka & Hsa & Hra & Hqa & _).
      set (ka := Z.log2 a - 52) in *.
      assert (Hkk : ka <= kb) by (unfold ka, kb; pose proof (Z.log2_le_mono a b); lia).
      destruct (Z.eq_dec ka kb) as [E | N].
      * rewrite Hra, Hrb, E. apply Z.mul_le_mono_nonneg_r; [lia |].
        apply rne_mono; lia.
      * assert (Hpa : 0 < 2 ^ ka) by (apply Z.pow_pos_nonneg; lia).
        assert (Hup : round53 a <= 2 ^ (53 + ka)).
        { rewrite Hra, Z.pow_add_r by lia. apply Z.mul_le_mono_nonneg_r; lia. }
        assert (2 ^ (53 + ka) <= 2 ^ (52 + kb)) by (apply Z.pow_le_mono_r; lia).
        lia.
Qed.

(** Up to 2^62 the rounding moves an integer by at most 512 and stays
    within the range. *)
Lemma round53_near (z : Z) :
  0 <= z <= 2 ^ 62 ->
  0 <= round53 z <= 2 ^ 62 /\ Z.abs (round53 z - z) <= 512.
Proof.
  intros Hz.
  assert (H0 : round53 0 = 0) by reflexivity.
  assert (H62 : round53 (2 ^ 62) = 2 ^ 62) by (vm_compute; reflexivity).
  pose proof (round53_mono 0 z ltac:(lia)) as Hlo.
  pose proof (round53_mono z (2 ^ 62) ltac:(lia)) as Hhi.
  split; [lia |].
  destruct (Z_lt_le_dec z (2 ^ 53)) as [Hs | Hl].
  - rewrite round53_exact by lia. lia.
  - destruct (round53_grid z Hl) as (Hk & Hs & _ & _ & Herr).
    set (k := Z.log2 z - 52) in *.
    assert (Hk10 : k <= 10).
    { assert (Hlg : Z.log2 z <= Z.log2 (2 ^ 62)) by (apply Z.log2_le_mono; lia).
      rewrite Z.log2_pow2 in Hlg by lia. unfold k. lia. }
    assert (Hp : 2 ^ k <= 2 ^ 10) by (apply Z.pow_le_mono_r; lia).
    lia.
Qed.

Lemma digits2_pos_log2 (p : positive) :
  Zpos (digits2_pos p) = Z.log2 (Zpos p) + 1.
Proof.
  pose proof (digits2_pos_bounds p) as [Hlo Hhi].
  assert (H : Z.log2 (Zpos p) = Zpos (digits2_pos p) - 1).
  { apply Z.log2_unique; [lia |].
    replace (Z.succ (Zpos (digits2_pos p) - 1)) with (Zpos (digits2_pos p)) by lia.
    lia. }
  lia.
Qed.

(** Rounding a significand of 53 bits or more, in the range of normal
    numbers: the result is [rne], to the nearest multiple of [2^(d - 53)],
    ties to even. *)
Lemma binary_round_aux_rne (sx : bool) (pm : positive) (e : Z) :
  let d := Zpos (digits2_pos pm) in
  53 <= d -> -1074 <= d + e - 53 -> d + e - 53 + 1 <= 971 ->
  2 ^ 52 <= rne (Zpos pm) (d - 53) <= 2 ^ 53 /\
  binary_round_aux prec emax sx (Zpos pm) e loc_Exact
    = pack sx (rne (Zpos pm) (d - 53)) (e + (d - 53)).
Proof.
  intros d Hd Hnorm Hmax. unfold binary_round_aux.
  destruct (shr_fexp_normal pm e Hd Hnorm) as (mrs & -> & Hinv).
  fold d in Hinv |- *.
  assert (Hn : 0 <= d - 53) by lia.
  destruct (round_nearest_even_inv _ _ _ Hn Hinv) as [Hq Herr].
  rewrite (round_nearest_even_rne _ _ _ Hn Hinv) in Hq, Herr |- *.
  set (q := rne (Zpos pm) (d - 53)) in *.
  pose proof (digits2_pos_bounds pm) as [Hlo Hhi]. fold d in Hlo, Hhi.
  destruct Hinv as (Hm & HR & _ & _).
  assert (Hpow : 0 < 2 ^ (d - 53)) by (apply Z.pow_pos_nonneg; lia).
  assert (Hsplit : 2 ^ d = 2 ^ 53 * 2 ^ (d - 53)).
  { rewrite <- Z.pow_add_r by lia. f_equal. lia. }
  assert (Hsplit' : 2 ^ (d - 1) = 2 ^ 52 * 2 ^ (d - 53)).
  { rewrite <- Z.pow_add_r by lia. f_equal. lia. }
  assert (Hm1 : 2 ^ 52 <= shr_m mrs < 2 ^ 53) by nia.
  split; [lia |].
  unfold pack.
  destruct (Z.ltb_spec q (2 ^ 53)) as [Hlt | Hge].
  - destruct q as [| pq | pq] eqn:Eq; try lia.
    unfold shr_fexp. cbn [Zdigits2 shr_record_of_loc].
    rewrite (digits2_pos_unique pq 53) by (cbn; lia).
    rewrite fexp_normal by lia.
    replace (53 + (e + (d - 53)) - 53 - (e + (d - 53))) with 0 by lia.
    cbn [shr shr_m Z.to_pos].
    destruct (Z.leb_spec (e + (d - 53)) (emax - prec)) as [L | L];
      [reflexivity | unfold emax, prec in L; lia].
  - assert (Eq : q = 2 ^ 53) by lia.
    rewrite Eq. unfold shr_fexp.
    change (Zdigits2 (2 ^ 53)) with 54. cbn [shr_record_of_loc].
    rewrite fexp_normal by lia.
    replace (54 + (e + (d - 53)) - 53 - (e + (d - 53))) with 1 by lia.
    cbn [shr SpecFloat.iter_pos]. cbn.
    destruct (Z.leb_spec (e + (d - 53) + 1) (emax - prec)) as [L | L];
      [reflexivity | unfold emax, prec in L; lia].
Qed.

(** A value [q * 2^E] in normal form has a significand of 53 bits. *)
Lemma pack_finite (sx : bool) (q E : Z) :
  2 ^ 52 <= q <= 2 ^ 53 ->
  exists (m : positive) (e : Z),
    pack sx q E = S754_finite sx m e /\
    Zpos (digits2_pos m) = 53 /\
    E <= e <= E + 1 /\
    Zpos m * 2 ^ (e - E) = q.
Proof.
  intros Hq. unfold pack.
  destruct (Z.ltb_spec q (2 ^ 53)) as [Hlt | Hge].
  - exists (Z.to_pos q), E. split; [reflexivity |].
    destruct q as [| pq | pq]; try lia. cbn [Z.to_pos].
    split; [apply digits2_pos_unique; cbn; lia |].
    split; [lia |]. rewrite Z.sub_diag. lia.
  - exists (Z.to_pos (2 ^ 52)), (E + 1). split; [reflexivity |].
    split; [reflexivity |]. split; [lia |].
    replace (E + 1 - E) with 1 by lia. assert (q = 2 ^ 53) as -> by lia.
    reflexivity.
Qed.

(** The conversion of an integer of more than 53 bits. *)
Lemma of_Z_large (t : Z) :
  2 ^ 53 <= t < 2 ^ 1000 ->
  let k := Z.log2 t - 52 in
  of_Z t = pack false (rne t k) k.
Proof.
  intros Ht k. destruct t as [| pt | pt]; try lia.
  unfold of_Z, binary_normalize, binary_round.
  pose proof (digits2_pos_log2 pt) as Hd.
  assert (Hlog : 53 <= Z.log2 (Zpos pt)) by (apply Z.log2_le_pow2; lia).
  assert (Hlog' : Z.log2 (Zpos pt) < 1000) by (apply Z.log2_lt_pow2; lia).
  rewrite Z.add_0_r, fexp_normal by lia.
  unfold shl_align.
  destruct (Zpos (digits2_pos pt) - 53 - 0) as [| p | p] eqn:Ed; try lia.
  destruct (binary_round_aux_rne false pt 0) as [_ ->]; cbv zeta; try lia.
  rewrite Z.add_0_l.
  replace (Zpos (digits2_pos pt) - 53) with k by (unfold k; lia).
  reflexivity.
Qed.

(** The product of two finite values with significands of 53 bits, in the
    range of normal numbers. *)
Lemma mul_rne (mc mt : positive) (ec et : Z) :
  Zpos (digits2_pos mc) = 53 ->
  Zpos (digits2_pos mt) = 53 ->
  -1000 <= ec + et <= 800 ->
  let d := Zpos (digits2_pos (mc * mt)) in
  105 <= d <= 106 /\
  2 ^ 52 <= rne (Zpos mc * Zpos mt) (d - 53) <= 2 ^ 53 /\
  mul (S754_finite false mc ec) (S754_finite false mt et)
    = pack false (rne (Zpos mc * Zpos mt) (d - 53)) (ec + et + (d - 53)).
Proof.
  intros Hmc Hmt He d.
  pose proof (digits2_pos_bounds mc) as Bc. rewrite Hmc in Bc.
  pose proof (digits2_pos_bounds mt) as Bt. rewrite Hmt in Bt.
  change (53 - 1) with 52 in Bc, Bt.
  pose proof (digits2_pos_bounds (mc * mt)) as BM. fold d in BM.
  rewrite Pos2Z.inj_mul in BM.
  assert (Hd : 105 <= d <= 106).
  { assert (H104 : 2 ^ 104 <= Zpos mc * Zpos mt) by nia.
    assert (H106 : Zpos mc * Zpos mt < 2 ^ 106) by nia.
    split.
    - destruct (Z_le_gt_dec 105 d) as [L | L]; [exact L | exfalso].
      assert (2 ^ d <= 2 ^ 104) by (apply Z.pow_le_mono_r; lia). lia.
    - destruct (Z_le_gt_dec d 106) as [L | L]; [exact L | exfalso].
      assert (2 ^ 106 <= 2 ^ (d - 1)) by (apply Z.pow_le_mono_r; lia). lia. }
  split; [exact Hd |].
  pose proof (binary_round_aux_rne false (mc * mt) (ec + et)) as HR.
  cbv zeta in HR. fold d in HR. rewrite Pos2Z.inj_mul in HR.
  destruct HR as [Hq HR]; [lia .. |].
  split; [exact Hq |].
  unfold mul, SFmul. cbn [xorb]. rewrite Pos2Z.inj_mul. exact HR.
Qed.

(** An integer [m * 2^e] with [m] of 53 bits is converted exactly. *)
Lemma normalize_shifted (s : bool) (m : positive) (e : Z) :
  Zpos (digits2_pos m) = 53 -> 0 <= e <= 900 ->
  binary_normalize prec emax (signed s (Zpos m * 2 ^ e)) 0 s = S754_finite s m e.
Proof.
  intros Hm He.
  pose proof (digits2_pos_bounds m) as Bm. rewrite Hm in Bm.
  change (53 - 1) with 52 in Bm.
  assert (Hp : 0 < 2 ^ e) by (apply Z.pow_pos_nonneg; lia).
  destruct (Zpos m * 2 ^ e) as [| pz | pz] eqn:Ez; try lia.
  assert (Hd : Zpos (digits2_pos pz) = 53 + e).
  { apply digits2_pos_unique. rewrite <- Ez.
    replace (53 + e - 1) with (52 + e) by lia.
    rewrite !Z.pow_add_r by lia. nia. }
  assert (Hn : binary_normalize prec emax (signed s (Zpos pz)) 0 s
               = binary_round prec emax s pz 0) by (destruct s; reflexivity).
  rewrite Hn. unfold binary_round. rewrite Z.add_0_r, Hd, fexp_normal by lia.
  unfold shl_align.
  replace (53 + e - 53 - 0) with e by lia.
  assert (Hal : match e with
                | Zneg d => (Pos.iter xO pz d, 53 + e - 53)
                | _ => (pz, 0)
                end = (pz, 0)) by (destruct e; try reflexivity; lia).
  rewrite Hal.
  destruct (binary_round_aux_rne s pz 0) as [_ ->]; cbv zeta; rewrite ?Hd; try lia.
  replace (53 + e - 53) with e by lia.
  rewrite <- Ez, rne_exact, Z.add_0_l by lia.
  unfold pack. destruct (Z.ltb_spec (Zpos m) (2 ^ 53)); [reflexivity | lia].
Qed.

Lemma round_finite_integral (s : bool) (m : positive) (e : Z) :
  Zpos (digits2_pos m) = 53 -> 0 <= e <= 900 ->
  Zpos m * 2 ^ e < 2 ^ 63 ->
  to_llong (round (S754_finite s m e)) = Some (signed s (Zpos m * 2 ^ e)).
Proof.
  intros Hm He Hv.
  assert (Hint : int_part m e = Zpos m * 2 ^ e).
  { unfold int_part. destruct e as [| p | p]; try lia;
      rewrite Z.shiftl_mul_pow2 by lia; reflexivity. }
  assert (Hhalf : half_or_more m e = false)
    by (unfold half_or_more; destruct e; try reflexivity; lia).
  cbn [round]. rewrite Hint, Hhalf, Z.add_0_r.
  rewrite normalize_shifted by assumption.
  unfold to_llong. cbn [trunc]. rewrite Hint.
  assert (Hin : in_llong (signed s (Zpos m * 2 ^ e)) = true).
  { assert (0 < Zpos m * 2 ^ e)
      by (apply Z.mul_pos_pos; [lia | apply Z.pow_pos_nonneg; lia]).
    unfold in_llong. destruct s; cbn [signed];
      apply andb_true_iff; split;
      [apply Z.leb_le | apply Z.ltb_lt | apply Z.leb_le | apply Z.ltb_lt]; lia. }
  rewrite Hin. reflexivity.
Qed.

(** [round] and the conversion to [long long] of a normal value that is an
    integer. *)
Lemma round_pack_large (sx : bool) (q E : Z) :
  2 ^ 52 <= q <= 2 ^ 53 -> 0 <= E <= 800 ->
  q * 2 ^ E < 2 ^ 63 ->
  to_llong (round (pack sx q E)) = Some (signed sx (q * 2 ^ E)).
Proof.
  intros Hq HE Hv.
  destruct (pack_finite sx q E Hq) as (m & e & -> & Hm & He & Hval).
  assert (Hpe : q * 2 ^ E = Zpos m * 2 ^ e).
  { rewrite <- Hval, <- Z.mul_assoc, <- Z.pow_add_r by lia.
    do 2 f_equal. lia. }
  rewrite Hpe in Hv |- *.
  apply round_finite_integral; [exact Hm | lia | exact Hv].
Qed.

(** The product of a constant that is an integer [r] and an integer [t],
    rounded to [double], rounded to an integer and converted to
    [long long]: the [double] nearest to [r * t], as long as [t] itself
    is converted exactly or [r] is 1. *)
Lemma mul_int_round53 (mc : positive) (ec r t : Z) :
  Zpos (digits2_pos mc) = 53 ->
  -100 <= ec <= 0 ->
  Zpos mc = r * 2 ^ (- ec) ->
  0 < t ->
  t < 2 ^ 53 \/ r = 1 ->
  r * t <= 2 ^ 62 ->
  to_llong (round (mul (S754_finite false mc ec) (of_Z t))) = Some (round53 (r * t)).
Proof.
  intros Hmc Hec Hr Ht Hcase Hv.
  assert (HC : 0 < 2 ^ (- ec)) by (apply Z.pow_pos_nonneg; lia).
  assert (Hr1 : 1 <= r) by nia.
  pose proof (digits2_pos_bounds mc) as Bc. rewrite Hmc in Bc.
  change (53 - 1) with 52 in Bc.
  set (v := r * t) in *.
  assert (HS : 0 < v) by (unfold v; nia).
  destruct (round53_near v ltac:(lia)) as [[_ H62] _].
  destruct (Z_lt_le_dec t (2 ^ 53)) as [Hsmall | Hlarge].
  - clear Hcase.
    destruct (of_Z_canonical t ltac:(lia)) as (mt & et & -> & Hmt & Het & Hmtv).
    destruct (mul_rne mc mt ec et Hmc Hmt ltac:(lia)) as (Hd & Hq & ->).
    set (d := Zpos (digits2_pos (mc * mt))) in *.
    set (A := - ec - et).
    assert (HA : 0 <= A) by (unfold A; lia).
    assert (HM : Zpos mc * Zpos mt = v * 2 ^ A).
    { rewrite Hr, Hmtv. unfold v, A.
      replace (- ec - et) with (- ec + - et) by lia.
      rewrite Z.pow_add_r by lia. ring. }
    assert (Hdl : d = Z.log2 v + A + 1).
    { unfold d. rewrite digits2_pos_log2, Pos2Z.inj_mul, HM.
      rewrite Z.log2_mul_pow2 by lia. lia. }
    set (k := Z.log2 v - 52).
    replace (d - 53) with (k + A) in * by (unfold k; lia).
    replace (ec + et + (k + A)) with k by (unfold A; lia).
    rewrite HM in Hq |- *.
    destruct (Z_le_gt_dec k 0) as [Hk | Hk].
    + assert (HS53 : v < 2 ^ 53).
      { apply Z.log2_lt_pow2; [lia | unfold k in Hk; lia]. }
      rewrite (round53_exact v) by lia.
      assert (Hsplit : v * 2 ^ A = (v * 2 ^ (- k)) * 2 ^ (k + A)).
      { rewrite <- Z.mul_assoc, <- Z.pow_add_r by lia. do 2 f_equal. lia. }
      rewrite Hsplit, rne_exact in Hq |- * by lia.
      set (D := 2 ^ (- k)) in *.
      assert (HD : 0 < D) by (apply Z.pow_pos_nonneg; lia).
      assert (HU : (2 * (v * D) + D) / (2 * D) = v).
      { symmetry. apply (Z.div_unique _ _ _ D); lia. }
      rewrite (round_pack false (v * D) k); fold D; rewrite ?HU; try lia.
      reflexivity.
    + assert (HS53 : 2 ^ 53 <= v).
      { destruct (Z_lt_le_dec v (2 ^ 53)) as [L | L]; [exfalso | exact L].
        assert (Z.log2 v < 53) by (apply Z.log2_lt_pow2; lia).
        unfold k in Hk. lia. }
      destruct (round53_grid v HS53) as (_ & _ & HR & _ & _). fold k in HR.
      rewrite rne_scale in Hq |- * by lia.
      rewrite round_pack_large; [rewrite HR; reflexivity | lia | | lia].
      assert (Z.log2 v <= Z.log2 (2 ^ 62)) by (apply Z.log2_le_mono; lia).
      rewrite Z.log2_pow2 in * by lia. unfold k. lia.
  - destruct Hcase as [Hc | Hc]; [lia |]. subst r.
    rewrite Z.mul_1_l in Hr. unfold v in *. rewrite Z.mul_1_l in *. clear v.
    assert (Hec' : ec = -52).
    { destruct (Z_lt_le_dec (- ec) 52) as [L | L].
      - assert (2 ^ (- ec) <= 2 ^ 51) by (apply Z.pow_le_mono_r; lia). lia.
      - destruct (Z_lt_le_dec 52 (- ec)) as [G | G]; [| lia].
        assert (2 ^ 53 <= 2 ^ (- ec)) by (apply Z.pow_le_mono_r; lia). lia. }
    subst ec. change (2 ^ (- -52)) with (2 ^ 52) in *.
    rewrite of_Z_large by lia.
    destruct (round53_grid t Hlarge) as (Hk & Hsp & HR & Hq0 & _).
    set (k := Z.log2 t - 52) in *.
    assert (Hk10 : k <= 10).
    { assert (Z.log2 t <= Z.log2 (2 ^ 62)) by (apply Z.log2_le_mono; lia).
      rewrite Z.log2_pow2 in * by lia. unfold k. lia. }
    destruct (pack_finite false (rne t k) k Hq0) as (m & e & -> & Hm & He & Hval).
    pose proof (digits2_pos_bounds m) as Bm. rewrite Hm in Bm.
    change (53 - 1) with 52 in Bm.
    destruct (mul_rne mc m (-52) e Hmc Hm ltac:(lia)) as (_ & _ & ->).
    assert (Hd : Zpos (digits2_pos (mc * m)) = 105).
    { apply digits2_pos_unique. rewrite Pos2Z.inj_mul, Hr. lia. }
    rewrite Hd, Hr. change (105 - 53) with 52.
    rewrite (Z.mul_comm (2 ^ 52)), rne_exact by lia.
    replace (-52 + e + 52) with e by lia.
    unfold pack. destruct (Z.ltb_spec (Zpos m) (2 ^ 53)) as [_ | F]; [| lia].
    rewrite Pos2Z.id.
    assert (Hpe : Zpos m * 2 ^ e = round53 t).
    { rewrite HR, <- Hval, <- Z.mul_assoc, <- Z.pow_add_r by lia.
      do 2 f_equal. lia. }
    rewrite round_finite_integral; [rewrite Hpe; reflexivity | exact Hm | lia |].
    rewrite Hpe. lia.
Qed.

(** The conversion of a positive integer up to 2^62: a significand of 53
    bits whose value is the [double] nearest to the integer. *)
Lemma of_Z_significand (t : Z) :
  0 < t <= 2 ^ 62 ->
  exists (mt : positive) (et : Z),
    of_Z t = S754_finite false mt et /\
    Zpos (digits2_pos mt) = 53 /\
    -52 <= et <= 11 /\
    Zpos mt * 2 ^ (et + 52) = round53 t * 2 ^ 52.
Proof.
  intros Ht.
  destruct (Z_lt_le_dec t (2 ^ 53)) as [Hsmall | Hlarge].
  - destruct (of_Z_canonical t ltac:(lia)) as (mt & et & Hof & Hmt & Het & Hmtv).
    exists mt, et. repeat split; try assumption; try lia.
    rewrite round53_exact, Hmtv, <- Z.mul_assoc, <- Z.pow_add_r by lia.
    do 2 f_equal. lia.
  - destruct (round53_grid t Hlarge) as (Hk & Hsp & HR & Hq0 & _).
    set (k := Z.log2 t - 52) in *.
    assert (Hk10 : k <= 10).
    { assert (Z.log2 t <= Z.log2 (2 ^ 62)) by (apply Z.log2_le_mono; lia).
      rewrite Z.log2_pow2 in * by lia. unfold k. lia. }
    destruct (pack_finite false (rne t k) k Hq0) as (m & e & Hp & Hm & He & Hval).
    exists m, e. rewrite of_Z_large by lia. fold k.
    repeat split; try assumption; try lia.
    rewrite HR, <- Hval, <- !Z.mul_assoc, <- !Z.pow_add_r by lia.
    do 2 f_equal. lia.
Qed.

(** The product of a constant of at most 1 and an integer up to 2^62,
    rounded to [double], rounded to an integer and converted to
    [long long]: the conversion is defined and stays within 2^62. *)
Lemma mul_le1_returns (mc : positive) (ec t : Z) :
  Zpos (digits2_pos mc) = 53 ->
  -100 <= ec <= -52 ->
  Zpos mc <= 2 ^ (- ec) ->
  0 < t <= 2 ^ 62 ->
  exists V : Z,
    to_llong (round (mul (S754_finite false mc ec) (of_Z t))) = Some V /\
    0 <= V <= 2 ^ 62.
Proof.
  intros Hmc Hec Hle Ht.
  destruct (of_Z_significand t Ht) as (mt & et & -> & Hmt & Het & Hval).
  destruct (round53_near t ltac:(lia)) as [[_ Hv62] _].
  set (v := round53 t) in *.
  destruct (mul_rne mc mt ec et Hmc Hmt ltac:(lia)) as (Hd & Hq & ->).
  set (d := Zpos (digits2_pos (mc * mt))) in *.
  set (n := d - 53) in *.
  assert (Hn : 52 <= n <= 53) by (unfold n; lia).
  pose proof (rne_error (Zpos mc * Zpos mt) n ltac:(lia)) as Herr.
  set (q := rne (Zpos mc * Zpos mt) n) in *.
  set (E := ec + et + n).
  destruct (Z_lt_le_dec E 0) as [Hneg | Hpos].
  - set (D := 2 ^ (- E)).
    assert (HD : 2 <= D).
    { unfold D. change 2 with (2 ^ 1) at 1. apply Z.pow_le_mono_r; lia. }
    assert (HU : (2 * q + D) / (2 * D) < 2 ^ 53)
      by (apply Z.div_lt_upper_bound; lia).
    exists ((2 * q + D) / (2 * D)).
    split; [apply round_pack; fold D; lia |].
    split; [apply Z.div_pos; lia | lia].
  - set (A := n - E).
    assert (HA : 41 <= A) by (unfold A, E; lia).
    assert (HAE : n = A + E) by (unfold A; lia).
    set (PA := 2 ^ A). set (PE := 2 ^ E).
    assert (HPA : 0 < PA) by (apply Z.pow_pos_nonneg; lia).
    assert (HPE : 0 < PE) by (apply Z.pow_pos_nonneg; lia).
    assert (Hn2 : 2 ^ n = PA * PE)
      by (unfold PA, PE; rewrite <- Z.pow_add_r by lia; f_equal; lia).
    assert (Hmt62 : Zpos mt * 2 ^ (- ec) <= 2 ^ 62 * PA).
    { assert (H1 : Zpos mt * 2 ^ (- ec) * 2 ^ 52 = v * 2 ^ 52 * PA).
      { rewrite <- Hval. unfold PA.
        rewrite <- !Z.mul_assoc, <- !Z.pow_add_r by lia.
        do 2 f_equal. unfold A, E. lia. }
      assert (H2 : v * 2 ^ 52 * PA <= 2 ^ 62 * 2 ^ 52 * PA).
      { apply Z.mul_le_mono_nonneg_r; [lia |].
        apply Z.mul_le_mono_nonneg_r; lia. }
      lia. }
    assert (HM : Zpos mc * Zpos mt <= 2 ^ 62 * PA).
    { assert (Zpos mc * Zpos mt <= 2 ^ (- ec) * Zpos mt)
        by (apply Z.mul_le_mono_nonneg_r; lia).
      lia. }
    set (V := q * PE).
    assert (HVA : q * 2 ^ n = V * PA) by (rewrite Hn2; unfold V; ring).
    rewrite HVA, Hn2 in Herr.
    assert (HV1 : 2 * V <= 2 * 2 ^ 62 + PE).
    { assert (H1 : 2 * (V * PA) <= (2 * 2 ^ 62 + PE) * PA) by lia.
      apply (Z.mul_le_mono_pos_r _ _ PA); lia. }
    assert (HVlow : 2 ^ 52 * PE <= V)
      by (unfold V; apply Z.mul_le_mono_nonneg_r; lia).
    assert (HE10 : E <= 10).
    { destruct (Z_le_gt_dec E 10) as [L | G]; [exact L | exfalso].
      assert (2 ^ 11 <= PE) by (unfold PE; apply Z.pow_le_mono_r; lia).
      lia. }
    assert (HV62 : V <= 2 ^ 62).
    { set (B := 2 ^ (62 - E)).
      assert (HB : 2 ^ 62 = B * PE)
        by (unfold B, PE; rewrite <- Z.pow_add_r by lia; f_equal; lia).
      destruct (Z_le_gt_dec q B) as [L | G].
      - rewrite HB. unfold V. apply Z.mul_le_mono_nonneg_r; lia.
      - exfalso.
        assert ((B + 1) * PE <= q * PE) by (apply Z.mul_le_mono_nonneg_r; lia).
        fold V in H. lia. }
    exists V. split; [| lia].
    fold E. rewrite round_pack_large; [reflexivity | lia | lia |].
    fold PE V. lia.
Qed.

(** [round53] is the conversion of a [long long] to [double] and back. *)
Lemma of_Z_round53 (z : Z) :
  0 <= z <= 2 ^ 62 -> to_llong (of_Z z) = Some (round53 z).
Proof.
  intros Hz.
  destruct (Z.eq_dec z 0) as [-> | Hne]; [reflexivity |].
  destruct (round53_near z Hz) as [Hr _].
  destruct (of_Z_significand z ltac:(lia)) as (mt & et & -> & Hmt & Het & Hval).
  assert (Hint : int_part mt et = round53 z).
  { destruct (Z_le_gt_dec et 0) as [L | G].
    - apply int_part_exact; [exact L |].
      assert (H : Zpos mt * 2 ^ (et + 52) = round53 z * 2 ^ (- et) * 2 ^ (et + 52)).
      { rewrite Hval, <- Z.mul_assoc, <- Z.pow_add_r by lia.
        do 2 f_equal. lia. }
      apply Z.mul_cancel_r in H; [exact H |].
      apply Z.pow_nonzero; lia.
    - unfold int_part. destruct et as [| p | p]; try lia.
      rewrite Z.shiftl_mul_pow2 by lia.
      apply (Z.mul_cancel_r _ _ (2 ^ 52)); [lia |].
      rewrite <- Hval, <- Z.mul_assoc, <- Z.pow_add_r by lia. reflexivity. }
  unfold to_llong. cbn [trunc signed]. rewrite Hint.
  assert (Hin : in_llong (round53 z) = true).
  { unfold in_llong. apply andb_true_iff. split;
      [apply Z.leb_le | apply Z.ltb_lt]; lia. }
  rewrite Hin. reflexivity.
Qed.

(** ** The sign of a quotient *)

Lemma shr_1_m mrs : 0 <= shr_m mrs -> shr_m (shr_1 mrs) = Z.div2 (shr_m mrs).
Proof.
  destruct mrs as [m r s]. cbn [shr_m]. intros Hm.
  rewrite shr_1_nonneg by exact Hm. reflexivity.
Qed.

Lemma shr_m_iter (k : nat) mrs :
  0 <= shr_m mrs ->
  shr_m (Nat.iter k shr_1 mrs) = shr_m mrs / 2 ^ Z.of_nat k.
Proof.
  intros Hm. induction k as [| k IH].
  - cbn. rewrite Z.div_1_r. reflexivity.
  - rewrite Nat.iter_succ, shr_1_m.
    + rewrite IH, Z.div2_div, Z.div_div, Nat2Z.inj_succ, Z.pow_succ_r by lia.
      f_equal. lia.
    + rewrite IH. apply Z.div_pos; lia.
Qed.

Lemma shr_record_of_loc_m m l : shr_m (shr_record_of_loc m l) = m.
Proof. destruct l as [| []]; reflexivity. Qed.

(** A right shift that leaves 53 bits or more of a positive significand
    leaves it at least 2^52. *)
Lemma shr_fexp_large (m e : Z) (l : location) :
  0 < m -> 53 <= Zdigits2 m -> -1074 <= e ->
  2 ^ 52 <= shr_m (fst (shr_fexp prec emax m e l)) /\
  e <= snd (shr_fexp prec emax m e l).
Proof.
  intros Hm Hd He. destruct m as [| pm | pm]; try lia.
  cbn [Zdigits2] in Hd |- *.
  pose proof (digits2_pos_bounds pm) as [Hlo Hhi].
  set (d := Zpos (digits2_pos pm)) in *.
  unfold shr_fexp. cbn [Zdigits2]. fold d.
  rewrite fexp_normal by lia.
  replace (d + e - 53 - e) with (d - 53) by lia.
  assert (H52 : 2 ^ 52 <= 2 ^ (d - 1)) by (apply Z.pow_le_mono_r; lia).
  destruct (d - 53) as [| k | k] eqn:Ek; [| | lia]; cbn [shr fst snd].
  - rewrite shr_record_of_loc_m. lia.
  - rewrite iter_pos_nat, shr_m_iter, shr_record_of_loc_m,
      positive_nat_Z by (rewrite shr_record_of_loc_m; lia).
    split; [| lia].
    apply Z.div_le_lower_bound; [apply Z.pow_pos_nonneg; lia |].
    assert (Hs : 2 ^ (d - 1) = 2 ^ Zpos k * 2 ^ 52).
    { rewrite <- Z.pow_add_r by lia. f_equal. lia. }
    lia.
Qed.

Lemma Zdigits2_large (m : Z) : 2 ^ 52 <= m -> 53 <= Zdigits2 m.
Proof.
  intros Hm. destruct m as [| pm | pm]; try lia. cbn [Zdigits2].
  pose proof (digits2_pos_bounds pm) as [_ Hhi].
  destruct (Z_le_gt_dec 53 (Zpos (digits2_pos pm))) as [L | L]; [exact L |].
  exfalso.
  assert (2 ^ Zpos (digits2_pos pm) <= 2 ^ 52) by (apply Z.pow_le_mono_r; lia).
  lia.
Qed.

Lemma round_nearest_even_ge m l : m <= round_nearest_even m l.
Proof.
  destruct l as [| []]; cbn [round_nearest_even]; try lia.
  destruct (Z.even m); lia.
Qed.

(** Rounding a significand of at least 2^52 never gives a zero. *)
Lemma binary_round_aux_nonzero (sx : bool) (m e : Z) (l : location) :
  2 ^ 52 <= m -> -1074 <= e ->
  match binary_round_aux prec emax sx m e l with
  | S754_finite s _ _ | S754_infinity s => s = sx
  | _ => False
  end.
Proof.
  intros Hm He. unfold binary_round_aux.
  pose proof (shr_fexp_large m e l ltac:(lia) (Zdigits2_large m Hm) He) as [H1 He1].
  destruct (shr_fexp prec emax m e l) as [mrs' e']. cbn [fst snd] in H1, He1.
  pose proof (round_nearest_even_ge (shr_m mrs') (loc_of_shr_record mrs')) as Hq.
  set (q := round_nearest_even (shr_m mrs') (loc_of_shr_record mrs')) in *.
  pose proof (shr_fexp_large q e' loc_Exact ltac:(lia)
                (Zdigits2_large q ltac:(lia)) ltac:(lia)) as [H2 _].
  destruct (shr_fexp prec emax q e' loc_Exact) as [mrs'' e'']. cbn [fst] in H2.
  destruct (shr_m mrs'') as [| p | p]; try lia.
  destruct (e'' <=? emax - prec); reflexivity.
Qed.

(** Every non-zero [long long] converts to a finite [double] of its sign
    with a significand of 53 bits. *)
Lemma of_Z_finite (n : Z) :
  n <> 0 -> - 2 ^ 63 <= n < 2 ^ 63 ->
  exists (mt : positive) (et : Z),
    of_Z n = S754_finite (n <? 0) mt et /\
    Zpos (digits2_pos mt) = 53 /\ -52 <= et <= 12.
Proof.
  intros Hn Hr.
  assert (H : forall (s : bool) (pz : positive),
            Zpos pz <= 2 ^ 63 ->
            exists (mt : positive) (et : Z),
              binary_round prec emax s pz 0 = S754_finite s mt et /\
              Zpos (digits2_pos mt) = 53 /\ -52 <= et <= 12).
  { intros s pz Hpz.
    destruct (Z_lt_ge_dec (Zpos pz) (2 ^ 53)) as [Hlt | Hge].
    - destruct (binary_round_exact s pz Hlt) as (mt & et & E & Hd & He & _).
      exists mt, et. repeat split; try assumption; lia.
    - pose proof (digits2_pos_bounds pz) as [Hlo Hhi].
      set (d := Zpos (digits2_pos pz)) in *.
      assert (Hd : 54 <= d <= 64).
      { split.
        - destruct (Z_le_gt_dec 54 d) as [L | L]; [exact L | exfalso].
          assert (2 ^ d <= 2 ^ 53) by (apply Z.pow_le_mono_r; lia). lia.
        - destruct (Z_le_gt_dec d 64) as [L | L]; [exact L | exfalso].
          assert (2 ^ 64 <= 2 ^ (d - 1)) by (apply Z.pow_le_mono_r; lia). lia. }
      unfold binary_round. rewrite Z.add_0_r. fold d.
      rewrite fexp_normal by lia. unfold shl_align. rewrite Z.sub_0_r.
      destruct (d - 53) as [| k | k] eqn:Ek; try lia.
      pose proof (binary_round_aux_normal s pz 0) as HR.
      cbv zeta in HR. fold d in HR.
      destruct HR as (q & Hq & _ & ->); [lia .. |].
      unfold pack. destruct (Z.ltb_spec q (2 ^ 53)) as [Hq' | Hq'].
      + destruct q as [| pq | pq]; try lia. cbn [Z.to_pos].
        exists pq, (0 + (d - 53)). split; [reflexivity |].
        split; [apply digits2_pos_unique; cbn; lia | lia].
      + exists (Z.to_pos (2 ^ 52)), (0 + (d - 53) + 1). split; [reflexivity |].
        split; [reflexivity | lia]. }
  destruct n as [| pn | pn]; [contradiction | |].
  - apply (H false pn). lia.
  - apply (H true pn). lia.
Qed.

Lemma year_in_ns_double dcc :
  exists m e, of_Z (year_in_ns dcc) = S754_finite false m e.
Proof. destruct dcc; vm_compute; eauto. Qed.

(** The quotient of a non-zero [long long] by the days of a year in
    nanoseconds has the sign of the dividend and is not a zero. *)
Lemma div_year_sign (n : Z) (dcc : DayCountConvention) :
  n <> 0 -> - 2 ^ 63 <= n < 2 ^ 63 ->
  ltb (div (of_Z n) (of_Z (year_in_ns dcc))) zero = (n <? 0).
Proof.
  intros Hn Hr.
  destruct (of_Z_finite n Hn Hr) as (mt & et & -> & Hmt & Het).
  pose proof (digits2_pos_bounds mt) as Bt. rewrite Hmt in Bt.
  change (53 - 1) with 52 in Bt.
  assert (Hy : exists my ey,
            of_Z (year_in_ns dcc) = S754_finite false my ey /\
            Zpos (digits2_pos my) = 53 /\ 0 <= ey <= 2).
  { destruct dcc; vm_compute; eexists _, _; repeat split; discriminate. }
  destruct Hy as (my & ey & -> & Hmy & Hey).
  pose proof (digits2_pos_bounds my) as By. rewrite Hmy in By.
  change (53 - 1) with 52 in By.
  unfold div, SFdiv, SFdiv_core_binary. cbn [Zdigits2].
  rewrite Hmt, Hmy.
  replace (53 + et - (53 + ey)) with (et - ey) by lia.
  rewrite fexp_normal by lia.
  rewrite Z.min_l by lia.
  replace (et - ey - (et - ey - 53)) with 53 by lia.
  cbv match.
  pose proof (Z.div_mod (Z.shiftl (Zpos mt) 53) (Zpos my) ltac:(lia)) as Hdm.
  pose proof (Z.mod_pos_bound (Z.shiftl (Zpos mt) 53) (Zpos my) ltac:(lia)) as Hmb.
  unfold Z.div, Z.modulo in Hdm, Hmb.
  destruct (Z.div_eucl (Z.shiftl (Zpos mt) 53) (Zpos my)) as [q r].
  rewrite Z.shiftl_mul_pow2 in Hdm by lia.
  assert (Hq : 2 ^ 52 <= q) by nia.
  pose proof (binary_round_aux_nonzero (xorb (n <? 0) false) q (et - ey - 53)
                (new_location (Zpos my) r) Hq ltac:(lia)) as Hres.
  rewrite xorb_false_r in Hres |- *.
  destruct (binary_round_aux _ _ _ _ _ _) as [s | s | | s m e];
    try contradiction; subst s; destruct (n <? 0); reflexivity.
Qed.

(** ** Sub-second fields of a TimeDelta *)

Lemma total_nanoseconds_single_field a b :
  TimeDelta.get_total_nanoseconds (single_field NANOSECONDS (sub64 a b)) = sub64 a b.
Proof.
  unfold TimeDelta.get_total_nanoseconds, single_field. cbn.
  unfold add64, sub64. rewrite Z.add_0_l. apply wrap64_idem.
Qed.

(** What [get_total_seconds] computes: each sub-second field enters by
    its quotient truncated toward zero. *)
Lemma get_total_seconds_formula (x : TimeDelta.t) :
  - (2 ^ 53 * 1000) < TimeDelta.ms x < 2 ^ 53 * 1000 ->
  - (2 ^ 53 * 1000000) < TimeDelta.mcs x < 2 ^ 53 * 1000000 ->
  - (2 ^ 53 * 1000000000) < TimeDelta.ns x < 2 ^ 53 * 1000000000 ->
  TimeDelta.get_total_seconds x
    = Some (wrap64 (TimeDelta.d x * 86400 + TimeDelta.h x * 3600
                    + TimeDelta.m x * 60 + TimeDelta.s x
                    + Z.quot (TimeDelta.mcs x) 1000000
                    + Z.quot (TimeDelta.ms x) 1000
                    + Z.quot (TimeDelta.ns x) 1000000000)).
Proof.
  intros Hms Hmcs Hns. unfold TimeDelta.get_total_seconds. cbv zeta.
  cbn [type_value].
  rewrite !round_to_llong_exact by (apply quot_bound; lia).
  cbn [mbind option_bind]. f_equal. unfold mul64, add64.
  clear Hms Hmcs Hns. wrap64_eq.
Qed.

(** C2, what the code does instead.  The quotients are taken in
    [long long], truncating toward zero, before [round] sees them: as long
    as they fit a [double] exactly, [get_total_seconds] is the wrapped sum
    of the whole seconds and the truncated quotients of the three finer
    fields.  So 999 ms and 1500 ms, 999999 us, 999999999 ns and -999 ms
    contribute 0, 1, 0, 0 and 0 seconds, where rounding to nearest gives
    1, 2, 1, 1 and -1. *)
Theorem get_total_seconds_truncates_subsecond_fields :
  (forall x : TimeDelta.t,
     - (2 ^ 53 * 1000) < TimeDelta.ms x < 2 ^ 53 * 1000 ->
     - (2 ^ 53 * 1000000) < TimeDelta.mcs x < 2 ^ 53 * 1000000 ->
     - (2 ^ 53 * 1000000000) < TimeDelta.ns x < 2 ^ 53 * 1000000000 ->
     TimeDelta.get_total_seconds x
       = Some (wrap64 (TimeDelta.d x * 86400 + TimeDelta.h x * 3600
                       + TimeDelta.m x * 60 + TimeDelta.s x
                       + Z.quot (TimeDelta.mcs x) 1000000
                       + Z.quot (TimeDelta.ms x) 1000
                       + Z.quot (TimeDelta.ns x) 1000000000))) /\
  TimeDelta.get_total_seconds (TimeDelta.mk 0 0 0 0 999 0 0) = Some 0 /\
  TimeDelta.get_total_seconds (TimeDelta.mk 0 0 0 0 1500 0 0) = Some 1 /\
  TimeDelta.get_total_seconds (TimeDelta.mk 0 0 0 0 0 999999 0) = Some 0 /\
  TimeDelta.get_total_seconds (TimeDelta.mk 0 0 0 0 0 0 999999999) = Some 0 /\
  TimeDelta.get_total_seconds (TimeDelta.mk 0 0 0 0 (-999) 0 0) = Some 0.
Proof.
  split; [exact get_total_seconds_formula |].
  repeat split; vm_compute; reflexivity.
Qed.

(** ** The sign of a timestamp *)

(** C10: non-negativity of the timestamp is checked by the constructor
    only.  A DateTime built with ticks 0 is driven to ticks -1 by
    [apply_time_delta] with no error, and [set_timestamp] stores any
    value, negative ones included. *)
Theorem timestamp_sign_checked_at_construction_only :
  (exists (x x' : DateTime.t) (dt : TimeDelta.t),
      DateTime.new 0 SECONDS = Ret x /\
      0 <= DateTime.tmsp x /\
      DateTime.apply_time_delta dt x = Some x' /\
      DateTime.tmsp x' < 0) /\
  (forall (v : Z) (x : DateTime.t),
      DateTime.tmsp (DateTime.set_timestamp v x) = v) /\
  DateTime.new (-1) SECONDS = Throw NegativeEpochTimestampError.
Proof.
  split; [| split].
  - exists (DateTime.mk 0 SECONDS), (DateTime.mk (-1) SECONDS),
      (TimeDelta.mk 0 0 0 (-1) 0 0 0).
    repeat split; solve [reflexivity | vm_compute; discriminate].
  - intros v x. reflexivity.
  - reflexivity.
Qed.

(** ** Conversion between precisions *)


(** [convert_timestamp] returns an integer nearest to the exact rescaled
    timestamp [tmsp * type / type_], as long as the timestamp and its
    rescaled value stay below 2^51. *)
Lemma convert_timestamp_nearest (type : EpochTimestampType) (x : DateTime.t) :
  0 <= DateTime.tmsp x < 2 ^ 51 ->
  DateTime.tmsp x * type_value type < 2 ^ 51 * type_value (DateTime.type_ x) ->
  exists U : Z,
    DateTime.convert_timestamp type x = Some (DateTime.mk U type) /\
    0 <= U /\
    2 * Z.abs (U * type_value (DateTime.type_ x) - DateTime.tmsp x * type_value type)
      <= type_value (DateTime.type_ x).
Proof.
  destruct x as [t ty]. cbn [DateTime.tmsp DateTime.type_]. intros Ht Hv.
  unfold DateTime.convert_timestamp. cbv zeta.
  cbn [DateTime.tmsp DateTime.type_].
  fold (factor type ty).
  destruct (Z.eq_dec t 0) as [-> | Hne].
  - exists 0. split; [destruct type, ty; reflexivity | destruct ty; cbn; lia].
  - destruct type, ty; cbn [type_value] in Hv |- *;
      match goal with
      | |- context [factor ?a ?b] =>
          let f := eval vm_compute in (factor a b) in
          change (factor a b) with f
      end;
      match goal with
      | |- context [mul (S754_finite false ?mc ?ec) (of_Z t)] =>
          destruct (mul_round_to_llong mc ec t eq_refl)
            as (U & G & HU & HU52 & HG & HGC & Herr & HGb); [lia | lia | lia |]
      end;
      rewrite HU; exists U; (split; [reflexivity | lia]).
Qed.

(** Converting to [type] and back, for ticks that stay below 2^50 before
    and after the conversion: both conversions return, each with an
    integer nearest to the exact rescaled value. *)
Lemma convert_timestamp_twice (type : EpochTimestampType) (x : DateTime.t) :
  0 <= DateTime.tmsp x < 2 ^ 50 ->
  DateTime.tmsp x * type_value type < 2 ^ 50 * type_value (DateTime.type_ x) ->
  exists U1 U2 : Z,
    DateTime.convert_timestamp type x = Some (DateTime.mk U1 type) /\
    DateTime.convert_timestamp (DateTime.type_ x) (DateTime.mk U1 type)
      = Some (DateTime.mk U2 (DateTime.type_ x)) /\
    2 * Z.abs (U1 * type_value (DateTime.type_ x) - DateTime.tmsp x * type_value type)
      <= type_value (DateTime.type_ x) /\
    2 * Z.abs (U2 * type_value type - U1 * type_value (DateTime.type_ x))
      <= type_value type.
Proof.
  intros Hticks Hconv.
  destruct x as [t ty]. cbn [DateTime.tmsp DateTime.type_] in *.
  assert (Hb : 1 <= type_value ty <= 1000000000) by (destruct ty; cbn; lia).
  assert (Ha : 1 <= type_value type <= 1000000000) by (destruct type; cbn; lia).
  destruct (convert_timestamp_nearest type (DateTime.mk t ty))
    as (U1 & H1 & HU1 & Herr1); cbn [DateTime.tmsp DateTime.type_];
    [lia | nia |].
  cbn [DateTime.tmsp DateTime.type_] in Herr1.
  destruct (convert_timestamp_nearest ty (DateTime.mk U1 type))
    as (U2 & H2 & HU2 & Herr2); cbn [DateTime.tmsp DateTime.type_];
    [destruct type, ty; cbn [type_value] in *; lia .. |].
  cbn [DateTime.tmsp DateTime.type_] in Herr2.
  exists U1, U2. repeat split; assumption.
Qed.

(** Two roundings in a row, to the scale [a] and back to the scale [b]:
    the second undoes the first when [a] is at least as fine as [b], and
    lands within half a unit of [a] otherwise. *)
Lemma round_trip_error (a b : EpochTimestampType) (t U1 U2 : Z) :
  2 * Z.abs (U1 * type_value b - t * type_value a) <= type_value b ->
  2 * Z.abs (U2 * type_value a - U1 * type_value b) <= type_value a ->
  (type_value b <= type_value a -> U2 = t) /\
  2 * type_value a * Z.abs (U2 - t) <= type_value b.
Proof. destruct a, b; cbn [type_value]; lia. Qed.

(** [convert_timestamp] returns an integer nearest to the exact rescaled
    timestamp, [tmsp * type / type_], for ticks that stay below 2^51
    before and after the conversion: twice the distance between the
    result and the exact value, both scaled by [type_], is at most
    [type_]. *)
Theorem convert_timestamp_rounds_to_nearest
    (type : EpochTimestampType) (x : DateTime.t)
    (Hticks : 0 <= DateTime.tmsp x < 2 ^ 51)
    (Hconv : DateTime.tmsp x * type_value type
               < 2 ^ 51 * type_value (DateTime.type_ x)) :
  exists U : Z,
    DateTime.convert_timestamp type x = Some (DateTime.mk U type) /\
    0 <= U /\
    2 * Z.abs (U * type_value (DateTime.type_ x) - DateTime.tmsp x * type_value type)
      <= type_value (DateTime.type_ x).
Proof. exact (convert_timestamp_nearest type x Hticks Hconv). Qed.

(** The theorem at 1704067200123 ms, converted to seconds. *)
Lemma convert_timestamp_rounds_to_nearest_witness :
  exists U : Z,
    DateTime.convert_timestamp SECONDS (DateTime.mk 1704067200123 MILLISECONDS)
      = Some (DateTime.mk U SECONDS) /\
    0 <= U /\
    2 * Z.abs (U * 1000 - 1704067200123 * 1) <= 1000.
Proof.
  apply (convert_timestamp_rounds_to_nearest
           SECONDS (DateTime.mk 1704067200123 MILLISECONDS)); cbn; lia.
Defined.

(** C4, as the code has it: for ticks that stay below 2^50, before and
    after the conversion to [type], converting to [type] and back restores
    the precision tag; it restores the ticks exactly when [type] is at
    least as fine as the original precision, and otherwise leaves ticks
    that differ from the original by at most half a unit of [type], that
    is by at most half the ratio of the two scales. *)
Theorem convert_timestamp_round_trip (type : EpochTimestampType) (x : DateTime.t)
    (Hticks : 0 <= DateTime.tmsp x < 2 ^ 50)
    (Hconv : DateTime.tmsp x * type_value type
               < 2 ^ 50 * type_value (DateTime.type_ x)) :
  exists x1 x2 : DateTime.t,
    DateTime.convert_timestamp type x = Some x1 /\
    DateTime.convert_timestamp (DateTime.type_ x) x1 = Some x2 /\
    DateTime.type_ x2 = DateTime.type_ x /\
    (type_value (DateTime.type_ x) <= type_value type -> x2 = x) /\
    2 * type_value type * Z.abs (DateTime.tmsp x2 - DateTime.tmsp x)
      <= type_value (DateTime.type_ x).
Proof.
  destruct (convert_timestamp_twice type x Hticks Hconv)
    as (U1 & U2 & H1 & H2 & E1 & E2).
  destruct (round_trip_error _ _ _ _ _ E1 E2) as [Hfine Herr].
  exists (DateTime.mk U1 type), (DateTime.mk U2 (DateTime.type_ x)).
  split; [exact H1 |]. split; [exact H2 |]. split; [reflexivity |].
  split; [| exact Herr].
  intros Hle. destruct x as [t ty]. cbn [DateTime.tmsp DateTime.type_] in *.
  f_equal. exact (Hfine Hle).
Qed.

(** The theorem at 1704067200 s (2024-01-01) through milliseconds, and at
    1704067200123 ms through seconds. *)
Lemma convert_timestamp_round_trip_witness :
  (exists x1 x2 : DateTime.t,
     DateTime.convert_timestamp MILLISECONDS (DateTime.mk 1704067200 SECONDS) = Some x1 /\
     DateTime.convert_timestamp SECONDS x1 = Some x2 /\
     DateTime.type_ x2 = SECONDS /\
     (1 <= 1000 -> x2 = DateTime.mk 1704067200 SECONDS) /\
     2 * 1000 * Z.abs (DateTime.tmsp x2 - 1704067200) <= 1) /\
  (exists x1 x2 : DateTime.t,
     DateTime.convert_timestamp SECONDS (DateTime.mk 1704067200123 MILLISECONDS) = Some x1 /\
     DateTime.convert_timestamp MILLISECONDS x1 = Some x2 /\
     DateTime.type_ x2 = MILLISECONDS /\
     (1000 <= 1 -> x2 = DateTime.mk 1704067200123 MILLISECONDS) /\
     2 * 1 * Z.abs (DateTime.tmsp x2 - 1704067200123) <= 1000).
Proof.
  split.
  - apply (convert_timestamp_round_trip MILLISECONDS (DateTime.mk 1704067200 SECONDS));
      cbn; lia.
  - apply (convert_timestamp_round_trip SECONDS (DateTime.mk 1704067200123 MILLISECONDS));
      cbn; lia.
Defined.

(** C4 is false as stated: 1500000000 ns converted to seconds is 2 s, and
    2 s converted back is 2000000000 ns, 500000000 ticks away from the
    original. *)
Lemma convert_timestamp_round_trip_far :
  DateTime.convert_timestamp SECONDS (DateTime.mk 1500000000 NANOSECONDS)
    = Some (DateTime.mk 2 SECONDS) /\
  DateTime.convert_timestamp NANOSECONDS (DateTime.mk 2 SECONDS)
    = Some (DateTime.mk 2000000000 NANOSECONDS) /\
  Z.abs (2000000000 - 1500000000) > 1.
Proof. repeat split; vm_compute; reflexivity. Qed.

(** ** Endpoints of [get_timedelta] *)

Lemma call_inv f p (hp hp' : heap) :
  call f p hp = Some hp' ->
  exists x x', hp !! p = Some x /\ f x = Some x' /\ hp' = <[p := x']> hp.
Proof.
  unfold call. destruct (hp !! p) as [x |]; cbn; [| discriminate].
  destruct (f x) as [x' |] eqn:Hf; cbn; [| discriminate].
  intros [= <-]. exists x, x'. auto.
Qed.

Lemma call_length f p (hp hp' : heap) :
  call f p hp = Some hp' -> length hp' = length hp.
Proof.
  intros (x & x' & _ & _ & ->)%call_inv. apply length_insert.
Qed.

Lemma call_self f p (hp hp' : heap) :
  call f p hp = Some hp' ->
  exists x x', hp !! p = Some x /\ f x = Some x' /\ hp' !! p = Some x'.
Proof.
  intros (x & x' & Hx & Hf & ->)%call_inv. exists x, x'.
  repeat split; try assumption.
  apply list_lookup_insert_eq. eapply lookup_lt_Some, Hx.
Qed.

Lemma call_other f p q (hp hp' : heap) :
  call f p hp = Some hp' -> p <> q -> hp' !! q = hp !! q.
Proof.
  intros (x & x' & _ & _ & ->)%call_inv Hne.
  apply list_lookup_insert_ne, Hne.
Qed.

(** What [get_timedelta] does to the heap and what it returns, for any two
    pointers, aliased or not. *)
Lemma get_timedelta_inv start_datetime end_datetime delta_type
    (hp hp' : heap) (dt : TimeDelta.t) :
  get_timedelta start_datetime end_datetime delta_type hp = Some (dt, hp') ->
  exists (s0 e0 : DateTime.t) (hp1 hp2 hp3 : heap) (s2 e2 : DateTime.t),
    hp !! start_datetime = Some s0 /\
    hp !! end_datetime = Some e0 /\
    call (DateTime.convert_timestamp delta_type) start_datetime hp = Some hp1 /\
    call (DateTime.convert_timestamp delta_type) end_datetime hp1 = Some hp2 /\
    hp2 !! start_datetime = Some s2 /\
    hp2 !! end_datetime = Some e2 /\
    call (DateTime.convert_timestamp (DateTime.type_ s0)) start_datetime hp2 = Some hp3 /\
    call (DateTime.convert_timestamp (DateTime.type_ e0)) end_datetime hp3 = Some hp' /\
    dt = single_field delta_type (sub64 (DateTime.tmsp e2) (DateTime.tmsp s2)).
Proof.
  unfold get_timedelta.
  destruct (hp !! start_datetime) as [s0 |] eqn:Hs0; cbn; [| discriminate].
  destruct (hp !! end_datetime) as [e0 |] eqn:He0; cbn; [| discriminate].
  destruct (call _ start_datetime hp) as [hp1 |] eqn:H1; cbn; [| discriminate].
  destruct (call _ end_datetime hp1) as [hp2 |] eqn:H2; cbn; [| discriminate].
  destruct (hp2 !! end_datetime) as [e2 |] eqn:He2; cbn; [| discriminate].
  destruct (hp2 !! start_datetime) as [s2 |] eqn:Hs2; cbn; [| discriminate].
  destruct (call _ start_datetime hp2) as [hp3 |] eqn:H3; cbn; [| discriminate].
  destruct (call _ end_datetime hp3) as [hp4 |] eqn:H4; cbn; [| discriminate].
  intros [= <- <-].
  exists s0, e0, hp1, hp2, hp3, s2, e2.
  repeat split;
    first [assumption | reflexivity | destruct delta_type; reflexivity].
Qed.





(** [get_timedelta] returns, for two distinct objects whose ticks stay
    below 2^50 before and after the conversion to [delta_type]: the delta
    is the difference of the two converted timestamps, in the field of
    [delta_type], and each endpoint is left as its conversion to
    [delta_type] and back. *)
Theorem get_timedelta_returns (start_datetime end_datetime : loc)
    (delta_type : EpochTimestampType) (hp : heap) (s0 e0 : DateTime.t)
    (Hne : start_datetime <> end_datetime)
    (Hs : hp !! start_datetime = Some s0)
    (He : hp !! end_datetime = Some e0)
    (Hs50 : 0 <= DateTime.tmsp s0 < 2 ^ 50)
    (Hsc : DateTime.tmsp s0 * type_value delta_type
             < 2 ^ 50 * type_value (DateTime.type_ s0))
    (He50 : 0 <= DateTime.tmsp e0 < 2 ^ 50)
    (Hec : DateTime.tmsp e0 * type_value delta_type
             < 2 ^ 50 * type_value (DateTime.type_ e0)) :
  exists s1 e1 s2 e2 : DateTime.t,
    DateTime.convert_timestamp delta_type s0 = Some s1 /\
    DateTime.convert_timestamp delta_type e0 = Some e1 /\
    DateTime.convert_timestamp (DateTime.type_ s0) s1 = Some s2 /\
    DateTime.convert_timestamp (DateTime.type_ e0) e1 = Some e2 /\
    get_timedelta start_datetime end_datetime delta_type hp
      = Some (single_field delta_type (sub64 (DateTime.tmsp e1) (DateTime.tmsp s1)),
              <[end_datetime := e2]> (<[start_datetime := s2]> hp)).
Proof.
  destruct (convert_timestamp_twice delta_type s0 Hs50 Hsc)
    as (S1 & S2 & Hs1 & Hs2 & _).
  destruct (convert_timestamp_twice delta_type e0 He50 Hec)
    as (E1 & E2 & He1 & He2 & _).
  set (s1 := DateTime.mk S1 delta_type) in *.
  set (s2 := DateTime.mk S2 (DateTime.type_ s0)) in *.
  set (e1 := DateTime.mk E1 delta_type) in *.
  set (e2 := DateTime.mk E2 (DateTime.type_ e0)) in *.
  exists s1, e1, s2, e2. repeat (split; [assumption |]).
  assert (Hls : (start_datetime < length hp)%nat) by (eapply lookup_lt_Some, Hs).
  assert (Hle : (end_datetime < length hp)%nat) by (eapply lookup_lt_Some, He).
  unfold get_timedelta, call, DateTime.get_timestamp_type, DateTime.get_timestamp.
  rewrite Hs, He. cbn [fmap option_fmap option_map mbind option_bind].
  rewrite Hs1. cbn [mbind option_bind].
  rewrite list_lookup_insert_ne, He by exact Hne. cbn [mbind option_bind].
  rewrite He1. cbn [mbind option_bind].
  rewrite list_lookup_insert_eq by (rewrite length_insert; exact Hle).
  rewrite list_lookup_insert_ne by congruence.
  rewrite list_lookup_insert_eq by exact Hls.
  cbn [fmap option_fmap option_map mbind option_bind].
  rewrite Hs2. cbn [mbind option_bind].
  rewrite list_lookup_insert_ne by exact Hne.
  rewrite list_lookup_insert_eq by (rewrite length_insert; exact Hle).
  cbn [mbind option_bind]. rewrite He2. cbn [mbind option_bind].
  f_equal. f_equal.
  rewrite (list_insert_insert_ne _ start_datetime end_datetime s2 e1) by exact Hne.
  rewrite !list_insert_insert_eq. reflexivity.
Qed.

(** The theorem from 2024-01-01 to 2024-04-01, held in seconds, for a
    delta in milliseconds. *)
Lemma get_timedelta_returns_witness :
  let hp := [DateTime.mk 1704067200 SECONDS; DateTime.mk 1711929600 SECONDS] in
  exists s1 e1 s2 e2 : DateTime.t,
    DateTime.convert_timestamp MILLISECONDS (DateTime.mk 1704067200 SECONDS) = Some s1 /\
    DateTime.convert_timestamp MILLISECONDS (DateTime.mk 1711929600 SECONDS) = Some e1 /\
    DateTime.convert_timestamp SECONDS s1 = Some s2 /\
    DateTime.convert_timestamp SECONDS e1 = Some e2 /\
    get_timedelta 0%nat 1%nat MILLISECONDS hp
      = Some (single_field MILLISECONDS (sub64 (DateTime.tmsp e1) (DateTime.tmsp s1)),
              <[1%nat := e2]> (<[0%nat := s2]> hp)).
Proof.
  cbv zeta.
  apply (get_timedelta_returns 0%nat 1%nat MILLISECONDS
           [DateTime.mk 1704067200 SECONDS; DateTime.mk 1711929600 SECONDS]
           (DateTime.mk 1704067200 SECONDS) (DateTime.mk 1711929600 SECONDS));
    first [reflexivity | cbn; lia].
Defined.

(** ** Year fractions *)

Lemma total_nanoseconds_range (dt : TimeDelta.t) :
  - 2 ^ 63 <= TimeDelta.get_total_nanoseconds dt < 2 ^ 63.
Proof. unfold TimeDelta.get_total_nanoseconds, add64. apply wrap64_range. Qed.

(** The quotient by the year compares below zero exactly when the
    dividend is negative. *)
Lemma div_year_ltb_zero (n : Z) (dcc : DayCountConvention) :
  - 2 ^ 63 <= n < 2 ^ 63 ->
  ltb (div (of_Z n) (of_Z (year_in_ns dcc))) zero = (n <? 0).
Proof.
  intros Hn. destruct (Z.eq_dec n 0) as [-> | Hne].
  - destruct dcc; reflexivity.
  - apply div_year_sign; assumption.
Qed.

(** One run of [get_timedelta] on two distinct objects, given what the
    four conversions return. *)
Lemma get_timedelta_run (start_datetime end_datetime : loc)
    (delta_type : EpochTimestampType) (hp : heap)
    (s0 e0 s1 e1 s2 e2 : DateTime.t) :
  start_datetime <> end_datetime ->
  hp !! start_datetime = Some s0 ->
  hp !! end_datetime = Some e0 ->
  DateTime.convert_timestamp delta_type s0 = Some s1 ->
  DateTime.convert_timestamp delta_type e0 = Some e1 ->
  DateTime.convert_timestamp (DateTime.type_ s0) s1 = Some s2 ->
  DateTime.convert_timestamp (DateTime.type_ e0) e1 = Some e2 ->
  get_timedelta start_datetime end_datetime delta_type hp
    = Some (single_field delta_type (sub64 (DateTime.tmsp e1) (DateTime.tmsp s1)),
            <[end_datetime := e2]> (<[start_datetime := s2]> hp)).
Proof.
  intros Hne Hs He Hs1 He1 Hs2 He2.
  assert (Hls : (start_datetime < length hp)%nat) by (eapply lookup_lt_Some, Hs).
  assert (Hle : (end_datetime < length hp)%nat) by (eapply lookup_lt_Some, He).
  unfold get_timedelta, call, DateTime.get_timestamp_type, DateTime.get_timestamp.
  rewrite Hs, He. cbn [fmap option_fmap option_map mbind option_bind].
  rewrite Hs1. cbn [mbind option_bind].
  rewrite list_lookup_insert_ne, He by exact Hne. cbn [mbind option_bind].
  rewrite He1. cbn [mbind option_bind].
  rewrite list_lookup_insert_eq by (rewrite length_insert; exact Hle).
  rewrite list_lookup_insert_ne by congruence.
  rewrite list_lookup_insert_eq by exact Hls.
  cbn [fmap option_fmap option_map mbind option_bind].
  rewrite Hs2. cbn [mbind option_bind].
  rewrite list_lookup_insert_ne by exact Hne.
  rewrite list_lookup_insert_eq by (rewrite length_insert; exact Hle).
  cbn [mbind option_bind]. rewrite He2. cbn [mbind option_bind].
  f_equal. f_equal.
  rewrite (list_insert_insert_ne _ start_datetime end_datetime s2 e1) by exact Hne.
  rewrite !list_insert_insert_eq. reflexivity.
Qed.

(** Conversion to a precision at least as fine, and back: the value is
    multiplied by the ratio of the scales, and the way back undoes it. *)
Lemma convert_timestamp_finer_back (type : EpochTimestampType) (x : DateTime.t) :
  0 <= DateTime.tmsp x < 2 ^ 50 ->
  DateTime.tmsp x * type_value type < 2 ^ 50 * type_value (DateTime.type_ x) ->
  type_value (DateTime.type_ x) <= type_value type ->
  exists U : Z,
    0 <= U < 2 ^ 50 /\
    U = DateTime.tmsp x * (type_value type / type_value (DateTime.type_ x)) /\
    DateTime.convert_timestamp type x = Some (DateTime.mk U type) /\
    DateTime.convert_timestamp (DateTime.type_ x) (DateTime.mk U type) = Some x.
Proof.
  intros Ht Hc Hfine.
  destruct (convert_timestamp_twice type x Ht Hc) as (U1 & U2 & H1 & H2 & E1 & E2).
  destruct (round_trip_error _ _ _ _ _ E1 E2) as [Hback _].
  specialize (Hback Hfine).
  exists U1. destruct x as [t ty]. cbn [DateTime.tmsp DateTime.type_] in *.
  subst U2.
  assert (HU : 0 <= U1 < 2 ^ 50 /\ U1 = t * (type_value type / type_value ty)).
  { destruct type, ty; cbn [type_value] in *; try lia;
      match goal with
      | |- _ /\ _ = _ * (?a / ?b) =>
          let q := eval vm_compute in (a / b) in change (a / b) with q
      end; lia. }
  destruct HU as [HU1 HU2]. repeat split; try assumption; lia.
Qed.

(** [get_timedelta] in nanoseconds on one object given twice, for ticks
    that stay below 2^50: the delta is 0 and nothing changes. *)
Lemma get_timedelta_nanoseconds_alias (p : loc) (hp : heap) (x : DateTime.t) :
  hp !! p = Some x ->
  0 <= DateTime.tmsp x < 2 ^ 50 ->
  DateTime.tmsp x * 1000000000 < 2 ^ 50 * type_value (DateTime.type_ x) ->
  get_timedelta p p NANOSECONDS hp = Some (single_field NANOSECONDS 0, hp).
Proof.
  intros Hx Ht Hc.
  assert (Hty : 1 <= type_value (DateTime.type_ x) <= 1000000000)
    by (destruct (DateTime.type_ x); cbn; lia).
  destruct (convert_timestamp_finer_back NANOSECONDS x Ht Hc ltac:(cbn; lia))
    as (U & HU & _ & H1 & H2).
  destruct (convert_timestamp_finer_back NANOSECONDS (DateTime.mk U NANOSECONDS))
    as (U' & _ & HU' & H3 & _); [cbn; lia .. |].
  cbn [DateTime.tmsp DateTime.type_ type_value] in HU', H3.
  change (1000000000 / 1000000000) with 1 in HU'. rewrite Z.mul_1_r in HU'.
  subst U'.
  destruct (convert_timestamp_finer_back (DateTime.type_ x) x)
    as (V & _ & HV & H4 & _);
    [lia | apply Z.mul_lt_mono_pos_r; lia | lia |].
  rewrite Z.div_same, Z.mul_1_r in HV by lia. subst V.
  assert (Hx' : DateTime.mk (DateTime.tmsp x) (DateTime.type_ x) = x)
    by (destruct x; reflexivity).
  rewrite Hx' in H4.
  assert (Hlt : (p < length hp)%nat) by (eapply lookup_lt_Some, Hx).
  unfold get_timedelta, call, DateTime.get_timestamp_type, DateTime.get_timestamp.
  rewrite Hx. cbn [fmap option_fmap option_map mbind option_bind].
  rewrite H1. cbn [mbind option_bind].
  rewrite list_lookup_insert_eq by exact Hlt. cbn [mbind option_bind].
  rewrite H3. cbn [mbind option_bind].
  rewrite list_insert_insert_eq.
  rewrite list_lookup_insert_eq by exact Hlt.
  cbn [fmap option_fmap option_map mbind option_bind].
  rewrite H2. cbn [mbind option_bind].
  rewrite list_insert_insert_eq.
  rewrite list_lookup_insert_eq by exact Hlt. cbn [mbind option_bind].
  rewrite H4. cbn [mbind option_bind].
  rewrite list_insert_insert_eq, (list_insert_id _ _ _ Hx).
  cbn [DateTime.tmsp]. unfold sub64. rewrite Z.sub_diag. reflexivity.
Qed.

(** In nanoseconds, for ticks that stay below 2^50, [get_timedelta] returns
    the exact difference of the two timestamps and changes nothing,
    whether its two pointers are distinct or not. *)
Lemma get_timedelta_nanoseconds_exact (start_datetime end_datetime : loc)
    (hp : heap) (s0 e0 : DateTime.t) :
  hp !! start_datetime = Some s0 ->
  hp !! end_datetime = Some e0 ->
  0 <= DateTime.tmsp s0 < 2 ^ 50 ->
  DateTime.tmsp s0 * 1000000000 < 2 ^ 50 * type_value (DateTime.type_ s0) ->
  0 <= DateTime.tmsp e0 < 2 ^ 50 ->
  DateTime.tmsp e0 * 1000000000 < 2 ^ 50 * type_value (DateTime.type_ e0) ->
  - 2 ^ 50 < nanoseconds_of e0 - nanoseconds_of s0 < 2 ^ 50 /\
  get_timedelta start_datetime end_datetime NANOSECONDS hp
    = Some (single_field NANOSECONDS (nanoseconds_of e0 - nanoseconds_of s0), hp).
Proof.
  intros Hs He Hs50 Hsc He50 Hec.
  assert (Hsty : type_value (DateTime.type_ s0) <= type_value NANOSECONDS)
    by (destruct (DateTime.type_ s0); cbn; lia).
  assert (Hety : type_value (DateTime.type_ e0) <= type_value NANOSECONDS)
    by (destruct (DateTime.type_ e0); cbn; lia).
  destruct (convert_timestamp_finer_back NANOSECONDS s0 Hs50 Hsc Hsty)
    as (S1 & HS1 & HS1' & Hs1 & Hs2).
  destruct (convert_timestamp_finer_back NANOSECONDS e0 He50 Hec Hety)
    as (E1 & HE1 & HE1' & He1 & He2).
  cbn [type_value] in HS1', HE1'. fold (nanoseconds_of s0) in HS1'.
  fold (nanoseconds_of e0) in HE1'. rewrite <- HS1', <- HE1'.
  split; [lia |].
  destruct (decide (start_datetime = end_datetime)) as [-> | Hne].
  - assert (e0 = s0) by congruence. subst e0.
    replace (E1 - S1) with 0 by lia.
    apply (get_timedelta_nanoseconds_alias _ _ s0); assumption.
  - rewrite (get_timedelta_run _ _ _ _ _ _ _ _ _ _ Hne Hs He Hs1 He1 Hs2 He2).
    cbn [DateTime.tmsp]. unfold sub64. rewrite wrap64_small by lia.
    rewrite (list_insert_id _ _ _ Hs), (list_insert_id _ _ _ He). reflexivity.
Qed.

(** Conversion to a precision at least as fine as the current one, for a
    timestamp that [double] holds exactly or that keeps its precision:
    the result is the [double] nearest to the rescaled timestamp. *)
Lemma convert_timestamp_round53 (type : EpochTimestampType) (x : DateTime.t) :
  0 <= DateTime.tmsp x ->
  type_value (DateTime.type_ x) <= type_value type ->
  DateTime.tmsp x < 2 ^ 53 \/ type = DateTime.type_ x ->
  DateTime.tmsp x * (type_value type / type_value (DateTime.type_ x)) <= 2 ^ 62 ->
  DateTime.convert_timestamp type x
    = Some (DateTime.mk
              (round53 (DateTime.tmsp x
                        * (type_value type / type_value (DateTime.type_ x))))
              type).
Proof.
  destruct x as [t ty]. cbn [DateTime.tmsp DateTime.type_].
  intros Ht Hfine Hcase Hv.
  unfold DateTime.convert_timestamp. cbv zeta.
  cbn [DateTime.tmsp DateTime.type_].
  fold (factor type ty).
  destruct (Z.eq_dec t 0) as [-> | Hne].
  - destruct type, ty; reflexivity.
  - destruct type, ty; cbn [type_value] in Hfine, Hv |- *; try lia;
      match goal with
      | |- context [factor ?a ?b] =>
          let f := eval vm_compute in (factor a b) in
          change (factor a b) with f
      end;
      match goal with
      | |- context [_ * (?a / ?b)] =>
          let q := eval vm_compute in (a / b) in
          change (a / b) with q in Hv |- *
      end;
      match goal with
      | |- context [mul (S754_finite false ?mc ?ec) (of_Z t)] =>
          match goal with
          | |- context [round53 (t * ?r)] =>
              rewrite (mul_int_round53 mc ec r t eq_refl ltac:(lia) eq_refl
                         ltac:(lia)
                         ltac:(first [right; reflexivity
                                     | destruct Hcase as [Hc | Hc];
                                       [left; exact Hc | discriminate Hc]])
                         ltac:(lia)), (Z.mul_comm r t)
          end
      end; reflexivity.
Qed.

(** Conversion to a precision at most as fine as the current one is
    defined for every timestamp up to 2^62, and stays within 2^62. *)
Lemma convert_timestamp_coarser_returns (type : EpochTimestampType) (x : DateTime.t) :
  0 <= DateTime.tmsp x <= 2 ^ 62 ->
  type_value type <= type_value (DateTime.type_ x) ->
  exists V : Z,
    DateTime.convert_timestamp type x = Some (DateTime.mk V type) /\
    0 <= V <= 2 ^ 62.
Proof.
  destruct x as [t ty]. cbn [DateTime.tmsp DateTime.type_].
  intros Ht Hcoarse.
  unfold DateTime.convert_timestamp. cbv zeta.
  cbn [DateTime.tmsp DateTime.type_].
  fold (factor type ty).
  destruct (Z.eq_dec t 0) as [-> | Hne].
  - exists 0. split; [destruct type, ty; reflexivity | lia].
  - destruct type, ty; cbn [type_value] in Hcoarse |- *; try lia;
      match goal with
      | |- context [factor ?a ?b] =>
          let f := eval vm_compute in (factor a b) in
          change (factor a b) with f
      end;
      match goal with
      | |- context [mul (S754_finite false ?mc ?ec) (of_Z t)] =>
          destruct (mul_le1_returns mc ec t eq_refl ltac:(lia)
                      ltac:(apply Z.leb_le; vm_compute; reflexivity)
                      ltac:(lia))
            as (V & HV & HV62)
      end;
      rewrite HV; exists V; (split; [reflexivity | exact HV62]).
Qed.

(** One run of [get_timedelta] on one object given twice, given what the
    four conversions return. *)
Lemma get_timedelta_run_alias (p : loc) (delta_type : EpochTimestampType)
    (hp : heap) (x x1 x2 x3 x4 : DateTime.t) :
  hp !! p = Some x ->
  DateTime.convert_timestamp delta_type x = Some x1 ->
  DateTime.convert_timestamp delta_type x1 = Some x2 ->
  DateTime.convert_timestamp (DateTime.type_ x) x2 = Some x3 ->
  DateTime.convert_timestamp (DateTime.type_ x) x3 = Some x4 ->
  get_timedelta p p delta_type hp
    = Some (single_field delta_type 0, <[p := x4]> hp).
Proof.
  intros Hx H1 H2 H3 H4.
  assert (Hlt : (p < length hp)%nat) by (eapply lookup_lt_Some, Hx).
  unfold get_timedelta, call, DateTime.get_timestamp_type, DateTime.get_timestamp.
  rewrite Hx. cbn [fmap option_fmap option_map mbind option_bind].
  rewrite H1. cbn [mbind option_bind].
  rewrite list_lookup_insert_eq by exact Hlt. cbn [mbind option_bind].
  rewrite H2. cbn [mbind option_bind].
  rewrite list_insert_insert_eq.
  rewrite list_lookup_insert_eq by exact Hlt.
  cbn [fmap option_fmap option_map mbind option_bind].
  rewrite H3. cbn [mbind option_bind].
  rewrite list_insert_insert_eq.
  rewrite list_lookup_insert_eq by exact Hlt. cbn [mbind option_bind].
  rewrite H4. cbn [mbind option_bind].
  rewrite list_insert_insert_eq.
  unfold sub64. rewrite Z.sub_diag.
  destruct delta_type; reflexivity.
Qed.

(** In nanoseconds, [get_timedelta] returns the difference of the two
    timestamps as [double] holds them, for every pair of endpoints up to
    2^62 ns whose ticks [double] holds exactly or that are in nanoseconds
    already. *)
Lemma get_timedelta_nanoseconds_round53 (start_datetime end_datetime : loc)
    (hp : heap) (s0 e0 : DateTime.t) :
  hp !! start_datetime = Some s0 ->
  hp !! end_datetime = Some e0 ->
  0 <= DateTime.tmsp s0 ->
  DateTime.tmsp s0 < 2 ^ 53 \/ DateTime.type_ s0 = NANOSECONDS ->
  nanoseconds_of s0 <= 2 ^ 62 ->
  0 <= DateTime.tmsp e0 ->
  DateTime.tmsp e0 < 2 ^ 53 \/ DateTime.type_ e0 = NANOSECONDS ->
  nanoseconds_of e0 <= 2 ^ 62 ->
  exists hp' : heap,
    get_timedelta start_datetime end_datetime NANOSECONDS hp
      = Some (single_field NANOSECONDS
                (round53 (nanoseconds_of e0) - round53 (nanoseconds_of s0)),
              hp').
Proof.
  intros Hs He Hs0 Hsc Hs62 He0 Hec He62.
  assert (Hfwd : forall x : DateTime.t,
            0 <= DateTime.tmsp x ->
            DateTime.tmsp x < 2 ^ 53 \/ DateTime.type_ x = NANOSECONDS ->
            nanoseconds_of x <= 2 ^ 62 ->
            DateTime.convert_timestamp NANOSECONDS x
              = Some (DateTime.mk (round53 (nanoseconds_of x)) NANOSECONDS) /\
            exists V : Z,
              DateTime.convert_timestamp (DateTime.type_ x)
                (DateTime.mk (round53 (nanoseconds_of x)) NANOSECONDS)
                = Some (DateTime.mk V (DateTime.type_ x)) /\
              0 <= V <= 2 ^ 62).
  { intros x Hx0 Hxc Hx62.
    assert (Hty : 1 <= type_value (DateTime.type_ x) <= type_value NANOSECONDS)
      by (destruct (DateTime.type_ x); cbn; lia).
    assert (Hns0 : 0 <= nanoseconds_of x).
    { unfold nanoseconds_of. apply Z.mul_nonneg_nonneg; [lia |].
      apply Z.div_pos; lia. }
    split.
    - apply convert_timestamp_round53; try assumption; try lia.
      destruct Hxc as [H | H]; [left; exact H | right; congruence].
    - apply convert_timestamp_coarser_returns; cbn [DateTime.tmsp DateTime.type_].
      + pose proof (round53_near (nanoseconds_of x) ltac:(lia)). lia.
      + lia. }
  destruct (Hfwd s0 Hs0 Hsc Hs62) as [Hs1 (VS & Hs2 & HVS)].
  destruct (Hfwd e0 He0 Hec He62) as [He1 (VE & He2 & HVE)].
  assert (HnS : 0 <= nanoseconds_of s0).
  { unfold nanoseconds_of. apply Z.mul_nonneg_nonneg; [lia |].
    apply Z.div_pos; [lia | destruct (DateTime.type_ s0); cbn; lia]. }
  assert (HnE : 0 <= nanoseconds_of e0).
  { unfold nanoseconds_of. apply Z.mul_nonneg_nonneg; [lia |].
    apply Z.div_pos; [lia | destruct (DateTime.type_ e0); cbn; lia]. }
  destruct (round53_near (nanoseconds_of s0) ltac:(lia)) as [HRS _].
  destruct (round53_near (nanoseconds_of e0) ltac:(lia)) as [HRE _].
  destruct (decide (start_datetime = end_datetime)) as [-> | Hne].
  - assert (e0 = s0) by congruence. subst e0.
    set (U := round53 (nanoseconds_of s0)) in *.
    assert (H2 : DateTime.convert_timestamp NANOSECONDS (DateTime.mk U NANOSECONDS)
                 = Some (DateTime.mk (round53 U) NANOSECONDS)).
    { rewrite (convert_timestamp_round53 NANOSECONDS (DateTime.mk U NANOSECONDS));
        cbn [DateTime.tmsp DateTime.type_ type_value];
        change (1000000000 / 1000000000) with 1; rewrite ?Z.mul_1_r;
        try reflexivity; try lia.
      right. reflexivity. }
    destruct (round53_near U ltac:(lia)) as [HRU _].
    destruct (convert_timestamp_coarser_returns (DateTime.type_ s0)
                (DateTime.mk (round53 U) NANOSECONDS))
      as (V3 & H3 & HV3); cbn [DateTime.tmsp DateTime.type_];
      [lia | destruct (DateTime.type_ s0); cbn; lia |].
    destruct (convert_timestamp_coarser_returns (DateTime.type_ s0)
                (DateTime.mk V3 (DateTime.type_ s0)))
      as (V4 & H4 & HV4); cbn [DateTime.tmsp DateTime.type_]; [lia | lia |].
    eexists.
    rewrite (get_timedelta_run_alias _ _ _ _ _ _ _ _ He Hs1 H2 H3 H4).
    rewrite Z.sub_diag. reflexivity.
  - eexists.
    rewrite (get_timedelta_run _ _ _ _ _ _ _ _ _ _ Hne Hs He Hs1 He1 Hs2 He2).
    cbn [DateTime.tmsp]. unfold sub64. rewrite wrap64_small by lia.
    reflexivity.
Qed.

(** [get_year_fraction_from_datetimes], given what [get_timedelta]
    returns. *)
Lemma year_fraction_run (start_datetime end_datetime : loc)
    (dcc : DayCountConvention) (hp hp' : heap) (dt : TimeDelta.t) :
  get_timedelta start_datetime end_datetime NANOSECONDS hp = Some (dt, hp') ->
  let total_ns := TimeDelta.get_total_nanoseconds dt in
  let t := div (of_Z total_ns) (of_Z (year_in_ns dcc)) in
  ltb t zero = (total_ns <? 0) /\
  get_year_fraction_from_datetimes start_datetime end_datetime dcc hp
    = Some (if total_ns <? 0 then Throw NonPositiveYearFractionError
            else Ret t, hp').
Proof.
  intros Hdt total_ns t.
  assert (Hsign : ltb t zero = (total_ns <? 0))
    by apply div_year_ltb_zero, total_nanoseconds_range.
  split; [exact Hsign |]. rewrite <- Hsign.
  unfold get_year_fraction_from_datetimes. rewrite Hdt. cbn.
  fold total_ns.
  replace (mul64 (get_number_days_in_year dcc) (mul64 (24 * 60 * 60) 1000000000))
    with (year_in_ns dcc) by (destruct dcc; reflexivity).
  change (of_Z 0) with zero. fold t. unfold zero.
  destruct (ltb t (S754_zero false)); reflexivity.
Qed.

(** The same when the delta has its nanosecond field only. *)
Lemma year_fraction_of_delta (start_datetime end_datetime : loc)
    (dcc : DayCountConvention) (hp hp' : heap) (delta : Z) :
  - 2 ^ 63 <= delta < 2 ^ 63 ->
  get_timedelta start_datetime end_datetime NANOSECONDS hp
    = Some (single_field NANOSECONDS delta, hp') ->
  get_year_fraction_from_datetimes start_datetime end_datetime dcc hp
    = Some (if delta <? 0 then Throw NonPositiveYearFractionError
            else Ret (div (of_Z delta) (of_Z (year_in_ns dcc))), hp').
Proof.
  intros Hr Hdt.
  destruct (year_fraction_run _ _ dcc _ _ _ Hdt) as [_ Hcode].
  assert (Htot : TimeDelta.get_total_nanoseconds (single_field NANOSECONDS delta)
                 = delta).
  { assert (Hsub : sub64 delta 0 = delta)
      by (unfold sub64; rewrite Z.sub_0_r; apply wrap64_small; lia).
    rewrite <- Hsub. apply total_nanoseconds_single_field. }
  cbv zeta in Hcode. rewrite Htot in Hcode. exact Hcode.
Qed.

Lemma nanoseconds_of_nonneg (x : DateTime.t) :
  0 <= DateTime.tmsp x -> 0 <= nanoseconds_of x.
Proof.
  intros H. unfold nanoseconds_of. apply Z.mul_nonneg_nonneg; [exact H |].
  apply Z.div_pos; [lia | destruct (DateTime.type_ x); cbn; lia].
Qed.

(** C7, as the code has it.  [get_year_fraction_from_datetimes] divides
    the total nanoseconds of the delta that
    [get_timedelta start end NANOSECONDS] returns by the days of the year
    in nanoseconds; it throws NonPositiveYearFractionError exactly when the
    quotient compares below zero, which is exactly when that delta is
    negative, and returns the quotient otherwise; endpoints that hold the
    same DateTime give the quotient 0, which is returned.  For endpoints up
    to 2^62 ns whose ticks [double] holds exactly, or that are in
    nanoseconds already, the delta is the difference of the two timestamps
    in nanoseconds, each rounded to the nearest [double]: the error is
    thrown only when the end precedes the start, always when it does by
    more than 1024 ns, never when the two instants are equal, and below
    2^53 ns the difference is exact.  For endpoints whose ticks stay below
    2^50, in their own precision and in nanoseconds, the heap is moreover
    left as it was, and the error is thrown exactly when the end precedes
    the start. *)
Theorem year_fraction_value_and_error
    (start_datetime end_datetime : loc) (dcc : DayCountConvention) (hp : heap) :
  (forall (dt : TimeDelta.t) (hp' : heap),
     get_timedelta start_datetime end_datetime NANOSECONDS hp = Some (dt, hp') ->
     let total_ns := TimeDelta.get_total_nanoseconds dt in
     let t := div (of_Z total_ns) (of_Z (year_in_ns dcc)) in
     get_year_fraction_from_datetimes start_datetime end_datetime dcc hp
       = Some (if total_ns <? 0 then Throw NonPositiveYearFractionError
               else Ret t, hp') /\
     (get_year_fraction_from_datetimes start_datetime end_datetime dcc hp
        = Some (Throw NonPositiveYearFractionError, hp')
      <-> ltb t zero = true) /\
     (ltb t zero = true <-> total_ns < 0) /\
     (hp !! start_datetime = hp !! end_datetime ->
      total_ns = 0 /\
      get_year_fraction_from_datetimes start_datetime end_datetime dcc hp
        = Some (Ret zero, hp'))) /\
  (forall s0 e0 : DateTime.t,
     hp !! start_datetime = Some s0 ->
     hp !! end_datetime = Some e0 ->
     0 <= DateTime.tmsp s0 ->
     0 <= DateTime.tmsp e0 ->
     DateTime.tmsp s0 < 2 ^ 53 \/ DateTime.type_ s0 = NANOSECONDS ->
     DateTime.tmsp e0 < 2 ^ 53 \/ DateTime.type_ e0 = NANOSECONDS ->
     nanoseconds_of s0 <= 2 ^ 62 ->
     nanoseconds_of e0 <= 2 ^ 62 ->
     let total_ns := round53 (nanoseconds_of e0) - round53 (nanoseconds_of s0) in
     exists hp' : heap,
       get_year_fraction_from_datetimes start_datetime end_datetime dcc hp
         = Some (if total_ns <? 0 then Throw NonPositiveYearFractionError
                 else Ret (div (of_Z total_ns) (of_Z (year_in_ns dcc))), hp') /\
       (get_year_fraction_from_datetimes start_datetime end_datetime dcc hp
          = Some (Throw NonPositiveYearFractionError, hp')
        -> nanoseconds_of e0 < nanoseconds_of s0) /\
       (nanoseconds_of e0 + 1024 < nanoseconds_of s0 ->
        get_year_fraction_from_datetimes start_datetime end_datetime dcc hp
          = Some (Throw NonPositiveYearFractionError, hp')) /\
       (nanoseconds_of e0 = nanoseconds_of s0 ->
        get_year_fraction_from_datetimes start_datetime end_datetime dcc hp
          = Some (Ret zero, hp')) /\
       (nanoseconds_of s0 < 2 ^ 53 -> nanoseconds_of e0 < 2 ^ 53 ->
        total_ns = nanoseconds_of e0 - nanoseconds_of s0)) /\
  (forall s0 e0 : DateTime.t,
     hp !! start_datetime = Some s0 ->
     hp !! end_datetime = Some e0 ->
     0 <= DateTime.tmsp s0 < 2 ^ 50 ->
     DateTime.tmsp s0 * 1000000000 < 2 ^ 50 * type_value (DateTime.type_ s0) ->
     0 <= DateTime.tmsp e0 < 2 ^ 50 ->
     DateTime.tmsp e0 * 1000000000 < 2 ^ 50 * type_value (DateTime.type_ e0) ->
     let total_ns := nanoseconds_of e0 - nanoseconds_of s0 in
     get_year_fraction_from_datetimes start_datetime end_datetime dcc hp
       = Some (if total_ns <? 0 then Throw NonPositiveYearFractionError
               else Ret (div (of_Z total_ns) (of_Z (year_in_ns dcc))), hp) /\
     (get_year_fraction_from_datetimes start_datetime end_datetime dcc hp
        = Some (Throw NonPositiveYearFractionError, hp)
      <-> nanoseconds_of e0 < nanoseconds_of s0) /\
     (nanoseconds_of e0 = nanoseconds_of s0 ->
      get_year_fraction_from_datetimes start_datetime end_datetime dcc hp
        = Some (Ret zero, hp))).
Proof.
  split; [| split].
  - intros dt hp' Hdt total_ns t.
    destruct (year_fraction_run _ _ dcc _ _ _ Hdt) as [Hsign Hcode].
    fold total_ns t in Hsign, Hcode.
    split; [exact Hcode |].
    split; [| split].
    + rewrite Hcode, Hsign. destruct (total_ns <? 0); split; intros H;
        try reflexivity; discriminate H.
    + rewrite Hsign. apply Z.ltb_lt.
    + intros Hsame.
      assert (H0 : total_ns = 0).
      { unfold total_ns.
        apply get_timedelta_inv in Hdt
          as (s0 & e0 & hp1 & hp2 & hp3 & s2 & e2
              & Hs0 & He0 & H1 & H2 & Hs2 & He2 & _ & _ & ->).
        rewrite total_nanoseconds_single_field.
        assert (s2 = e2) as ->; [| unfold sub64; rewrite Z.sub_diag; reflexivity].
        destruct (decide (start_datetime = end_datetime)) as [-> | Hne];
          [congruence |].
        destruct (call_self _ _ _ _ H1) as (y & y1 & Hy & Hy1 & Hy1').
        destruct (call_self _ _ _ _ H2) as (z & z1 & Hz & Hz1 & Hz1').
        rewrite (call_other _ _ _ _ _ H1) in Hz by congruence.
        rewrite (call_other _ _ _ _ _ H2) in Hs2 by congruence.
        congruence. }
      split; [exact H0 |].
      rewrite Hcode. unfold t. rewrite H0. destruct dcc; reflexivity.
  - intros s0 e0 Hs He Hs0 He0 Hsc Hec Hs62 He62 total_ns.
    destruct (get_timedelta_nanoseconds_round53 _ _ _ _ _
                Hs He Hs0 Hsc Hs62 He0 Hec He62) as [hp' Hdt].
    fold total_ns in Hdt.
    pose proof (nanoseconds_of_nonneg s0 Hs0) as HnS.
    pose proof (nanoseconds_of_nonneg e0 He0) as HnE.
    set (ns_start := nanoseconds_of s0) in *. set (ns_end := nanoseconds_of e0) in *.
    destruct (round53_near ns_start ltac:(lia)) as [HRS HerrS].
    destruct (round53_near ns_end ltac:(lia)) as [HRE HerrE].
    assert (Hcode := year_fraction_of_delta _ _ dcc _ _ total_ns
                       ltac:(unfold total_ns; lia) Hdt).
    exists hp'. split; [exact Hcode |].
    split; [| split; [| split]].
    + rewrite Hcode. intros Hthrow.
      destruct (Z.ltb_spec total_ns 0) as [Hlt | Hge]; [| discriminate Hthrow].
      destruct (Z_lt_le_dec ns_end ns_start) as [L | G]; [exact L | exfalso].
      pose proof (round53_mono ns_start ns_end ltac:(lia)). unfold total_ns in Hlt. lia.
    + intros Hfar. rewrite Hcode.
      destruct (Z.ltb_spec total_ns 0) as [Hlt | Hge]; [reflexivity | exfalso].
      unfold total_ns in Hge. lia.
    + intros Heq. rewrite Hcode.
      replace total_ns with 0 by (unfold total_ns; rewrite Heq; lia).
      destruct dcc; reflexivity.
    + intros HS53 HE53. unfold total_ns.
      rewrite !round53_exact by lia. reflexivity.
  - intros s0 e0 Hs He Hs50 Hsc He50 Hec total_ns.
    destruct (get_timedelta_nanoseconds_exact _ _ _ _ _ Hs He Hs50 Hsc He50 Hec)
      as [Hrange Hdt].
    fold total_ns in Hrange, Hdt.
    assert (Hcode := year_fraction_of_delta _ _ dcc _ _ total_ns ltac:(lia) Hdt).
    split; [exact Hcode |]. split.
    + rewrite Hcode. destruct (Z.ltb_spec total_ns 0) as [Hlt | Hge].
      * split; [intros _; unfold total_ns in Hlt; lia | reflexivity].
      * split; [discriminate | intros Hlt; unfold total_ns in Hge; lia].
    + intros Heq. rewrite Hcode.
      replace total_ns with 0 by (unfold total_ns; lia).
      destruct dcc; reflexivity.
Qed.

(** The theorem under ACT/365.  From 2024-01-02 to 2024-01-01, in
    seconds: the error; the other way round: one day of 365.  At 100 s and
    50 s: the error from the later to the earlier, the quotient the other
    way round, 0 on one object given twice, the heap unchanged.  From
    2024-01-01 00:00:00.000000001 to 2024-01-02, in nanoseconds, where the
    conversion through [double] loses the nanosecond of the start: one day
    of 365. *)
Lemma year_fraction_value_and_error_witness :
  let hd := [DateTime.mk 1704153600 SECONDS; DateTime.mk 1704067200 SECONDS] in
  let hp := [DateTime.mk 100 SECONDS; DateTime.mk 50 SECONDS] in
  let hq := [DateTime.mk 1704067200000000001 NANOSECONDS;
             DateTime.mk 1704153600000000000 NANOSECONDS] in
  let hq' := [DateTime.mk 1704067200000000000 NANOSECONDS;
              DateTime.mk 1704153600000000000 NANOSECONDS] in
  (exists hd' : heap,
     get_year_fraction_from_datetimes 0%nat 1%nat ACT365 hd
       = Some (Throw NonPositiveYearFractionError, hd')) /\
  (exists hd' : heap,
     get_year_fraction_from_datetimes 1%nat 0%nat ACT365 hd
       = Some (Ret (div (of_Z 86400000000000) (of_Z 31536000000000000)), hd')) /\
  get_year_fraction_from_datetimes 0%nat 1%nat ACT365 hp
    = Some (Throw NonPositiveYearFractionError, hp) /\
  get_year_fraction_from_datetimes 1%nat 0%nat ACT365 hp
    = Some (Ret (div (of_Z 50000000000) (of_Z 31536000000000000)), hp) /\
  get_year_fraction_from_datetimes 1%nat 1%nat ACT365 hp
    = Some (Ret zero, hp) /\
  get_timedelta 0%nat 1%nat NANOSECONDS hq
    = Some (single_field NANOSECONDS 86400000000000, hq') /\
  get_year_fraction_from_datetimes 0%nat 1%nat ACT365 hq
    = Some (Ret (div (of_Z 86400000000000) (of_Z 31536000000000000)), hq').
Proof.
  cbv zeta.
  set (d2 := DateTime.mk 1704153600 SECONDS).
  set (d1 := DateTime.mk 1704067200 SECONDS).
  set (hp := [DateTime.mk 100 SECONDS; DateTime.mk 50 SECONDS]).
  assert (Hd2 : 0 <= DateTime.tmsp d2) by (cbn; lia).
  assert (Hd1 : 0 <= DateTime.tmsp d1) by (cbn; lia).
  assert (Hd2c : DateTime.tmsp d2 < 2 ^ 53 \/ DateTime.type_ d2 = NANOSECONDS)
    by (left; cbn; lia).
  assert (Hd1c : DateTime.tmsp d1 < 2 ^ 53 \/ DateTime.type_ d1 = NANOSECONDS)
    by (left; cbn; lia).
  assert (Hd2n : nanoseconds_of d2 <= 2 ^ 62) by (vm_compute; discriminate).
  assert (Hd1n : nanoseconds_of d1 <= 2 ^ 62) by (vm_compute; discriminate).
  assert (Hday : round53 (nanoseconds_of d2) - round53 (nanoseconds_of d1)
                 = 86400000000000) by (vm_compute; reflexivity).
  assert (H100 : 0 <= 100 < 2 ^ 50) by lia.
  assert (H50 : 0 <= 50 < 2 ^ 50) by lia.
  assert (H100c : 100 * 1000000000 < 2 ^ 50 * 1) by lia.
  assert (H50c : 50 * 1000000000 < 2 ^ 50 * 1) by lia.
  assert (Hdt : get_timedelta 0%nat 1%nat NANOSECONDS
                  [DateTime.mk 1704067200000000001 NANOSECONDS;
                   DateTime.mk 1704153600000000000 NANOSECONDS]
                = Some (single_field NANOSECONDS 86400000000000,
                        [DateTime.mk 1704067200000000000 NANOSECONDS;
                         DateTime.mk 1704153600000000000 NANOSECONDS]))
    by (vm_compute; reflexivity).
  split; [| split; [| split; [| split; [| split; [| split; [exact Hdt |]]]]]].
  - destruct (proj1 (proj2 (year_fraction_value_and_error 0%nat 1%nat ACT365 [d2; d1]))
                d2 d1 eq_refl eq_refl Hd2 Hd1 Hd2c Hd1c Hd2n Hd1n)
      as (hd' & _ & _ & Hthrow & _).
    exists hd'. apply Hthrow. vm_compute. reflexivity.
  - destruct (proj1 (proj2 (year_fraction_value_and_error 1%nat 0%nat ACT365 [d2; d1]))
                d1 d2 eq_refl eq_refl Hd1 Hd2 Hd1c Hd2c Hd1n Hd2n)
      as (hd' & Hcode & _).
    exists hd'. cbv zeta in Hcode. rewrite Hday in Hcode. exact Hcode.
  - exact (proj1 (proj2 (proj2 (year_fraction_value_and_error 0%nat 1%nat ACT365 hp))
                    (DateTime.mk 100 SECONDS) (DateTime.mk 50 SECONDS)
                    eq_refl eq_refl H100 H100c H50 H50c)).
  - exact (proj1 (proj2 (proj2 (year_fraction_value_and_error 1%nat 0%nat ACT365 hp))
                    (DateTime.mk 50 SECONDS) (DateTime.mk 100 SECONDS)
                    eq_refl eq_refl H50 H50c H100 H100c)).
  - exact (proj2 (proj2 (proj2 (proj2 (year_fraction_value_and_error 1%nat 1%nat ACT365 hp))
                    (DateTime.mk 50 SECONDS) (DateTime.mk 50 SECONDS)
                    eq_refl eq_refl H50 H50c H50 H50c)) eq_refl).
  - exact (proj1 (proj1 (year_fraction_value_and_error 0%nat 1%nat ACT365 _) _ _ Hdt)).
Defined.

(** C7 is false as stated.  A start one nanosecond after the end: the
    conversion of both timestamps through [double] rounds the later one
    down, the difference is 0 and the year fraction 0 is returned, not the
    error. *)
Lemma year_fraction_end_just_before_start :
  let hp := [DateTime.mk 1704067200000000001 NANOSECONDS;
             DateTime.mk 1704067200000000000 NANOSECONDS] in
  (DateTime.tmsp <$> hp !! 0%nat) = Some 1704067200000000001 /\
  (DateTime.tmsp <$> hp !! 1%nat) = Some 1704067200000000000 /\
  round53 1704067200000000001 = 1704067200000000000 /\
  get_year_fraction_from_datetimes 0%nat 1%nat ACT365 hp
    = Some (Ret zero,
            [DateTime.mk 1704067200000000000 NANOSECONDS;
             DateTime.mk 1704067200000000000 NANOSECONDS]).
Proof.
  cbv zeta. split; [reflexivity | split; [reflexivity | split]];
    vm_compute; reflexivity.
Qed.

(** ** Tenors and day counts *)

(** C8: for every tenor and every day-count convention,
    [get_tenor_year_fraction] is the integer (truncating) quotient of
    [get_tenor_in_days] by [get_number_days_in_year], converted to
    [double]; a tenor of fewer days than the year yields 0. *)
Theorem get_tenor_year_fraction_integer_division
    (tenor : Tenor) (dcc : DayCountConvention) :
  exists days : Z,
    get_tenor_in_days tenor dcc = Some days /\
    get_tenor_year_fraction tenor dcc
      = Some (of_Z (Z.quot days (get_number_days_in_year dcc))) /\
    (days < get_number_days_in_year dcc ->
     get_tenor_year_fraction tenor dcc = Some zero).
Proof.
  destruct tenor, dcc;
    (eexists; split; [vm_compute; reflexivity |];
     split; [vm_compute; reflexivity |];
     first [ intros _; vm_compute; reflexivity
           | intros Hlt; exfalso; vm_compute in Hlt; discriminate Hlt ]).
Qed.

(** ** Date sequences *)

(** Objects allocated later do not change what a call does. *)
Lemma call_app f p (hp ext : heap) :
  (p < length hp)%nat ->
  call f p (hp ++ ext) = extend ext (call f p hp).
Proof.
  intros Hp. unfold call.
  rewrite lookup_app_l by exact Hp.
  destruct (hp !! p) as [x |]; cbn; [| reflexivity].
  destruct (f x) as [x' |]; cbn; [| reflexivity].
  rewrite insert_app_l by exact Hp. reflexivity.
Qed.

Lemma call_app_Some f p (hp ext h' : heap) :
  (p < length hp)%nat ->
  call f p (hp ++ ext) = Some h' ->
  exists hp', call f p hp = Some hp' /\ h' = hp' ++ ext.
Proof.
  intros Hp. rewrite call_app by exact Hp.
  destruct (call f p hp) as [hp' |]; cbn; [| discriminate].
  intros [= <-]. eauto.
Qed.

Lemma get_timedelta_app start_datetime end_datetime delta_type
    (hp ext h' : heap) (dt : TimeDelta.t) :
  (start_datetime < length hp)%nat ->
  (end_datetime < length hp)%nat ->
  get_timedelta start_datetime end_datetime delta_type (hp ++ ext) = Some (dt, h') ->
  exists hp',
    get_timedelta start_datetime end_datetime delta_type hp = Some (dt, hp') /\
    h' = hp' ++ ext.
Proof.
  intros Hs He H.
  apply get_timedelta_inv in H
    as (s0 & e0 & h1 & h2 & h3 & s2 & e2
        & Hs0 & He0 & H1 & H2 & Hs2 & He2 & H3 & H4 & ->).
  rewrite lookup_app_l in Hs0, He0 by assumption.
  apply call_app_Some in H1 as (hp1 & H1 & ->); [| exact Hs].
  pose proof (call_length _ _ _ _ H1) as L1.
  apply call_app_Some in H2 as (hp2 & H2 & ->); [| lia].
  pose proof (call_length _ _ _ _ H2) as L2.
  rewrite lookup_app_l in Hs2, He2 by lia.
  apply call_app_Some in H3 as (hp3 & H3 & ->); [| lia].
  pose proof (call_length _ _ _ _ H3) as L3.
  apply call_app_Some in H4 as (hp4 & H4 & ->); [| lia].
  exists hp4. split; [| reflexivity].
  unfold get_timedelta.
  rewrite Hs0, He0. cbn. rewrite H1. cbn. rewrite H2. cbn.
  rewrite He2, Hs2. cbn.
  unfold DateTime.get_timestamp_type. rewrite H3. cbn. rewrite H4. cbn.
  destruct delta_type; reflexivity.
Qed.

Lemma sequence_length_app start_datetime end_datetime frequency_tenor dcc
    (hp ext h' : heap) (n : Z) :
  (start_datetime < length hp)%nat ->
  (end_datetime < length hp)%nat ->
  sequence_length_from_frequency_tenor
    start_datetime end_datetime frequency_tenor dcc (hp ++ ext) = Some (n, h') ->
  exists hp',
    sequence_length_from_frequency_tenor
      start_datetime end_datetime frequency_tenor dcc hp = Some (n, hp') /\
    h' = hp' ++ ext /\ length hp' = length hp.
Proof.
  intros Hs He. unfold sequence_length_from_frequency_tenor.
  destruct (get_tenor_in_timedelta _ _) as [freq_dt |]; cbn; [| discriminate].
  destruct (get_timedelta _ _ _ (hp ++ ext)) as [[dt h1] |] eqn:Hg; cbn;
    [| discriminate].
  apply get_timedelta_app in Hg as (hp1 & Hg & ->); try assumption.
  rewrite Hg. cbn.
  destruct (TimeDelta.get_total_seconds dt) as [a |]; cbn; [| discriminate].
  destruct (TimeDelta.get_total_seconds freq_dt) as [b |]; cbn; [| discriminate].
  destruct (to_int _) as [n' |]; cbn; [| discriminate].
  intros [= <- <-]. exists hp1. repeat split.
  apply get_timedelta_inv in Hg
    as (s0 & e0 & h1 & h2 & h3 & s2 & e2
        & _ & _ & H1 & H2 & _ & _ & H3 & H4 & _).
  rewrite (call_length _ _ _ _ H4), (call_length _ _ _ _ H3),
    (call_length _ _ _ _ H2), (call_length _ _ _ _ H1). reflexivity.
Qed.

(** The loop of [generate_datetime_sequence]: each iteration advances the
    object at [next_datetime] by the delta and appends a pointer to a new
    copy of it. *)
Lemma sequence_loop_inv (iters : nat) :
  forall (next_datetime : loc) (dt_ptr : TimeDelta.t) (output : list loc)
         (hp : heap) (xn : DateTime.t) (out' : list loc) (hp' : heap),
    hp !! next_datetime = Some xn ->
    sequence_loop iters next_datetime dt_ptr output hp = Some (out', hp') ->
    exists interior : list loc,
      out' = output ++ interior /\
      length interior = iters /\
      (forall p : loc,
         (p < length hp)%nat -> p <> next_datetime -> hp' !! p = hp !! p) /\
      (forall k : nat,
         (k < iters)%nat ->
         exists xk,
           interior !! k = Some (length hp + k)%nat /\
           hp' !! (length hp + k)%nat = Some xk /\
           iter_apply (S k) dt_ptr xn = Some xk).
Proof.
  induction iters as [| iters IH];
    intros next_datetime dt_ptr output hp xn out' hp' Hnext Hloop.
  - cbn in Hloop. injection Hloop as <- <-.
    exists []. rewrite app_nil_r. repeat split; try reflexivity.
    intros k Hk. lia.
  - cbn [sequence_loop] in Hloop.
    destruct (call _ next_datetime hp) as [hp1 |] eqn:Hcall; cbn in Hloop;
      [| discriminate].
    destruct (call_self _ _ _ _ Hcall) as (y & x1 & Hy & Hx1 & Hx1').
    assert (y = xn) as -> by congruence.
    pose proof (call_length _ _ _ _ Hcall) as Hlen.
    rewrite Hx1' in Hloop. cbn in Hloop.
    assert (Hlt : (next_datetime < length hp1)%nat)
      by (eapply lookup_lt_Some, Hx1').
    specialize (IH next_datetime dt_ptr (output ++ [length hp1]) (hp1 ++ [x1])
                  x1 out' hp').
    rewrite lookup_app_l in IH by exact Hlt.
    destruct (IH Hx1' Hloop) as (interior & -> & Hlen' & Hframe & Hpts).
    exists (length hp1 :: interior).
    rewrite <- app_assoc. cbn [app]. rewrite length_app in Hframe. cbn in Hframe.
    split; [reflexivity |]. split; [cbn; lia |].
    assert (Hnew : hp' !! length hp1 = Some x1).
    { rewrite Hframe by lia. rewrite lookup_app_r by lia.
      rewrite Nat.sub_diag. reflexivity. }
    split.
    + intros p Hp Hne. rewrite Hframe by lia.
      rewrite lookup_app_l by lia.
      eapply call_other; [eassumption | congruence].
    + intros [| k] Hk.
      * exists x1. rewrite Nat.add_0_r, <- Hlen. cbn [lookup list_lookup].
        repeat split; [exact Hnew |].
        cbn. rewrite Hx1. reflexivity.
      * destruct (Hpts k ltac:(lia)) as (xk & Hk1 & Hk2 & Hk3).
        rewrite length_app in Hk1, Hk2. cbn in Hk1, Hk2.
        exists xk.
        replace (length hp + S k)%nat with (length hp1 + 1 + k)%nat by lia.
        repeat split; [exact Hk1 | exact Hk2 |].
        cbn [iter_apply]. rewrite Hx1. exact Hk3.
Qed.

(** C9: [generate_datetime_sequence] computes the number of periods [n]
    with [sequence_length_from_frequency_tenor] and returns the pointer
    to the start when [include_start] is set, then [n - 1] pointers to
    new objects, the [k]-th of which holds the start advanced [k] times by
    the frequency's delta (k = 1 .. n-1), then the pointer to the end when
    [include_end] is set; there is no new object when [n <= 1]. *)
Theorem generate_datetime_sequence_points
    (start_datetime end_datetime : loc) (frequency_tenor : Tenor)
    (dcc : DayCountConvention) (include_start include_end : bool)
    (hp hp' : heap) (x0 xe : DateTime.t) (output : list loc)
    (Hstart : hp !! start_datetime = Some x0)
    (Hend : hp !! end_datetime = Some xe)
    (Hret : generate_datetime_sequence start_datetime frequency_tenor dcc
              include_start include_end end_datetime hp = Some (output, hp')) :
  exists (dt_ptr : TimeDelta.t) (n : Z) (hp2 : heap) (interior : list loc),
    get_tenor_in_timedelta frequency_tenor dcc = Some dt_ptr /\
    sequence_length_from_frequency_tenor
      start_datetime end_datetime frequency_tenor dcc hp = Some (n, hp2) /\
    output = (if include_start then [start_datetime] else [])
               ++ interior
               ++ (if include_end then [end_datetime] else []) /\
    length interior = Z.to_nat (n - 1) /\
    (n <= 1 -> interior = []) /\
    (forall k : nat,
       (k < length interior)%nat ->
       exists (p : loc) (xk : DateTime.t),
         interior !! k = Some p /\
         (length hp < p)%nat /\
         hp' !! p = Some xk /\
         iter_apply (S k) dt_ptr x0 = Some xk) /\
    (forall p : loc, (p < length hp)%nat -> hp' !! p = hp2 !! p).
Proof.
  unfold generate_datetime_sequence in Hret.
  destruct (get_tenor_in_timedelta frequency_tenor dcc) as [dt_ptr |];
    cbn in Hret; [| discriminate].
  rewrite Hstart in Hret. cbn in Hret.
  destruct (sequence_length_from_frequency_tenor _ _ _ _ (hp ++ [x0]))
    as [[n h2] |] eqn:Hn; cbn in Hret; [| discriminate].
  apply sequence_length_app in Hn as (hp2 & Hn & -> & Hlen2);
    [| eapply lookup_lt_Some, Hstart | eapply lookup_lt_Some, Hend].
  destruct (sequence_loop _ _ _ _ _) as [[out hp3] |] eqn:Hloop;
    cbn in Hret; [| discriminate].
  injection Hret as <- <-.
  assert (Hnext : (hp2 ++ [x0]) !! length hp = Some x0).
  { rewrite lookup_app_r by lia. rewrite Hlen2, Nat.sub_diag. reflexivity. }
  destruct (sequence_loop_inv _ _ _ _ _ _ _ _ Hnext Hloop)
    as (interior & -> & Hlen & Hframe & Hpts).
  rewrite length_app in Hframe, Hpts. cbn in Hframe, Hpts.
  exists dt_ptr, n, hp2, interior.
  split; [reflexivity |]. split; [exact Hn |].
  split; [destruct include_start, include_end; cbn;
          rewrite ?app_nil_r; reflexivity |].
  split; [exact Hlen |].
  split.
  - intros Hle. destruct interior; [reflexivity |]. cbn in Hlen. lia.
  - split.
    + intros k Hk. rewrite Hlen in Hk.
      destruct (Hpts k Hk) as (xk & H1 & H2 & H3).
      exists (length hp2 + 1 + k)%nat, xk.
      repeat split; try assumption. lia.
    + intros p Hp. rewrite Hframe by lia.
      apply lookup_app_l. lia.
Qed.

(** The theorem at the scenario of the specification: from 2024-01-01 to
    2024-04-01 (in seconds since the epoch), monthly under ACT/365, both
    endpoints included.  The sequence has 4 points: the start, two new
    objects 30 and 60 days after it, and the end. *)
Lemma generate_datetime_sequence_points_witness :
  let hp := [DateTime.mk 1704067200 SECONDS; DateTime.mk 1711929600 SECONDS] in
  let hp' := [DateTime.mk 1704067200 SECONDS; DateTime.mk 1711929600 SECONDS;
              DateTime.mk 1709251200 SECONDS;
              DateTime.mk 1706659200 SECONDS; DateTime.mk 1709251200 SECONDS] in
  generate_datetime_sequence 0%nat _1M ACT365 true true 1%nat hp
    = Some ([0; 3; 4; 1]%nat, hp') /\
  exists (dt_ptr : TimeDelta.t) (n : Z) (hp2 : heap) (interior : list loc),
    get_tenor_in_timedelta _1M ACT365 = Some dt_ptr /\
    sequence_length_from_frequency_tenor 0%nat 1%nat _1M ACT365 hp = Some (n, hp2) /\
    [0; 3; 4; 1]%nat = [0%nat] ++ interior ++ [1%nat] /\
    length interior = Z.to_nat (n - 1) /\
    (n <= 1 -> interior = []) /\
    (forall k : nat,
       (k < length interior)%nat ->
       exists (p : loc) (xk : DateTime.t),
         interior !! k = Some p /\
         (length hp < p)%nat /\
         hp' !! p = Some xk /\
         iter_apply (S k) dt_ptr (DateTime.mk 1704067200 SECONDS) = Some xk) /\
    (forall p : loc, (p < length hp)%nat -> hp' !! p = hp2 !! p).
Proof.
  cbv zeta.
  assert (H : generate_datetime_sequence 0%nat _1M ACT365 true true 1%nat
                [DateTime.mk 1704067200 SECONDS; DateTime.mk 1711929600 SECONDS]
              = Some ([0; 3; 4; 1]%nat,
                      [DateTime.mk 1704067200 SECONDS; DateTime.mk 1711929600 SECONDS;
                       DateTime.mk 1709251200 SECONDS;
                       DateTime.mk 1706659200 SECONDS; DateTime.mk 1709251200 SECONDS]))
    by (vm_compute; reflexivity).
  split; [exact H |].
  exact (generate_datetime_sequence_points
           0%nat 1%nat _1M ACT365 true true
           [DateTime.mk 1704067200 SECONDS; DateTime.mk 1711929600 SECONDS] _
           (DateTime.mk 1704067200 SECONDS) (DateTime.mk 1711929600 SECONDS)
           _ eq_refl eq_refl H).
Defined.

(** ** Construction of an interpolation axis *)

Lemma increasing_tail a l : increasing (a :: l) -> increasing l.
Proof. destruct l; simpl; tauto. Qed.

Lemma map_insert_head k v mp :
  match map_insert k v mp with
  | [] => False
  | (k0, _) :: _ => k0 = k \/ exists v0 mp', mp = (k0, v0) :: mp'
  end.
Proof.
  destruct mp as [| [k' v'] mp']; simpl; [now left |].
  destruct (ltb k k'); [now left |].
  destruct (ltb k' k); right; eauto.
Qed.

Lemma map_insert_increasing k v mp :
  increasing (map fst mp) -> increasing (map fst (map_insert k v mp)).
Proof.
  induction mp as [| [k' v'] mp' IH]; simpl; [trivial |].
  intros Hinc.
  destruct (ltb k k') eqn:Hlt; [simpl; auto |].
  destruct (ltb k' k) eqn:Hgt; [| exact Hinc].
  specialize (IH (increasing_tail _ _ Hinc)).
  pose proof (map_insert_head k v mp') as Hhd.
  change (map fst ((k', v') :: map_insert k v mp'))
    with (k' :: map fst (map_insert k v mp')).
  destruct (map_insert k v mp') as [| [k0 v0] rest]; [contradiction |].
  simpl. split; [| exact IH].
  destruct Hhd as [-> | (v1 & mp1 & ->)]; [exact Hgt |].
  simpl in Hinc. tauto.
Qed.

(** A [std::map] iterates in strictly increasing key order, in whatever
    order its entries were given. *)
Lemma map_of_list_increasing (l : list (double * double)) :
  increasing (map fst (map_of_list l)).
Proof.
  unfold map_of_list.
  assert (H : forall mp, increasing (map fst mp) ->
            increasing (map fst (fold_left
              (fun mp kv => map_insert (fst kv) (snd kv) mp) l mp))).
  { induction l as [| [k v] l IH]; simpl; [trivial |].
    intros mp Hmp. apply IH, map_insert_increasing, Hmp. }
  apply H. exact I.
Qed.

(** C5, as the code has it: construction fails with
    Interpolation2DMinimalVectorSize exactly when the mapping has fewer
    than 2 entries and never fails with Interpolation2DWrongXaxis; with 2
    entries or more [get_x_values] returns the keys in iteration order,
    and that order is strictly increasing for every map, whatever the
    order its entries were written in. *)
Theorem interpolation_construction_errors
    (indeterminate : double) (mapped_x_y : map_double) :
  (Interpolation2D.new indeterminate mapped_x_y
     = Some (Throw Interpolation2DMinimalVectorSize)
   <-> (length mapped_x_y < 2)%nat) /\
  Interpolation2D.new indeterminate mapped_x_y
    <> Some (Throw Interpolation2DWrongXaxis) /\
  ((2 <= length mapped_x_y)%nat ->
   Interpolation2D.get_x_values mapped_x_y = Some (Ret (map fst mapped_x_y))) /\
  (forall l : list (double * double), increasing (map fst (map_of_list l))).
Proof.
  assert (Hnew : (length mapped_x_y < 2)%nat /\
            Interpolation2D.new indeterminate mapped_x_y
              = Some (Throw Interpolation2DMinimalVectorSize) \/
          (2 <= length mapped_x_y)%nat /\
            Interpolation2D.get_x_values mapped_x_y
              = Some (Ret (map fst mapped_x_y)) /\
            (Interpolation2D.new indeterminate mapped_x_y = None \/
             Interpolation2D.new indeterminate mapped_x_y
               = Some (Throw std_length_error) \/
             exists obj, Interpolation2D.new indeterminate mapped_x_y
               = Some (Ret obj))).
  { unfold Interpolation2D.new, Interpolation2D.get_x_values.
    cbv zeta. change (0 <? 0)%nat with false. cbn [mbind option_bind].
    rewrite length_map.
    destruct (Nat.ltb_spec (length mapped_x_y) 2) as [Hlt | Hge].
    - left. split; [exact Hlt | reflexivity].
    - right. split; [exact Hge |]. split; [reflexivity |].
      cbn [mbind option_bind].
      destruct (min_element _) as [lo |]; cbn; [| now left].
      destruct (to_size_t lo) as [n |]; cbn; [| now left].
      destruct (vector_max_size <? n); [right; now left |].
      destruct (max_element _); cbn; [right; right; eauto | now left]. }
  split; [| split; [| split]].
  - destruct Hnew as [[Hlt ->] | (Hge & _ & [-> | [-> | [obj ->]]])];
      split; intros H; try discriminate H; try reflexivity; try lia.
  - destruct Hnew as [[Hlt ->] | (Hge & _ & [-> | [-> | [obj ->]]])];
      discriminate.
  - destruct Hnew as [[Hlt _] | (_ & Hx & _)]; [lia | intros _; exact Hx].
  - apply map_of_list_increasing.
Qed.

(** C5 is false as stated: the mapping written [{2:1, 1:2}] is iterated
    as 1, 2 and the constructor returns an object (with one zero for [y],
    the smallest key being 1). *)
Lemma decreasing_keys_construct :
  map_of_list [(of_Z 2, of_Z 1); (of_Z 1, of_Z 2)]
    = [(of_Z 1, of_Z 2); (of_Z 2, of_Z 1)] /\
  Interpolation2D.new zero (map_of_list [(of_Z 2, of_Z 1); (of_Z 1, of_Z 2)])
    = Some (Ret (Interpolation2D.mk
                   [(of_Z 1, of_Z 2); (of_Z 2, of_Z 1)]
                   [of_Z 1; of_Z 2] [zero] zero (of_Z 2))) /\
  Interpolation2D.new zero (map_of_list [(of_Z 2, of_Z 1); (of_Z 1, of_Z 2)])
    <> Some (Throw Interpolation2DWrongXaxis).
Proof. repeat split; try (vm_compute; reflexivity). vm_compute. discriminate. Qed.

(** ** Linear interpolation *)

Lemma lookup_map_fst (mp : map_double) (i : nat) :
  map fst mp !! i = option_map fst (mp !! i).
Proof.
  revert i. induction mp as [| kv mp IH]; intros [| i]; cbn; auto.
Qed.

Lemma increasing_head_lt a l b :
  increasing (a :: l) -> In b l -> ltb a b = true.
Proof.
  revert a. induction l as [| c l IH]; intros a Hinc Hin; [destruct Hin |].
  destruct Hinc as [Hac Hinc]. destruct Hin as [<- | Hin]; [exact Hac |].
  eapply ltb_trans; [exact Hac |]. apply IH; assumption.
Qed.

(** In a map with increasing keys, [at] finds the value stored with each
    key. *)
Lemma map_at_lookup (mp : map_double) (i : nat) (k v : double) :
  increasing (map fst mp) -> mp !! i = Some (k, v) -> map_at mp k = Ret v.
Proof.
  revert i. induction mp as [| [k' v'] mp IH]; intros i Hinc Hi;
    [destruct i; discriminate Hi |].
  destruct i as [| i]; cbn in Hi |- *.
  - injection Hi as -> ->. rewrite ltb_irrefl. reflexivity.
  - assert (Hlt : ltb k' k = true).
    { apply (increasing_head_lt k' (map fst mp)); [exact Hinc |].
      apply (in_map fst mp (k, v)).
      eapply list_elem_of_In, list_elem_of_lookup_2, Hi. }
    rewrite Hlt, orb_true_r. eapply IH; [| exact Hi].
    eapply increasing_tail, Hinc.
Qed.

Lemma max_element_from_increasing best l :
  increasing (best :: l) -> Some (max_element_from best l) = last (best :: l).
Proof.
  revert best. induction l as [| v l IH]; intros best Hinc; [reflexivity |].
  destruct Hinc as [Hlt Hinc]. cbn [max_element_from]. rewrite Hlt.
  rewrite (IH v Hinc). symmetry. apply last_cons_cons.
Qed.

Lemma max_element_increasing l : increasing l -> max_element l = last l.
Proof.
  destruct l as [| v l]; [reflexivity |]. apply max_element_from_increasing.
Qed.

(** What a successful construction leaves in the members. *)
Lemma new_inv indeterminate (mp : map_double) (obj : Interpolation2D.t) :
  Interpolation2D.new indeterminate mp = Some (Ret obj) ->
  Interpolation2D.mapped_x_y obj = mp /\
  Interpolation2D.x obj = map fst mp /\
  Interpolation2D.x_min obj = indeterminate /\
  max_element (map fst mp) = Some (Interpolation2D.x_max obj) /\
  (2 <= length mp)%nat.
Proof.
  unfold Interpolation2D.new, Interpolation2D.get_x_values.
  cbv zeta. change (0 <? 0)%nat with false. cbn [mbind option_bind].
  rewrite length_map.
  destruct (Nat.ltb_spec (length mp) 2) as [Hlt | Hge]; cbn; [discriminate |].
  destruct (min_element _) as [lo |]; cbn; [| discriminate].
  destruct (to_size_t lo) as [n |]; cbn; [| discriminate].
  destruct (vector_max_size <? n); [discriminate |].
  destruct (max_element _) as [hi |]; cbn; [| discriminate].
  intros [= <-]. cbn. repeat split; auto.
Qed.

Section LinearEvaluate.

Import Interpolation2D LinearInterpolation2D.

Variables (self : Interpolation2D.t) (x_ hi : double).
Hypothesis Hinc : increasing (map fst (mapped_x_y self)).
Hypothesis Hx : x self = map fst (mapped_x_y self).
Hypothesis Hlast : last (x self) = Some hi.
Hypothesis Hhi : leb x_ hi = true.

Lemma increasing_lookup_lt (l : list double) (i : nat) (a b : double) :
  increasing l -> l !! i = Some a -> l !! S i = Some b -> ltb a b = true.
Proof.
  revert i. induction l as [| c l IH]; intros i Hl Ha Hb;
    [destruct i; discriminate Ha |].
  destruct i as [| i]; cbn in Ha, Hb.
  - injection Ha as ->. destruct l as [| d l]; [discriminate Hb |].
    injection Hb as ->. apply Hl.
  - eapply IH; [eapply increasing_tail, Hl | exact Ha | exact Hb].
Qed.

(** From a segment whose left key is not above [x_], the loop returns at
    the first segment that holds [x_], with the interpolation over it. *)
Lemma evaluate_loop_first (iters : nat) :
  forall (s : nat) (a : double),
    (0 < iters)%nat ->
    (S s + iters = length (x self))%nat ->
    x self !! s = Some a ->
    leb a x_ = true ->
    exists (j : nat) (x0 y0 x1 y1 : double),
      (s <= j)%nat /\
      mapped_x_y self !! j = Some (x0, y0) /\
      mapped_x_y self !! S j = Some (x1, y1) /\
      leb x0 x_ = true /\ leb x_ x1 = true /\
      (forall j' : nat, (s <= j' < j)%nat -> ~ holds self x_ j') /\
      evaluate_loop iters (S s) self x_
        = Some (Ret (linear_interpolate x0 y0 x1 y1 x_)).
Proof.
  induction iters as [| iters IH]; intros s a Hpos Hlen Ha Hle; [lia |].
  assert (Hb : exists b, x self !! S s = Some b).
  { apply lookup_lt_is_Some. lia. }
  destruct Hb as [b Hb].
  assert (Hstep : evaluate_loop (S iters) (S s) self x_
            = if leb x_ b
              then match map_at (mapped_x_y self) a, map_at (mapped_x_y self) b with
                   | Ret y0, Ret y1 => Some (Ret (linear_interpolate a y0 b y1 x_))
                   | Throw e, _ => Some (Throw e)
                   | _, Throw e => Some (Throw e)
                   end
              else evaluate_loop iters (S (S s)) self x_).
  { cbn [evaluate_loop]. replace (S s - 1)%nat with s by lia.
    rewrite Ha, Hb. cbn [mbind option_bind]. rewrite Hle. reflexivity. }
  rewrite Hstep. clear Hstep.
  destruct (leb x_ b) eqn:Hxb.
  - exists s.
    rewrite Hx, lookup_map_fst in Ha, Hb.
    destruct (mapped_x_y self !! s) as [[x0 y0] |] eqn:H0; [| discriminate Ha].
    destruct (mapped_x_y self !! S s) as [[x1 y1] |] eqn:H1; [| discriminate Hb].
    cbn in Ha, Hb. injection Ha as ->. injection Hb as ->.
    exists a, y0, b, y1.
    rewrite (map_at_lookup _ _ _ _ Hinc H0), (map_at_lookup _ _ _ _ Hinc H1).
    repeat split; auto. intros j' Hj'. lia.
  - assert (Hab : ltb a b = true).
    { eapply increasing_lookup_lt; [| exact Ha | exact Hb].
      rewrite Hx. exact Hinc. }
    assert (Hbx : leb b x_ = true).
    { apply ltb_leb, leb_total; [| | exact Hxb].
      - apply (leb_not_nan _ _ Hle).
      - apply (ltb_not_nan _ _ Hab). }
    assert (Hiters : (0 < iters)%nat).
    { destruct iters as [| iters']; [| lia]. exfalso.
      rewrite last_lookup in Hlast.
      replace (Nat.pred (length (x self))) with (S s) in Hlast by lia.
      congruence. }
    destruct (IH (S s) b Hiters ltac:(lia) Hb Hbx)
      as (j & x0 & y0 & x1 & y1 & Hj & H0 & H1 & Hl0 & Hl1 & Hfirst & Heval).
    exists j, x0, y0, x1, y1.
    repeat split; auto; try lia.
    intros j' Hj'. destruct (decide (j' = s)) as [-> | Hne].
    + intros (a' & b' & Ha' & Hb' & _ & Hxb').
      assert (b' = b) as -> by congruence. congruence.
    + apply Hfirst. lia.
Qed.

End LinearEvaluate.

Lemma increasing_lookup_lt_far (l : list double) (i k : nat) (a b : double) :
  increasing l -> (i < k)%nat -> l !! i = Some a -> l !! k = Some b ->
  ltb a b = true.
Proof.
  intros Hl Hik Ha Hb.
  induction k as [| k IH] in b, Hik, Hb |- *; [lia |].
  destruct (decide (i = k)) as [-> | Hne].
  - eapply increasing_lookup_lt; eassumption.
  - assert (Hc : exists c, l !! k = Some c).
    { apply lookup_lt_is_Some. apply lookup_lt_Some in Hb. lia. }
    destruct Hc as [c Hc].
    eapply ltb_trans; [apply (IH c); [lia | exact Hc] |].
    eapply increasing_lookup_lt; eassumption.
Qed.

(** [evaluate] whatever value the storage of [x_min] holds.  Over a valid
    axis it fails with Interpolation2DOutOfRange for every [x_] above
    [x_max]; for every [x_] between the first key and [x_max] that the
    test against [x_min] lets through, it returns [linear_interpolate] over
    the first segment, scanning from the left, that holds [x_]; at [x_max]
    that segment is the last one. *)
Lemma linear_evaluate_guarded
    (indeterminate : double) (mp : map_double) (self : Interpolation2D.t)
    (x_ : double)
    (Hinc : increasing (map fst mp))
    (Hnew : LinearInterpolation2D.new indeterminate mp = Some (Ret self)) :
  (ltb (Interpolation2D.x_max self) x_ = true ->
   LinearInterpolation2D.evaluate self x_ = Some (Throw Interpolation2DOutOfRange)) /\
  (forall lo v : double,
     mp !! 0%nat = Some (lo, v) ->
     leb lo x_ = true ->
     leb x_ (Interpolation2D.x_max self) = true ->
     ltb x_ indeterminate = false ->
     exists (j : nat) (x0 y0 x1 y1 : double),
       mp !! j = Some (x0, y0) /\
       mp !! S j = Some (x1, y1) /\
       leb x0 x_ = true /\ leb x_ x1 = true /\
       (forall j' : nat, (j' < j)%nat -> ~ holds self x_ j') /\
       LinearInterpolation2D.evaluate self x_
         = Some (Ret (LinearInterpolation2D.linear_interpolate x0 y0 x1 y1 x_))) /\
  (ltb (Interpolation2D.x_max self) indeterminate = false ->
   exists x0 y0 y1 : double,
     mp !! (length mp - 2)%nat = Some (x0, y0) /\
     mp !! (length mp - 1)%nat = Some (Interpolation2D.x_max self, y1) /\
     LinearInterpolation2D.evaluate self (Interpolation2D.x_max self)
       = Some (Ret (LinearInterpolation2D.linear_interpolate
                      x0 y0 (Interpolation2D.x_max self) y1
                      (Interpolation2D.x_max self)))).
Proof.
  apply new_inv in Hnew as (Hmp & Hx & Hmin & Hmax & Hlen).
  rewrite max_element_increasing in Hmax by exact Hinc.
  subst mp. set (mp := Interpolation2D.mapped_x_y self) in *.
  set (hi := Interpolation2D.x_max self) in *.
  assert (Hn : length (Interpolation2D.x self) = length mp)
    by (rewrite Hx; apply length_map).
  assert (Hlast : last (Interpolation2D.x self) = Some hi)
    by (rewrite Hx; exact Hmax).
  assert (Hmid : forall x : double, forall lo v : double,
     mp !! 0%nat = Some (lo, v) ->
     leb lo x = true -> leb x hi = true -> ltb x indeterminate = false ->
     exists (j : nat) (x0 y0 x1 y1 : double),
       mp !! j = Some (x0, y0) /\ mp !! S j = Some (x1, y1) /\
       leb x0 x = true /\ leb x x1 = true /\
       (forall j' : nat, (j' < j)%nat -> ~ holds self x j') /\
       LinearInterpolation2D.evaluate self x
         = Some (Ret (LinearInterpolation2D.linear_interpolate x0 y0 x1 y1 x))).
  { intros x lo v Hlo Hle Hhi Hguard.
    unfold LinearInterpolation2D.evaluate. rewrite Hmin, Hguard.
    fold hi. rewrite (ltb_not_leb_inv hi x Hhi). cbn [orb].
    assert (Hlo' : Interpolation2D.x self !! 0%nat = Some lo)
      by (rewrite Hx, lookup_map_fst; fold mp; rewrite Hlo; reflexivity).
    destruct (evaluate_loop_first self x hi Hinc Hx Hlast Hhi
                (length (Interpolation2D.x self) - 1) 0%nat lo
                ltac:(lia) ltac:(lia) Hlo' Hle)
      as (j & x0 & y0 & x1 & y1 & _ & H0 & H1 & Hl0 & Hl1 & Hfirst & Heval).
    exists j, x0, y0, x1, y1. repeat split; auto.
    intros j' Hj'. apply Hfirst. lia. }
  split; [| split].
  - intros Habove. unfold LinearInterpolation2D.evaluate.
    fold hi. rewrite Habove, orb_true_r. reflexivity.
  - apply Hmid.
  - intros Hguard.
    assert (Hlo : exists lo v, mp !! 0%nat = Some (lo, v)).
    { destruct mp as [| [lo v] mp']; [cbn in Hlen; lia | eauto]. }
    destruct Hlo as (lo & v & Hlo).
    assert (Hhi : map fst mp !! (length mp - 1)%nat = Some hi).
    { rewrite last_lookup, length_map in Hmax.
      replace (length mp - 1)%nat with (Nat.pred (length mp)) by lia.
      exact Hmax. }
    assert (Hlohi : ltb lo hi = true).
    { apply (increasing_lookup_lt_far (map fst mp) 0 (length mp - 1));
        [exact Hinc | lia | | exact Hhi].
      rewrite lookup_map_fst, Hlo. reflexivity. }
    destruct (Hmid hi lo v Hlo (ltb_leb _ _ Hlohi)
                (leb_refl _ (proj2 (ltb_not_nan _ _ Hlohi))) Hguard)
      as (j & x0 & y0 & x1 & y1 & H0 & H1 & Hl0 & Hl1 & _ & Heval).
    assert (Hj : S j = (length mp - 1)%nat).
    { apply lookup_lt_Some in H1 as Hlt.
      destruct (decide (S j = (length mp - 1)%nat)) as [E | Hne]; [exact E |].
      exfalso.
      assert (Hfar : ltb x1 hi = true).
      { apply (increasing_lookup_lt_far (map fst mp) (S j) (length mp - 1));
          [exact Hinc | lia | | exact Hhi].
        rewrite lookup_map_fst, H1. reflexivity. }
      apply ltb_not_leb in Hfar. congruence. }
    assert (x1 = hi) as ->.
    { rewrite lookup_map_fst, <- Hj, H1 in Hhi. cbn in Hhi. congruence. }
    exists x0, y0, y1.
    replace (length mp - 2)%nat with j by lia. rewrite <- Hj.
    repeat split; assumption.
Qed.

(** C6, as the code has it.  Over a valid axis whose [x_min] holds the
    smallest key, [evaluate] fails with Interpolation2DOutOfRange for
    every [x_] below [x_min] or above [x_max]; for every [x_] with
    [x_min <= x_ <= x_max] it returns [linear_interpolate] over the first
    segment, scanning from the left, that holds [x_]; at [x_max] that
    segment is the last one, and the value returned is the interpolation
    formula at its right end, there being no shortcut that returns the
    stored value. *)
Theorem linear_evaluate_first_segment
    (indeterminate : double) (mp : map_double) (self : Interpolation2D.t)
    (x_ : double)
    (Hinc : increasing (map fst mp))
    (Hnew : LinearInterpolation2D.new indeterminate mp = Some (Ret self))
    (Hmin : Interpolation2D.x self !! 0%nat = Some (Interpolation2D.x_min self)) :
  (ltb x_ (Interpolation2D.x_min self) = true \/
   ltb (Interpolation2D.x_max self) x_ = true ->
   LinearInterpolation2D.evaluate self x_ = Some (Throw Interpolation2DOutOfRange)) /\
  (leb (Interpolation2D.x_min self) x_ = true ->
   leb x_ (Interpolation2D.x_max self) = true ->
   exists (j : nat) (x0 y0 x1 y1 : double),
     mp !! j = Some (x0, y0) /\
     mp !! S j = Some (x1, y1) /\
     leb x0 x_ = true /\ leb x_ x1 = true /\
     (forall j' : nat, (j' < j)%nat -> ~ holds self x_ j') /\
     LinearInterpolation2D.evaluate self x_
       = Some (Ret (LinearInterpolation2D.linear_interpolate x0 y0 x1 y1 x_))) /\
  (exists x0 y0 y1 : double,
     mp !! (length mp - 2)%nat = Some (x0, y0) /\
     mp !! (length mp - 1)%nat = Some (Interpolation2D.x_max self, y1) /\
     LinearInterpolation2D.evaluate self (Interpolation2D.x_max self)
       = Some (Ret (LinearInterpolation2D.linear_interpolate
                      x0 y0 (Interpolation2D.x_max self) y1
                      (Interpolation2D.x_max self)))).
Proof.
  destruct (linear_evaluate_guarded indeterminate mp self x_ Hinc Hnew)
    as (_ & Hmid & _).
  destruct (linear_evaluate_guarded indeterminate mp self
              (Interpolation2D.x_max self) Hinc Hnew) as (_ & _ & Hend).
  apply new_inv in Hnew as (Hmp & Hx & Hind & Hmax & Hlen).
  rewrite Hind in Hmin |- *.
  assert (Hlo : exists v, mp !! 0%nat = Some (indeterminate, v)).
  { rewrite Hx, lookup_map_fst in Hmin.
    destruct (mp !! 0%nat) as [[lo v] |]; [| discriminate Hmin].
    cbn in Hmin. exists v. congruence. }
  destruct Hlo as [v Hlo].
  split; [| split].
  - intros Hout. unfold LinearInterpolation2D.evaluate. rewrite Hind.
    destruct Hout as [H | H]; rewrite H;
      [reflexivity | rewrite orb_true_r; reflexivity].
  - intros Hle Hhi.
    apply (Hmid indeterminate v Hlo Hle Hhi), ltb_not_leb_inv, Hle.
  - apply Hend, ltb_asym.
    rewrite max_element_increasing in Hmax by exact Hinc.
    rewrite last_lookup, length_map in Hmax.
    apply (increasing_lookup_lt_far (map fst mp) 0 (Nat.pred (length mp)));
      [exact Hinc | lia | | exact Hmax].
    rewrite lookup_map_fst, Hlo. reflexivity.
Qed.

(** The theorem over [{0:0, 10:10}] with [x_min] holding the smallest key 0:
    5 lies in a segment and gives 5, 10 gives 10, and both 11 and -1 are
    out of range. *)
Lemma linear_evaluate_first_segment_witness :
  let self := Interpolation2D.mk ten_axis [of_Z 0; of_Z 10] [] (of_Z 0) (of_Z 10) in
  increasing (map fst ten_axis) /\
  LinearInterpolation2D.new (of_Z 0) ten_axis = Some (Ret self) /\
  Interpolation2D.x self !! 0%nat = Some (Interpolation2D.x_min self) /\
  (exists (j : nat) (x0 y0 x1 y1 : double),
     ten_axis !! j = Some (x0, y0) /\
     ten_axis !! S j = Some (x1, y1) /\
     leb x0 (of_Z 5) = true /\ leb (of_Z 5) x1 = true /\
     (forall j' : nat, (j' < j)%nat -> ~ holds self (of_Z 5) j') /\
     LinearInterpolation2D.evaluate self (of_Z 5)
       = Some (Ret (LinearInterpolation2D.linear_interpolate x0 y0 x1 y1 (of_Z 5)))) /\
  LinearInterpolation2D.evaluate self (of_Z 5) = Some (Ret (of_Z 5)) /\
  (exists x0 y0 y1 : double,
     ten_axis !! (length ten_axis - 2)%nat = Some (x0, y0) /\
     ten_axis !! (length ten_axis - 1)%nat = Some (of_Z 10, y1) /\
     LinearInterpolation2D.evaluate self (of_Z 10)
       = Some (Ret (LinearInterpolation2D.linear_interpolate
                      x0 y0 (of_Z 10) y1 (of_Z 10)))) /\
  LinearInterpolation2D.evaluate self (of_Z 10) = Some (Ret (of_Z 10)) /\
  LinearInterpolation2D.evaluate self (of_Z 11)
    = Some (Throw Interpolation2DOutOfRange) /\
  LinearInterpolation2D.evaluate self (of_Z (-1))
    = Some (Throw Interpolation2DOutOfRange).
Proof.
  cbv zeta.
  set (self := Interpolation2D.mk ten_axis [of_Z 0; of_Z 10] [] (of_Z 0) (of_Z 10)).
  assert (Hinc : increasing (map fst ten_axis)) by apply map_of_list_increasing.
  assert (Hnew : LinearInterpolation2D.new (of_Z 0) ten_axis = Some (Ret self))
    by (vm_compute; reflexivity).
  assert (Hmin : Interpolation2D.x self !! 0%nat = Some (Interpolation2D.x_min self))
    by reflexivity.
  split; [exact Hinc |]. split; [exact Hnew |]. split; [exact Hmin |].
  split.
  { exact (proj1 (proj2 (linear_evaluate_first_segment _ _ _ (of_Z 5) Hinc Hnew Hmin))
             eq_refl eq_refl). }
  split; [vm_compute; reflexivity |].
  split.
  { exact (proj2 (proj2 (linear_evaluate_first_segment _ _ _ (of_Z 10) Hinc Hnew Hmin))). }
  split; [vm_compute; reflexivity |].
  split.
  { exact (proj1 (linear_evaluate_first_segment _ _ _ (of_Z 11) Hinc Hnew Hmin)
             (or_intror eq_refl)). }
  exact (proj1 (linear_evaluate_first_segment _ _ _ (of_Z (-1)) Hinc Hnew Hmin)
           (or_introl eq_refl)).
Defined.

(** C6 is false as stated.  Over [{0:0, 3:0.1}], with [x_min] holding the
    smallest key 0, [evaluate] at [x_max = 3] returns
    7205759403792795 * 2^-56, one unit in the last place above the stored
    0.1 = 7205759403792794 * 2^-56. *)
Lemma linear_evaluate_not_as_specified :
  exists self : Interpolation2D.t,
    LinearInterpolation2D.new (of_Z 0) tenth_axis = Some (Ret self) /\
    Interpolation2D.x self !! 0%nat = Some (Interpolation2D.x_min self) /\
    Interpolation2D.x_max self = of_Z 3 /\
    map_at tenth_axis (of_Z 3) = Ret (S754_finite false 7205759403792794 (-56)) /\
    LinearInterpolation2D.evaluate self (of_Z 3)
      = Some (Ret (S754_finite false 7205759403792795 (-56))).
Proof.
  eexists. split; [vm_compute; reflexivity |].
  repeat split; vm_compute; reflexivity.
Qed.

(** What the storage of [x_min] can do to [evaluate] over [{0:0, 10:10}]:
    when it holds 7 the point 5 fails with Interpolation2DOutOfRange, and
    when it holds -5 the point -1 passes the test, no segment holds it, and
    control leaves [evaluate] without a return value. *)
Lemma linear_evaluate_indeterminate_x_min :
  (exists self : Interpolation2D.t,
     LinearInterpolation2D.new (of_Z 7) ten_axis = Some (Ret self) /\
     LinearInterpolation2D.evaluate self (of_Z 5)
       = Some (Throw Interpolation2DOutOfRange)) /\
  (exists self : Interpolation2D.t,
     LinearInterpolation2D.new (of_Z (-5)) ten_axis = Some (Ret self) /\
     LinearInterpolation2D.evaluate self (of_Z (-1)) = None).
Proof.
  split; eexists; (split; [vm_compute; reflexivity |]); vm_compute; reflexivity.
Qed.

(** ** The cubic spline at its knots *)

Lemma new_y_zeros indeterminate (mp : map_double) (obj : Interpolation2D.t) :
  Interpolation2D.new indeterminate mp = Some (Ret obj) ->
  exists n : nat, Interpolation2D.y obj = replicate n zero.
Proof.
  unfold Interpolation2D.new.
  destruct (Interpolation2D.get_x_values mp) as [[keys | e] |]; cbn;
    [| discriminate ..].
  destruct (min_element keys) as [lo |]; cbn; [| discriminate].
  destruct (to_size_t lo) as [n |]; cbn; [| discriminate].
  destruct (vector_max_size <? n); [discriminate |].
  destruct (max_element keys) as [hi |]; cbn; [| discriminate].
  intros [= <-]. cbn. eauto.
Qed.

(** [get_parameters] copies the member [y] into [a_] and leaves the base
    object as it found it. *)
Lemma get_parameters_a (self : Interpolation2D.t) (obj : CubicSpline2D.t) :
  CubicSpline2D.get_parameters self = Some obj ->
  CubicSpline2D.base obj = self /\
  CubicSpline2D.a_ obj = Interpolation2D.y self.
Proof.
  unfold CubicSpline2D.get_parameters. cbv zeta. intros H.
  repeat match type of H with
    | (?m ≫= _) = Some _ =>
        let E := fresh "E" in
        destruct m as [?v |] eqn:E; cbn [mbind option_bind] in H;
        [clear E | discriminate H]
    | (let '(_, _) := ?p in _) = Some _ => destruct p
    | (match ?p with (_, _) => _ end) = Some _ => destruct p
    end.
  injection H as <-. split; reflexivity.
Qed.

(** C1, what the code does instead.  The member [y] is built from the
    smallest key, as a vector of that many zeros, and [a_] is a copy of
    it: in every spline that the constructor returns, the constant
    coefficients [a_], which [evaluate] uses as the values at the knots,
    are all zero, whatever values the mapping stores.  Over
    [{0:0, 1:1, 2:0, 3:1}] the vector is empty and [get_parameters] reads
    [a_] out of bounds.  Over [{4:0, 5:1, 6:0, 7:1}] it is four zeros, all
    the coefficients are zero, and [evaluate] at the knot 5, whose stored
    value is 1, returns 0 when the range test lets it through. *)
Theorem cubic_spline_ignores_stored_values :
  (forall (indeterminate : double) (mp : map_double) (obj : CubicSpline2D.t),
     CubicSpline2D.new indeterminate mp = Some (Ret obj) ->
     exists n : nat, CubicSpline2D.a_ obj = replicate n zero) /\
  (forall indeterminate : double,
     CubicSpline2D.new indeterminate four_point_axis = None) /\
  (forall indeterminate : double,
     exists obj : CubicSpline2D.t,
       CubicSpline2D.new indeterminate shifted_axis = Some (Ret obj) /\
       CubicSpline2D.a_ obj = [zero; zero; zero; zero] /\
       map_at shifted_axis (of_Z 5) = Ret (of_Z 1) /\
       (CubicSpline2D.evaluate obj (of_Z 5) = Some (Ret zero) \/
        CubicSpline2D.evaluate obj (of_Z 5)
          = Some (Throw Interpolation2DOutOfRange))).
Proof.
  split; [| split]; intros indeterminate.
  - intros mp obj. unfold CubicSpline2D.new.
    destruct (Interpolation2D.new indeterminate mp) as [[self | e] |] eqn:Hnew;
      cbn; [| discriminate ..].
    destruct (CubicSpline2D.get_parameters self) as [obj' |] eqn:Hpar;
      cbn; [| discriminate].
    intros [= <-]. apply get_parameters_a in Hpar as [_ ->].
    eapply new_y_zeros, Hnew.
  - vm_compute. reflexivity.
  - eexists. split; [vm_compute; reflexivity |].
    split; [reflexivity |]. split; [vm_compute; reflexivity |].
    unfold CubicSpline2D.evaluate.
    cbn [CubicSpline2D.base Interpolation2D.x_min Interpolation2D.x_max].
    destruct (ltb (of_Z 5) indeterminate).
    + right. reflexivity.
    + left. vm_compute. reflexivity.
Qed.

(** ** Totals of a TimeDelta in the finer units *)

(** What [get_total_milliseconds] computes: the finer fields enter by
    their quotients truncated toward zero. *)
Lemma get_total_milliseconds_formula (x : TimeDelta.t) :
  - 2 ^ 53 < TimeDelta.mcs x < 2 ^ 53 ->
  - 2 ^ 53 < TimeDelta.ns x < 2 ^ 53 ->
  TimeDelta.get_total_milliseconds x
    = Some (wrap64 (whole_seconds x * 1000 + TimeDelta.ms x
                    + Z.quot (TimeDelta.mcs x) 1000
                    + Z.quot (TimeDelta.ns x) 1000000)).
Proof.
  intros Hmcs Hns. unfold TimeDelta.get_total_milliseconds. cbv zeta.
  cbn [type_value].
  replace (mul64 (TimeDelta.mcs x) 1000) with (TimeDelta.mcs x * 1000)
    by (unfold mul64; rewrite wrap64_small; lia).
  replace (mul64 (TimeDelta.ns x) 1000) with (TimeDelta.ns x * 1000)
    by (unfold mul64; rewrite wrap64_small; lia).
  replace (Z.quot (TimeDelta.mcs x * 1000) 1000000)
    with (Z.quot (TimeDelta.mcs x) 1000)
    by (change 1000000 with (1000 * 1000); rewrite Z.quot_mul_cancel_r; lia).
  replace (Z.quot (TimeDelta.ns x * 1000) 1000000000)
    with (Z.quot (TimeDelta.ns x) 1000000)
    by (change 1000000000 with (1000000 * 1000);
        rewrite Z.quot_mul_cancel_r; lia).
  rewrite !round_to_llong_exact by (apply quot_bound; lia).
  cbn [mbind option_bind]. f_equal. unfold mul64, add64, whole_seconds.
  clear Hmcs Hns. wrap64_eq.
Qed.

Lemma get_total_microseconds_formula (x : TimeDelta.t) :
  - 2 ^ 43 < TimeDelta.ns x < 2 ^ 43 ->
  TimeDelta.get_total_microseconds x
    = Some (wrap64 ((whole_seconds x * 1000 + TimeDelta.ms x) * 1000
                    + TimeDelta.mcs x + Z.quot (TimeDelta.ns x) 1000)).
Proof.
  intros Hns. unfold TimeDelta.get_total_microseconds. cbv zeta.
  cbn [type_value].
  replace (mul64 (TimeDelta.ns x) 1000000) with (TimeDelta.ns x * 1000000)
    by (unfold mul64; rewrite wrap64_small; lia).
  replace (Z.quot (TimeDelta.ns x * 1000000) 1000000000)
    with (Z.quot (TimeDelta.ns x) 1000)
    by (change 1000000000 with (1000 * 1000000);
        rewrite Z.quot_mul_cancel_r; lia).
  rewrite !round_to_llong_exact by (apply quot_bound; lia).
  cbn [mbind option_bind]. f_equal. unfold mul64, add64, whole_seconds.
  clear Hns. wrap64_eq.
Qed.

Lemma get_total_nanoseconds_formula (x : TimeDelta.t) :
  TimeDelta.get_total_nanoseconds x
    = wrap64 (((whole_seconds x * 1000 + TimeDelta.ms x) * 1000
               + TimeDelta.mcs x) * 1000 + TimeDelta.ns x).
Proof.
  unfold TimeDelta.get_total_nanoseconds. cbv zeta.
  unfold mul64, add64, whole_seconds. wrap64_eq.
Qed.

Lemma get_total_seconds_whole (x : TimeDelta.t) :
  - (2 ^ 53 * 1000) < TimeDelta.ms x < 2 ^ 53 * 1000 ->
  - (2 ^ 53 * 1000000) < TimeDelta.mcs x < 2 ^ 53 * 1000000 ->
  - (2 ^ 53 * 1000000000) < TimeDelta.ns x < 2 ^ 53 * 1000000000 ->
  TimeDelta.get_total_seconds x
    = Some (wrap64 (whole_seconds x
                    + Z.quot (TimeDelta.mcs x) 1000000
                    + Z.quot (TimeDelta.ms x) 1000
                    + Z.quot (TimeDelta.ns x) 1000000000)).
Proof.
  intros Hms Hmcs Hns. rewrite get_total_seconds_formula by assumption.
  reflexivity.
Qed.

(** The totals in milliseconds, microseconds and nanoseconds.  Each field
    finer than the unit asked for enters by its quotient truncated toward
    zero (never rounded to nearest), each coarser field by its exact
    multiple, and the sum wraps around in 64 bits; the total in
    nanoseconds involves no division and holds for every TimeDelta. *)
Theorem get_total_finer_units_truncate (x : TimeDelta.t)
    (Hmcs : - 2 ^ 53 < TimeDelta.mcs x < 2 ^ 53)
    (Hns : - 2 ^ 43 < TimeDelta.ns x < 2 ^ 43) :
  TimeDelta.get_total_milliseconds x
    = Some (wrap64 (whole_seconds x * 1000 + TimeDelta.ms x
                    + Z.quot (TimeDelta.mcs x) 1000
                    + Z.quot (TimeDelta.ns x) 1000000)) /\
  TimeDelta.get_total_microseconds x
    = Some (wrap64 ((whole_seconds x * 1000 + TimeDelta.ms x) * 1000
                    + TimeDelta.mcs x + Z.quot (TimeDelta.ns x) 1000)) /\
  TimeDelta.get_total_nanoseconds x
    = wrap64 (((whole_seconds x * 1000 + TimeDelta.ms x) * 1000
               + TimeDelta.mcs x) * 1000 + TimeDelta.ns x).
Proof.
  split; [apply get_total_milliseconds_formula; lia |].
  split; [apply get_total_microseconds_formula; lia |].
  apply get_total_nanoseconds_formula.
Qed.

(** The theorem at 1 day, 2 s, 3 ms, 999 us and -1999999 ns. *)
Lemma get_total_finer_units_truncate_witness :
  TimeDelta.get_total_milliseconds (TimeDelta.mk 1 0 0 2 3 999 (-1999999))
    = Some (wrap64 ((1 * 86400 + 0 * 3600 + 0 * 60 + 2) * 1000 + 3
                    + Z.quot 999 1000 + Z.quot (-1999999) 1000000)) /\
  TimeDelta.get_total_microseconds (TimeDelta.mk 1 0 0 2 3 999 (-1999999))
    = Some (wrap64 (((1 * 86400 + 0 * 3600 + 0 * 60 + 2) * 1000 + 3) * 1000
                    + 999 + Z.quot (-1999999) 1000)) /\
  TimeDelta.get_total_nanoseconds (TimeDelta.mk 1 0 0 2 3 999 (-1999999))
    = wrap64 ((((1 * 86400 + 0 * 3600 + 0 * 60 + 2) * 1000 + 3) * 1000
               + 999) * 1000 + (-1999999)).
Proof.
  apply (get_total_finer_units_truncate (TimeDelta.mk 1 0 0 2 3 999 (-1999999)));
    cbn; lia.
Defined.

(** Adding a wrapped value and then its opposite. *)
Lemma add64_cancel (t a b : Z) :
  - 2 ^ 63 <= t < 2 ^ 63 -> a + b = 0 ->
  add64 (add64 t (wrap64 a)) (wrap64 b) = t.
Proof.
  intros Ht Hab. rewrite <- (wrap64_small t) at 2 by exact Ht.
  unfold add64. replace b with (- a) by lia. clear Ht Hab. wrap64_eq.
Qed.

(** Applying a delta and then the delta of the opposite fields restores
    the DateTime, in each of the four precisions: truncation toward zero
    is symmetric, and the 64-bit additions cancel. *)
Theorem apply_time_delta_negate (dt : TimeDelta.t) (x : DateTime.t)
    (Hx : - 2 ^ 63 <= DateTime.tmsp x < 2 ^ 63)
    (Hms : - 2 ^ 53 < TimeDelta.ms dt < 2 ^ 53)
    (Hmcs : - 2 ^ 53 < TimeDelta.mcs dt < 2 ^ 53)
    (Hns : - 2 ^ 43 < TimeDelta.ns dt < 2 ^ 43) :
  exists x1 : DateTime.t,
    DateTime.apply_time_delta dt x = Some x1 /\
    DateTime.type_ x1 = DateTime.type_ x /\
    DateTime.apply_time_delta (negate dt) x1 = Some x.
Proof.
  destruct x as [t ty]. cbn [DateTime.tmsp DateTime.type_] in *.
  unfold DateTime.apply_time_delta. cbn [DateTime.tmsp DateTime.type_].
  destruct ty.
  - rewrite (get_total_seconds_whole dt), (get_total_seconds_whole (negate dt))
      by (cbn; lia).
    cbn [mbind option_bind]. eexists. split; [reflexivity |].
    split; [reflexivity |]. cbn [DateTime.tmsp DateTime.type_]. do 2 f_equal.
    apply add64_cancel; [exact Hx |].
    unfold whole_seconds, negate. cbn. rewrite !Z.quot_opp_l by lia. lia.
  - rewrite (get_total_milliseconds_formula dt),
      (get_total_milliseconds_formula (negate dt)) by (cbn; lia).
    cbn [mbind option_bind]. eexists. split; [reflexivity |].
    split; [reflexivity |]. cbn [DateTime.tmsp DateTime.type_]. do 2 f_equal.
    apply add64_cancel; [exact Hx |].
    unfold whole_seconds, negate. cbn. rewrite !Z.quot_opp_l by lia. lia.
  - rewrite (get_total_microseconds_formula dt),
      (get_total_microseconds_formula (negate dt)) by (cbn; lia).
    cbn [mbind option_bind]. eexists. split; [reflexivity |].
    split; [reflexivity |]. cbn [DateTime.tmsp DateTime.type_]. do 2 f_equal.
    apply add64_cancel; [exact Hx |].
    unfold whole_seconds, negate. cbn. rewrite !Z.quot_opp_l by lia. lia.
  - rewrite (get_total_nanoseconds_formula dt),
      (get_total_nanoseconds_formula (negate dt)).
    eexists. split; [reflexivity |].
    split; [reflexivity |]. cbn [DateTime.tmsp DateTime.type_]. do 2 f_equal.
    apply add64_cancel; [exact Hx |].
    unfold whole_seconds, negate. cbn. lia.
Qed.

(** The theorem at 1704067200123 ms and a delta with fields of both
    signs. *)
Lemma apply_time_delta_negate_witness :
  exists x1 : DateTime.t,
    DateTime.apply_time_delta (TimeDelta.mk 1 2 3 4 1500 (-999999) 7)
      (DateTime.mk 1704067200123 MILLISECONDS) = Some x1 /\
    DateTime.type_ x1 = MILLISECONDS /\
    DateTime.apply_time_delta (negate (TimeDelta.mk 1 2 3 4 1500 (-999999) 7)) x1
      = Some (DateTime.mk 1704067200123 MILLISECONDS).
Proof.
  apply (apply_time_delta_negate (TimeDelta.mk 1 2 3 4 1500 (-999999) 7)
           (DateTime.mk 1704067200123 MILLISECONDS)); cbn; lia.
Defined.

(** ** Conversion to a finer precision *)

(** Conversion to a precision at least as fine as the current one is
    exact, for ticks that stay below 2^51: the timestamp is multiplied by
    the ratio of the two scales, and conversion to the current precision
    leaves it as it is. *)
Theorem convert_timestamp_finer_exact
    (type : EpochTimestampType) (x : DateTime.t)
    (Hticks : 0 <= DateTime.tmsp x < 2 ^ 51)
    (Hfine : type_value (DateTime.type_ x) <= type_value type)
    (Hconv : DateTime.tmsp x * type_value type
               < 2 ^ 51 * type_value (DateTime.type_ x)) :
  DateTime.convert_timestamp type x
    = Some (DateTime.mk
              (DateTime.tmsp x * (type_value type / type_value (DateTime.type_ x)))
              type).
Proof.
  destruct (convert_timestamp_nearest type x Hticks Hconv) as (U & HU & _ & Herr).
  rewrite HU. do 2 f_equal.
  destruct x as [t ty]. cbn [DateTime.tmsp DateTime.type_] in *.
  destruct type, ty; cbn [type_value] in *;
    try lia;
    match goal with
    | |- _ = _ * (?a / ?b) =>
        let q := eval vm_compute in (a / b) in change (a / b) with q
    end; lia.
Qed.

(** The theorem at 1704067200 s, converted to milliseconds. *)
Lemma convert_timestamp_finer_exact_witness :
  DateTime.convert_timestamp MILLISECONDS (DateTime.mk 1704067200 SECONDS)
    = Some (DateTime.mk (1704067200 * (1000 / 1)) MILLISECONDS).
Proof.
  apply (convert_timestamp_finer_exact MILLISECONDS (DateTime.mk 1704067200 SECONDS));
    cbn; lia.
Defined.

(** For two distinct objects whose precisions are at most as fine as
    [delta_type], with ticks that stay below 2^50, [get_timedelta] is
    exact and changes nothing: the delta is the difference of the two
    timestamps, each scaled to [delta_type], and the heap is the one the
    call began with. *)
Theorem get_timedelta_finer_exact (start_datetime end_datetime : loc)
    (delta_type : EpochTimestampType) (hp : heap) (s0 e0 : DateTime.t)
    (Hne : start_datetime <> end_datetime)
    (Hs : hp !! start_datetime = Some s0)
    (He : hp !! end_datetime = Some e0)
    (Hs50 : 0 <= DateTime.tmsp s0 < 2 ^ 50)
    (Hsc : DateTime.tmsp s0 * type_value delta_type
             < 2 ^ 50 * type_value (DateTime.type_ s0))
    (He50 : 0 <= DateTime.tmsp e0 < 2 ^ 50)
    (Hec : DateTime.tmsp e0 * type_value delta_type
             < 2 ^ 50 * type_value (DateTime.type_ e0))
    (Hsf : type_value (DateTime.type_ s0) <= type_value delta_type)
    (Hef : type_value (DateTime.type_ e0) <= type_value delta_type) :
  get_timedelta start_datetime end_datetime delta_type hp
    = Some (single_field delta_type
              (DateTime.tmsp e0 * (type_value delta_type / type_value (DateTime.type_ e0))
               - DateTime.tmsp s0 * (type_value delta_type / type_value (DateTime.type_ s0))),
            hp).
Proof.
  destruct (convert_timestamp_finer_back delta_type s0 Hs50 Hsc Hsf)
    as (S1 & HS1 & HS1' & Hs1 & Hs2).
  destruct (convert_timestamp_finer_back delta_type e0 He50 Hec Hef)
    as (E1 & HE1 & HE1' & He1 & He2).
  rewrite (get_timedelta_run _ _ _ _ _ _ _ _ _ _ Hne Hs He Hs1 He1 Hs2 He2).
  cbn [DateTime.tmsp]. unfold sub64. rewrite wrap64_small by lia.
  rewrite <- HS1', <- HE1'.
  rewrite (list_insert_id _ _ _ Hs).
  rewrite (list_insert_id _ _ _ He). reflexivity.
Qed.

(** The theorem at 1704067200 s and 1711929600123 ms, in
    milliseconds. *)
Lemma get_timedelta_finer_exact_witness :
  let hp := [DateTime.mk 1704067200 SECONDS; DateTime.mk 1711929600123 MILLISECONDS] in
  get_timedelta 0%nat 1%nat MILLISECONDS hp
    = Some (single_field MILLISECONDS
              (1711929600123 * (1000 / 1000) - 1704067200 * (1000 / 1)), hp).
Proof.
  cbv zeta.
  apply (get_timedelta_finer_exact 0%nat 1%nat MILLISECONDS
           [DateTime.mk 1704067200 SECONDS; DateTime.mk 1711929600123 MILLISECONDS]
           (DateTime.mk 1704067200 SECONDS) (DateTime.mk 1711929600123 MILLISECONDS));
    first [reflexivity | cbn; lia].
Defined.

(** ** Tenors and names *)

(** Under every convention [get_number_days_in_month] is 30 (the quotient
    of the days of the year by 12 is taken in [int] before [round] sees
    it), every tenor has a positive number of days, and the number of
    days grows strictly along the enumeration, from ON to 30Y. *)
Theorem tenor_days_increasing (dcc : DayCountConvention) :
  get_number_days_in_month dcc = Some 30 /\
  (forall tenor : Tenor,
     exists days : Z, get_tenor_in_days tenor dcc = Some days /\ 0 < days) /\
  (forall (t1 t2 : Tenor) (d1 d2 : Z),
     get_tenor_in_days t1 dcc = Some d1 ->
     get_tenor_in_days t2 dcc = Some d2 ->
     (tenor_index t1 < tenor_index t2 <-> d1 < d2)).
Proof.
  split; [destruct dcc; vm_compute; reflexivity |].
  split.
  - intros tenor. destruct tenor, dcc; eexists; split;
      solve [vm_compute; reflexivity].
  - intros t1 t2 d1 d2 H1 H2.
    destruct dcc, t1; vm_compute in H1; injection H1 as <-;
      destruct t2; vm_compute in H2; injection H2 as <-;
      vm_compute; split; congruence.
Qed.

(** The names tell the values apart: two conventions, or two tenors, have
    the same name only if they are equal. *)
Theorem names_identify (dcc1 dcc2 : DayCountConvention) (t1 t2 : Tenor) :
  (get_day_count_convention_name dcc1 = get_day_count_convention_name dcc2
   <-> dcc1 = dcc2) /\
  (get_tenor_name t1 = get_tenor_name t2 <-> t1 = t2).
Proof.
  split; split; try (intros ->; reflexivity).
  - destruct dcc1, dcc2; cbn; intros H; first [reflexivity | discriminate H].
  - destruct t1, t2; cbn; intros H; first [reflexivity | discriminate H].
Qed.

(** ** Advancing by a tenor *)

(** The TimeDelta of a tenor has the days of the tenor and nothing
    else. *)
Lemma get_tenor_in_timedelta_days (tenor : Tenor) (dcc : DayCountConvention) :
  exists days : Z,
    get_tenor_in_days tenor dcc = Some days /\
    get_tenor_in_timedelta tenor dcc = Some (TimeDelta.mk days 0 0 0 0 0 0).
Proof.
  unfold get_tenor_in_timedelta.
  destruct (get_tenor_in_days tenor dcc) as [days |] eqn:H;
    [eauto | destruct tenor, dcc; vm_compute in H; discriminate H].
Qed.

(** A delta of whole days advances the timestamp by that many days, in
    the unit of the timestamp. *)
Lemma apply_time_delta_days (days : Z) (x : DateTime.t) :
  DateTime.apply_time_delta (TimeDelta.mk days 0 0 0 0 0 0) x
    = Some (DateTime.mk
              (wrap64 (DateTime.tmsp x
                       + days * 86400 * type_value (DateTime.type_ x)))
              (DateTime.type_ x)).
Proof.
  destruct x as [t ty]. unfold DateTime.apply_time_delta.
  cbn [DateTime.tmsp DateTime.type_].
  destruct ty; cbn [type_value].
  - rewrite get_total_seconds_whole by (cbn; lia).
    cbn [mbind option_bind]. do 2 f_equal. unfold add64, whole_seconds. cbn.
    rewrite !Z.quot_0_l by lia. wrap64_eq.
  - rewrite get_total_milliseconds_formula by (cbn; lia).
    cbn [mbind option_bind]. do 2 f_equal. unfold add64, whole_seconds. cbn.
    rewrite !Z.quot_0_l by lia. wrap64_eq.
  - rewrite get_total_microseconds_formula by (cbn; lia).
    cbn [mbind option_bind]. do 2 f_equal. unfold add64, whole_seconds. cbn.
    rewrite !Z.quot_0_l by lia. wrap64_eq.
  - rewrite get_total_nanoseconds_formula.
    do 2 f_equal. unfold add64, whole_seconds. cbn. wrap64_eq.
Qed.

(** The same delta applied [k + 1] times in a row. *)
Lemma iter_apply_days (k : nat) (days : Z) (x : DateTime.t) :
  iter_apply (S k) (TimeDelta.mk days 0 0 0 0 0 0) x
    = Some (DateTime.mk
              (wrap64 (DateTime.tmsp x
                       + Z.of_nat (S k)
                         * (days * 86400 * type_value (DateTime.type_ x))))
              (DateTime.type_ x)).
Proof.
  revert x. induction k as [| k IH]; intros x.
  - cbn [iter_apply]. rewrite apply_time_delta_days. cbn [mbind option_bind].
    do 3 f_equal. lia.
  - change (iter_apply (S (S k)) ?dt x)
      with (DateTime.apply_time_delta dt x ≫= iter_apply (S k) dt).
    rewrite apply_time_delta_days. cbn [mbind option_bind].
    rewrite IH. cbn [DateTime.tmsp DateTime.type_]. do 2 f_equal.
    set (D := days * 86400 * type_value (DateTime.type_ x)).
    replace (Z.of_nat (S (S k)) * D) with (D + Z.of_nat (S k) * D) by lia.
    generalize (Z.of_nat (S k) * D). intros E. clearbody D. wrap64_eq.
Qed.

(** [get_end_datetime_from_tenor] returns a pointer to a new object and
    leaves every existing object, the start included, as it was; the new
    object has the precision of the start and lies the days of the tenor
    after it, a day being 86400 seconds in the unit of the start (the sum
    wraps around in 64 bits). *)
Theorem get_end_datetime_from_tenor_fresh
    (start_datetime : loc) (end_tenor : Tenor) (dcc : DayCountConvention)
    (hp : heap) (x : DateTime.t)
    (Hx : hp !! start_datetime = Some x) :
  exists days : Z,
    get_tenor_in_days end_tenor dcc = Some days /\
    get_end_datetime_from_tenor start_datetime end_tenor dcc hp
      = Some (length hp,
              hp ++ [DateTime.mk
                       (wrap64 (DateTime.tmsp x
                                + days * 86400 * type_value (DateTime.type_ x)))
                       (DateTime.type_ x)]).
Proof.
  destruct (get_tenor_in_timedelta_days end_tenor dcc) as (days & Hdays & Hdt).
  exists days. split; [exact Hdays |].
  unfold get_end_datetime_from_tenor, alloc, call. rewrite Hdt, Hx.
  cbn [mbind option_bind].
  rewrite lookup_app_r by lia. rewrite Nat.sub_diag. cbn [lookup list_lookup].
  cbn [mbind option_bind]. rewrite apply_time_delta_days.
  cbn [mbind option_bind]. do 2 f_equal.
  rewrite insert_app_r_alt by lia. rewrite Nat.sub_diag. reflexivity.
Qed.

(** The theorem at 1704067200123 ms and three months under ACT/365. *)
Lemma get_end_datetime_from_tenor_fresh_witness :
  exists days : Z,
    get_tenor_in_days _3M ACT365 = Some days /\
    get_end_datetime_from_tenor 0%nat _3M ACT365 [DateTime.mk 1704067200123 MILLISECONDS]
      = Some (1%nat,
              [DateTime.mk 1704067200123 MILLISECONDS]
                ++ [DateTime.mk (wrap64 (1704067200123 + days * 86400 * 1000))
                      MILLISECONDS]).
Proof.
  exact (get_end_datetime_from_tenor_fresh 0%nat _3M ACT365
           [DateTime.mk 1704067200123 MILLISECONDS]
           (DateTime.mk 1704067200123 MILLISECONDS) eq_refl).
Defined.

(** The interior points of [generate_datetime_sequence] in closed form.
    The sequence has one pointer per flag that is set and [n - 1] interior
    pointers; the [k]-th interior object has the precision the start had
    when the call began and lies exactly [k] periods of the tenor after
    the ticks the start had then, whatever the end is. *)
Theorem generate_datetime_sequence_interior_ticks
    (start_datetime end_datetime : loc) (frequency_tenor : Tenor)
    (dcc : DayCountConvention) (include_start include_end : bool)
    (hp hp' : heap) (x0 xe : DateTime.t) (output : list loc)
    (Hstart : hp !! start_datetime = Some x0)
    (Hend : hp !! end_datetime = Some xe)
    (Hret : generate_datetime_sequence start_datetime frequency_tenor dcc
              include_start include_end end_datetime hp = Some (output, hp')) :
  exists (days n : Z) (hp2 : heap),
    get_tenor_in_days frequency_tenor dcc = Some days /\
    sequence_length_from_frequency_tenor
      start_datetime end_datetime frequency_tenor dcc hp = Some (n, hp2) /\
    length output
      = ((if include_start then 1 else 0) + Z.to_nat (n - 1)
         + (if include_end then 1 else 0))%nat /\
    (forall k : nat,
       (k < Z.to_nat (n - 1))%nat ->
       exists p : loc,
         output !! ((if include_start then 1 else 0) + k)%nat = Some p /\
         hp' !! p
           = Some (DateTime.mk
                     (wrap64 (DateTime.tmsp x0
                              + Z.of_nat (S k)
                                * (days * 86400 * type_value (DateTime.type_ x0))))
                     (DateTime.type_ x0))).
Proof.
  destruct (get_tenor_in_timedelta_days frequency_tenor dcc)
    as (days & Hdays & Hdt).
  unfold generate_datetime_sequence in Hret.
  rewrite Hdt in Hret. cbn [mbind option_bind] in Hret.
  rewrite Hstart in Hret. cbn in Hret.
  destruct (sequence_length_from_frequency_tenor _ _ _ _ (hp ++ [x0]))
    as [[n h2] |] eqn:Hn; cbn in Hret; [| discriminate].
  apply sequence_length_app in Hn as (hp2 & Hn & -> & Hlen2);
    [| eapply lookup_lt_Some, Hstart | eapply lookup_lt_Some, Hend].
  destruct (sequence_loop _ _ _ _ _) as [[out hp3] |] eqn:Hloop;
    cbn in Hret; [| discriminate].
  injection Hret as <- <-.
  assert (Hnext : (hp2 ++ [x0]) !! length hp = Some x0).
  { rewrite lookup_app_r by lia. rewrite Hlen2, Nat.sub_diag. reflexivity. }
  destruct (sequence_loop_inv _ _ _ _ _ _ _ _ Hnext Hloop)
    as (interior & -> & Hlen & _ & Hpts).
  exists days, n, hp2.
  split; [exact Hdays |]. split; [exact Hn |].
  split.
  - destruct include_start, include_end; cbn;
      rewrite ?length_app; cbn; lia.
  - intros k Hk. destruct (Hpts k Hk) as (xk & H1 & H2 & H3).
    rewrite iter_apply_days in H3. injection H3 as <-.
    eexists. split; [| exact H2].
    assert (Hki : (k < length interior)%nat) by lia.
    destruct include_start, include_end; cbn [app Nat.add lookup list_lookup];
      rewrite ?app_nil_r, ?(lookup_app_l interior) by exact Hki; exact H1.
Qed.

(** The theorem from 2024-01-01 to 2024-04-01, monthly under ACT/365,
    both endpoints included. *)
Lemma generate_datetime_sequence_interior_ticks_witness :
  let hp := [DateTime.mk 1704067200 SECONDS; DateTime.mk 1711929600 SECONDS] in
  let hp' := [DateTime.mk 1704067200 SECONDS; DateTime.mk 1711929600 SECONDS;
              DateTime.mk 1709251200 SECONDS;
              DateTime.mk 1706659200 SECONDS; DateTime.mk 1709251200 SECONDS] in
  exists (days n : Z) (hp2 : heap),
    get_tenor_in_days _1M ACT365 = Some days /\
    sequence_length_from_frequency_tenor 0%nat 1%nat _1M ACT365 hp = Some (n, hp2) /\
    length [0; 3; 4; 1]%nat = (1 + Z.to_nat (n - 1) + 1)%nat /\
    (forall k : nat,
       (k < Z.to_nat (n - 1))%nat ->
       exists p : loc,
         [0; 3; 4; 1]%nat !! (1 + k)%nat = Some p /\
         hp' !! p
           = Some (DateTime.mk
                     (wrap64 (1704067200 + Z.of_nat (S k) * (days * 86400 * 1)))
                     SECONDS)).
Proof.
  cbv zeta.
  exact (generate_datetime_sequence_interior_ticks
           0%nat 1%nat _1M ACT365 true true
           [DateTime.mk 1704067200 SECONDS; DateTime.mk 1711929600 SECONDS]
           [DateTime.mk 1704067200 SECONDS; DateTime.mk 1711929600 SECONDS;
            DateTime.mk 1709251200 SECONDS;
            DateTime.mk 1706659200 SECONDS; DateTime.mk 1709251200 SECONDS]
           (DateTime.mk 1704067200 SECONDS) (DateTime.mk 1711929600 SECONDS)
           [0; 3; 4; 1]%nat eq_refl eq_refl eq_refl).
Defined.

(** Between two distinct objects held in seconds, the delta in seconds
    is the difference of the timestamps, and nothing changes. *)
Lemma get_timedelta_seconds_exact
    (start_datetime end_datetime : loc) (hp : heap) (s e : Z) :
  start_datetime <> end_datetime ->
  hp !! start_datetime = Some (DateTime.mk s SECONDS) ->
  hp !! end_datetime = Some (DateTime.mk e SECONDS) ->
  0 <= s < 2 ^ 50 -> 0 <= e < 2 ^ 50 ->
  get_timedelta start_datetime end_datetime SECONDS hp
    = Some (single_field SECONDS (e - s), hp).
Proof.
  intros Hne Hs He Hs50 He50.
  destruct (convert_timestamp_finer_back SECONDS (DateTime.mk s SECONDS))
    as (S1 & _ & HS1 & Hs1 & Hs2); [cbn; lia .. |].
  destruct (convert_timestamp_finer_back SECONDS (DateTime.mk e SECONDS))
    as (E1 & _ & HE1 & He1 & He2); [cbn; lia .. |].
  rewrite (get_timedelta_run _ _ _ _ _ _ _ _ _ _ Hne Hs He Hs1 He1 Hs2 He2).
  rewrite (list_insert_id _ _ _ Hs), (list_insert_id _ _ _ He).
  cbn [DateTime.tmsp DateTime.type_ type_value] in HS1, HE1 |- *.
  change (1 / 1) with 1 in HS1, HE1. rewrite Z.mul_1_r in HS1, HE1.
  subst S1 E1. unfold sub64. rewrite wrap64_small by lia. reflexivity.
Qed.

Lemma get_total_seconds_single (v : Z) :
  - 2 ^ 63 <= v < 2 ^ 63 ->
  TimeDelta.get_total_seconds (single_field SECONDS v) = Some v.
Proof.
  intros Hv. rewrite get_total_seconds_whole by (cbn; lia).
  unfold whole_seconds, single_field.
  cbn [TimeDelta.d TimeDelta.h TimeDelta.m TimeDelta.s
       TimeDelta.ms TimeDelta.mcs TimeDelta.ns].
  rewrite !Z.quot_0_l by lia. f_equal.
  rewrite <- (wrap64_small v) at 2 by exact Hv. f_equal. lia.
Qed.

Lemma get_total_seconds_days (days : Z) :
  - 2 ^ 31 <= days < 2 ^ 31 ->
  TimeDelta.get_total_seconds (TimeDelta.mk days 0 0 0 0 0 0) = Some (days * 86400).
Proof.
  intros Hd. rewrite get_total_seconds_whole by (cbn; lia).
  unfold whole_seconds.
  cbn [TimeDelta.d TimeDelta.h TimeDelta.m TimeDelta.s
       TimeDelta.ms TimeDelta.mcs TimeDelta.ns].
  rewrite !Z.quot_0_l by lia. f_equal.
  rewrite <- (wrap64_small (days * 86400)) at 2 by lia. f_equal. lia.
Qed.

(** The days of a tenor fit an [int]. *)
Lemma tenor_days_range (tenor : Tenor) (dcc : DayCountConvention) (days : Z) :
  get_tenor_in_days tenor dcc = Some days -> 0 < days < 2 ^ 31.
Proof.
  intros Hdays.
  destruct tenor, dcc; vm_compute in Hdays; injection Hdays as <-; lia.
Qed.


(** One run of [sequence_length_from_frequency_tenor], given what the
    calls it makes return. *)
Lemma sequence_length_run
    (start_datetime end_datetime : loc) (frequency_tenor : Tenor)
    (dcc : DayCountConvention) (hp hp' : heap) (freq_dt dt : TimeDelta.t) (a b : Z) :
  get_tenor_in_timedelta frequency_tenor dcc = Some freq_dt ->
  get_timedelta start_datetime end_datetime SECONDS hp = Some (dt, hp') ->
  TimeDelta.get_total_seconds dt = Some a ->
  TimeDelta.get_total_seconds freq_dt = Some b ->
  sequence_length_from_frequency_tenor
    start_datetime end_datetime frequency_tenor dcc hp
    = (n ← to_int (round (div (of_Z a) (of_Z b))); Some (n, hp')).
Proof.
  intros H1 H2 H3 H4. unfold sequence_length_from_frequency_tenor.
  rewrite H1. cbn [mbind option_bind]. rewrite H2. cbn [mbind option_bind].
  rewrite H3, H4. reflexivity.
Qed.

(** For two distinct objects held in seconds,
    [sequence_length_from_frequency_tenor] changes nothing, and the
    number of periods is the quotient of the exact difference by the
    seconds of the tenor, a day being 86400 seconds, rounded to nearest in
    [double] and converted to [int]. *)
Theorem sequence_length_seconds
    (start_datetime end_datetime : loc) (frequency_tenor : Tenor)
    (dcc : DayCountConvention) (hp : heap) (s e : Z)
    (Hne : start_datetime <> end_datetime)
    (Hs : hp !! start_datetime = Some (DateTime.mk s SECONDS))
    (He : hp !! end_datetime = Some (DateTime.mk e SECONDS))
    (Hs50 : 0 <= s < 2 ^ 50)
    (He50 : 0 <= e < 2 ^ 50) :
  exists days : Z,
    get_tenor_in_days frequency_tenor dcc = Some days /\
    0 < days /\
    sequence_length_from_frequency_tenor
      start_datetime end_datetime frequency_tenor dcc hp
      = (n ← to_int (round (div (of_Z (e - s)) (of_Z (days * 86400))));
         Some (n, hp)).
Proof.
  destruct (get_tenor_in_timedelta_days frequency_tenor dcc)
    as (days & Hdays & Hdt).
  pose proof (tenor_days_range _ _ _ Hdays) as Hpos.
  exists days. split; [exact Hdays |]. split; [lia |].
  apply (sequence_length_run _ _ _ _ _ _ _ _ _ _ Hdt
           (get_timedelta_seconds_exact _ _ _ _ _ Hne Hs He Hs50 He50)).
  - apply get_total_seconds_single. lia.
  - apply get_total_seconds_days. lia.
Qed.

(** The theorem from 2024-01-01 to 2024-04-01, monthly under ACT/365. *)
Lemma sequence_length_seconds_witness :
  let hp := [DateTime.mk 1704067200 SECONDS; DateTime.mk 1711929600 SECONDS] in
  exists days : Z,
    get_tenor_in_days _1M ACT365 = Some days /\
    0 < days /\
    sequence_length_from_frequency_tenor 0%nat 1%nat _1M ACT365 hp
      = (n ← to_int (round (div (of_Z (1711929600 - 1704067200))
                                 (of_Z (days * 86400))));
         Some (n, hp)).
Proof.
  cbv zeta.
  apply (sequence_length_seconds 0%nat 1%nat _1M ACT365
           [DateTime.mk 1704067200 SECONDS; DateTime.mk 1711929600 SECONDS]);
    first [reflexivity | lia].
Defined.

(** ** Ordering a sequence of DateTimes *)

(** [std::set::insert] adds its argument and nothing else. *)
Lemma set_insert_In (v : Z) (s : list Z) (t : Z) :
  In t (set_insert v s) <-> t = v \/ In t s.
Proof.
  induction s as [| w s IH]; cbn [set_insert].
  - cbn. intuition.
  - destruct (Z.ltb_spec v w) as [Hvw | Hvw]; [cbn; intuition |].
    destruct (Z.ltb_spec w v) as [Hwv | Hwv].
    + cbn [In]. rewrite IH. intuition.
    + assert (v = w) as -> by lia. cbn [In]. intuition.
Qed.

(** [std::set::insert] keeps the elements in strictly increasing order. *)
Lemma set_insert_sorted (v : Z) (s : list Z) :
  StronglySorted Z.lt s -> StronglySorted Z.lt (set_insert v s).
Proof.
  induction s as [| w s IH]; intros Hs; cbn [set_insert].
  - repeat constructor.
  - apply StronglySorted_inv in Hs as [Hs Hw].
    destruct (Z.ltb_spec v w) as [Hvw | Hvw].
    + constructor; [constructor; assumption |].
      constructor; [exact Hvw |].
      eapply Forall_impl; [exact Hw |]. cbn. intros a Ha. lia.
    + destruct (Z.ltb_spec w v) as [Hwv | Hwv].
      * constructor; [apply IH, Hs |].
        rewrite Forall_forall. intros t Ht.
        apply list_elem_of_In, set_insert_In in Ht as [-> | Ht]; [exact Hwv |].
        rewrite Forall_forall in Hw. apply Hw, list_elem_of_In, Ht.
      * constructor; assumption.
Qed.

Lemma set_insert_length (v : Z) (s : list Z) :
  (length (set_insert v s) <= S (length s))%nat.
Proof.
  induction s as [| w s IH]; cbn [set_insert]; [cbn; lia |].
  destruct (v <? w); [cbn; lia |].
  destruct (w <? v); cbn; lia.
Qed.

(** The first loop of [order_datetime_sequence], over distinct pointers. *)
Lemma order_convert_inv (datetime_sequence : list loc) :
  forall (s : list Z) (hp : heap) (s' : list Z) (hp' : heap),
    NoDup datetime_sequence ->
    order_convert datetime_sequence s hp = Some (s', hp') ->
    length hp' = length hp /\
    (length s' <= length s + length datetime_sequence)%nat /\
    (StronglySorted Z.lt s -> StronglySorted Z.lt s') /\
    (forall p : loc, ~ In p datetime_sequence -> hp' !! p = hp !! p) /\
    (forall p : loc,
       In p datetime_sequence ->
       exists x x',
         hp !! p = Some x /\
         DateTime.convert_timestamp NANOSECONDS x = Some x' /\
         hp' !! p = Some x') /\
    (forall t : Z,
       In t s' <->
       In t s \/ exists p x', In p datetime_sequence /\
                              hp' !! p = Some x' /\ DateTime.tmsp x' = t).
Proof.
  induction datetime_sequence as [| dt rest IH]; intros s hp s' hp' Hnd Hrun.
  - cbn in Hrun. injection Hrun as <- <-.
    repeat split; auto; try (cbn; lia); try (intros p []).
    intros [H | (p & x' & [] & _)]. exact H.
  - cbn [order_convert] in Hrun.
    apply NoDup_cons in Hnd as [Hdt Hnd].
    rewrite list_elem_of_In in Hdt.
    destruct (call _ dt hp) as [hp1 |] eqn:Hcall; cbn in Hrun; [| discriminate].
    destruct (call_self _ _ _ _ Hcall) as (x & x1 & Hx & Hx1 & Hx1').
    rewrite Hx1' in Hrun. cbn in Hrun.
    destruct (IH _ _ _ _ Hnd Hrun) as (Hlen & Hcard & Hsort & Hframe & Hconv & Hmem).
    split; [rewrite Hlen; eapply call_length, Hcall |].
    split; [pose proof (set_insert_length (DateTime.get_timestamp x1) s); cbn; lia |].
    split; [intros Hs; apply Hsort, set_insert_sorted, Hs |].
    split; [| split].
    + intros p Hp. rewrite Hframe by (intros Hin; apply Hp; right; exact Hin).
      eapply call_other; [exact Hcall |]. intros ->. apply Hp. left. reflexivity.
    + intros p [<- | Hp].
      * exists x, x1. rewrite Hframe by exact Hdt. auto.
      * destruct (Hconv p Hp) as (y & y' & Hy & Hy' & Hy'').
        exists y, y'. repeat split; try assumption.
        rewrite <- Hy. symmetry. eapply call_other; [exact Hcall |].
        intros ->. contradiction.
    + intros t. rewrite Hmem, set_insert_In. split.
      * intros [[-> | Ht] | (p & x' & Hp & Hx' & Ht)].
        -- right. exists dt, x1. rewrite Hframe by exact Hdt.
           repeat split; auto. left. reflexivity.
        -- left. exact Ht.
        -- right. exists p, x'. repeat split; auto. right. exact Hp.
      * intros [Ht | (p & x' & [<- | Hp] & Hx' & Ht)].
        -- left. right. exact Ht.
        -- left. left. rewrite Hframe in Hx' by exact Hdt.
           assert (x' = x1) as -> by congruence. symmetry. exact Ht.
        -- right. exists p, x'. auto.
Qed.

Lemma order_rebuild_nonneg (l : list Z) :
  forall (out : list loc) (hp : heap),
    Forall (fun t => 0 <= t) l ->
    order_rebuild l out hp
      = (Ret tt, out ++ seq (length hp) (length l),
         hp ++ map (fun i => DateTime.mk i NANOSECONDS) l).
Proof.
  induction l as [| i l IH]; intros out hp Hl.
  - cbn. rewrite !app_nil_r. reflexivity.
  - apply Forall_cons in Hl as [Hi Hl].
    cbn [order_rebuild]. unfold DateTime.new.
    destruct (Z.ltb_spec i 0) as [Hneg | _]; [lia |].
    unfold alloc. rewrite IH by exact Hl.
    rewrite length_app. cbn [length map seq].
    rewrite Nat.add_1_r, <- !app_assoc. reflexivity.
Qed.

Lemma sorted_head_nonneg (i : Z) (l : list Z) :
  StronglySorted Z.lt (i :: l) -> 0 <= i -> Forall (fun t => 0 <= t) (i :: l).
Proof.
  intros Hs Hi. apply StronglySorted_inv in Hs as [_ Hl].
  constructor; [exact Hi |].
  eapply Forall_impl; [exact Hl |]. cbn. intros a Ha. lia.
Qed.

(** The second loop over a sorted set: it throws at the first element or
    not at all. *)
Lemma order_rebuild_sorted (l : list Z) (hp : heap) :
  StronglySorted Z.lt l ->
  (Forall (fun t => 0 <= t) l /\
   order_rebuild l [] hp
     = (Ret tt, seq (length hp) (length l),
        hp ++ map (fun i => DateTime.mk i NANOSECONDS) l)) \/
  ((exists i l', l = i :: l' /\ i < 0) /\
   order_rebuild l [] hp = (Throw NegativeEpochTimestampError, [], hp)).
Proof.
  intros Hs. destruct l as [| i l'].
  - left. split; [constructor |]. cbn. rewrite app_nil_r. reflexivity.
  - destruct (Z.lt_ge_cases i 0) as [Hneg | Hpos].
    + right. split; [eauto |]. cbn [order_rebuild]. unfold DateTime.new.
      destruct (Z.ltb_spec i 0); [reflexivity | lia].
    + left. pose proof (sorted_head_nonneg i l' Hs Hpos) as Hall.
      split; [exact Hall |]. rewrite order_rebuild_nonneg by exact Hall.
      reflexivity.
Qed.

(** When [order_datetime_sequence] returns on a sequence of distinct
    pointers, the vector holds pointers to new objects only, all in
    nanoseconds, with non-negative ticks in strictly increasing order and
    no duplicate; there are at most as many as before.  The ticks are
    exactly those of the objects the vector pointed to, each as its
    conversion to nanoseconds left it; those objects stay in the heap,
    converted to nanoseconds in place, and no other object changes. *)
Theorem order_datetime_sequence_sorted
    (datetime_sequence : list loc) (hp : heap) (out : list loc) (hp' : heap)
    (Hnodup : NoDup datetime_sequence)
    (Hret : order_datetime_sequence datetime_sequence hp = Some (Ret tt, out, hp')) :
  exists ticks : list Z,
    StronglySorted Z.lt ticks /\
    (length ticks <= length datetime_sequence)%nat /\
    out = seq (length hp) (length ticks) /\
    length hp' = (length hp + length ticks)%nat /\
    (forall (k : nat) (t : Z),
       ticks !! k = Some t ->
       0 <= t /\ hp' !! (length hp + k)%nat = Some (DateTime.mk t NANOSECONDS)) /\
    (forall p : loc,
       In p datetime_sequence ->
       exists x x',
         hp !! p = Some x /\
         DateTime.convert_timestamp NANOSECONDS x = Some x' /\
         hp' !! p = Some x' /\ In (DateTime.tmsp x') ticks) /\
    (forall t : Z,
       In t ticks ->
       exists p x', In p datetime_sequence /\
                    hp' !! p = Some x' /\ DateTime.tmsp x' = t) /\
    (forall p : loc,
       (p < length hp)%nat -> ~ In p datetime_sequence -> hp' !! p = hp !! p).
Proof.
  unfold order_datetime_sequence in Hret.
  destruct (order_convert datetime_sequence [] hp) as [[ticks hp1] |] eqn:Hconv;
    cbn in Hret; [| discriminate].
  destruct (order_convert_inv _ _ _ _ _ Hnodup Hconv)
    as (Hlen & Hcard & Hsort & Hframe & Hobj & Hmem).
  specialize (Hsort (SSorted_nil _)).
  destruct (order_rebuild_sorted ticks hp1 Hsort) as [[Hpos Hrun] | [_ Hrun]];
    rewrite Hrun in Hret; [| discriminate].
  injection Hret as <- <-.
  assert (Hold : forall p, (p < length hp)%nat ->
            (hp1 ++ map (fun i => DateTime.mk i NANOSECONDS) ticks) !! p = hp1 !! p).
  { intros p Hp. apply lookup_app_l. lia. }
  exists ticks.
  split; [exact Hsort |]. split; [cbn in Hcard; lia |].
  split; [rewrite Hlen; reflexivity |].
  split; [rewrite length_app, length_map; lia |].
  split; [| split; [| split]].
  - intros k t Hk. split.
    + rewrite Forall_forall in Hpos. eapply Hpos, list_elem_of_lookup_2, Hk.
    + rewrite lookup_app_r by lia.
      replace (length hp + k - length hp1)%nat with k by lia.
      rewrite list_lookup_fmap, Hk. reflexivity.
  - intros p Hp. destruct (Hobj p Hp) as (x & x' & Hx & Hx' & Hp').
    exists x, x'. rewrite Hold by (eapply lookup_lt_Some, Hx).
    repeat split; try assumption.
    apply Hmem. right. eauto.
  - intros t Ht. apply Hmem in Ht as [[] | (p & x' & Hp & Hx' & Ht)].
    exists p, x'. repeat split; try assumption.
    rewrite Hold; [exact Hx' |].
    rewrite <- Hlen. eapply lookup_lt_Some, Hx'.
  - intros p Hp Hnot. rewrite Hold by exact Hp. apply Hframe, Hnot.
Qed.

(** The theorem at 3 s, 2000 ms and 3000000000 ns: two of the three
    timestamps coincide in nanoseconds, and two objects come back. *)
Lemma order_datetime_sequence_sorted_witness :
  let hp := [DateTime.mk 3 SECONDS; DateTime.mk 2000 MILLISECONDS;
             DateTime.mk 3000000000 NANOSECONDS] in
  let hp' := [DateTime.mk 3000000000 NANOSECONDS; DateTime.mk 2000000000 NANOSECONDS;
              DateTime.mk 3000000000 NANOSECONDS;
              DateTime.mk 2000000000 NANOSECONDS; DateTime.mk 3000000000 NANOSECONDS] in
  order_datetime_sequence [0; 1; 2]%nat hp = Some (Ret tt, [3; 4]%nat, hp') /\
  exists ticks : list Z,
    StronglySorted Z.lt ticks /\
    (length ticks <= 3)%nat /\
    [3; 4]%nat = seq 3 (length ticks) /\
    length hp' = (3 + length ticks)%nat.
Proof.
  cbv zeta.
  assert (H : order_datetime_sequence [0; 1; 2]%nat
                [DateTime.mk 3 SECONDS; DateTime.mk 2000 MILLISECONDS;
                 DateTime.mk 3000000000 NANOSECONDS]
              = Some (Ret tt, [3; 4]%nat,
                      [DateTime.mk 3000000000 NANOSECONDS;
                       DateTime.mk 2000000000 NANOSECONDS;
                       DateTime.mk 3000000000 NANOSECONDS;
                       DateTime.mk 2000000000 NANOSECONDS;
                       DateTime.mk 3000000000 NANOSECONDS]))
    by (vm_compute; reflexivity).
  split; [exact H |].
  assert (Hnd : NoDup [0; 1; 2]%nat)
    by (repeat constructor; cbn; rewrite ?elem_of_cons, ?elem_of_nil; lia).
  destruct (order_datetime_sequence_sorted _ _ _ _ Hnd H)
    as (ticks & H1 & H2 & H3 & H4 & _).
  exists ticks. repeat split; assumption.
Defined.

(** When [order_datetime_sequence] throws, the exception is
    NegativeEpochTimestampError, no new object exists, and the vector of
    the caller is left empty: the set is run through in increasing order,
    so that a negative timestamp is met before anything is pushed. *)
Theorem order_datetime_sequence_throws_before_refill
    (datetime_sequence : list loc) (hp : heap)
    (e : exn) (out : list loc) (hp' : heap)
    (Hret : order_datetime_sequence datetime_sequence hp = Some (Throw e, out, hp')) :
  e = NegativeEpochTimestampError /\
  out = [] /\
  length hp' = length hp /\
  datetime_sequence <> [].
Proof.
  unfold order_datetime_sequence in Hret.
  destruct (order_convert datetime_sequence [] hp) as [[ticks hp1] |] eqn:Hconv;
    cbn in Hret; [| discriminate].
  assert (Hinv : length hp1 = length hp /\ StronglySorted Z.lt ticks /\
                 (datetime_sequence = [] -> ticks = [])).
  { clear Hret. revert Hconv. generalize (SSorted_nil Z.lt).
    generalize (@nil Z) at 1 2 3. revert hp.
    induction datetime_sequence as [| dt rest IH]; intros hp s Hs Hrun.
    - cbn in Hrun. injection Hrun as <- <-. auto.
    - cbn [order_convert] in Hrun.
      destruct (call _ dt hp) as [hp2 |] eqn:Hcall; cbn in Hrun; [| discriminate].
      destruct (hp2 !! dt) as [x |]; cbn in Hrun; [| discriminate].
      destruct (IH _ _ (set_insert_sorted _ _ Hs) Hrun) as (Hlen & Hsorted & _).
      split; [rewrite Hlen; eapply call_length, Hcall |].
      split; [exact Hsorted | discriminate]. }
  destruct Hinv as (Hlen & Hsort & Hnil).
  destruct (order_rebuild_sorted ticks hp1 Hsort)
    as [[_ Hrun] | [(i & l' & -> & Hneg) Hrun]];
    rewrite Hrun in Hret; [discriminate |].
  injection Hret as <- <- <-.
  repeat split; [exact Hlen |].
  intros Hempty. specialize (Hnil Hempty). discriminate Hnil.
Qed.

(** The theorem at 5 s and an object that holds -1 s. *)
Lemma order_datetime_sequence_throws_before_refill_witness :
  order_datetime_sequence [0; 1]%nat
      [DateTime.mk 5 SECONDS; DateTime.mk (-1) SECONDS]
    = Some (Throw NegativeEpochTimestampError, [],
            [DateTime.mk 5000000000 NANOSECONDS;
             DateTime.mk (-1000000000) NANOSECONDS]) /\
  NegativeEpochTimestampError = NegativeEpochTimestampError /\
  @nil loc = [] /\
  length [DateTime.mk 5000000000 NANOSECONDS; DateTime.mk (-1000000000) NANOSECONDS]
    = length [DateTime.mk 5 SECONDS; DateTime.mk (-1) SECONDS] /\
  [0; 1]%nat <> [].
Proof.
  assert (H : order_datetime_sequence [0; 1]%nat
                [DateTime.mk 5 SECONDS; DateTime.mk (-1) SECONDS]
              = Some (Throw NegativeEpochTimestampError, [],
                      [DateTime.mk 5000000000 NANOSECONDS;
                       DateTime.mk (-1000000000) NANOSECONDS]))
    by (vm_compute; reflexivity).
  split; [exact H |].
  exact (order_datetime_sequence_throws_before_refill _ _ _ _ _ H).
Defined.

(** ** Calendar queries *)

Section CalendarProperties.

Variable localtime : Z -> option tm.

(** What [get_time_info] does to its object and which second it hands to
    [localtime]. *)
Lemma get_time_info_spec (x : DateTime.t) :
  0 <= DateTime.tmsp x < 2 ^ 51 - 10 ^ 9 ->
  exists secs : Z,
    0 <= secs /\
    2 * Z.abs (secs * type_value (DateTime.type_ x) - DateTime.tmsp x)
      <= type_value (DateTime.type_ x) /\
    get_time_info localtime x
      = (time_info ← localtime secs;
         Some (time_info,
               DateTime.mk (secs * type_value (DateTime.type_ x)) (DateTime.type_ x))).
Proof.
  intros Ht. destruct x as [t ty]. cbn [DateTime.tmsp DateTime.type_] in *.
  assert (Hb : 1 <= type_value ty <= 1000000000) by (destruct ty; cbn; lia).
  destruct (convert_timestamp_nearest SECONDS (DateTime.mk t ty))
    as (U1 & H1 & HU1 & Herr1); cbn [DateTime.tmsp DateTime.type_ type_value];
    [lia | nia |].
  cbn [DateTime.tmsp DateTime.type_ type_value] in Herr1.
  destruct (convert_timestamp_nearest ty (DateTime.mk U1 SECONDS))
    as (U2 & H2 & HU2 & Herr2); cbn [DateTime.tmsp DateTime.type_ type_value];
    [destruct ty; cbn [type_value] in *; lia .. |].
  cbn [DateTime.tmsp DateTime.type_ type_value] in Herr2.
  exists U1. split; [exact HU1 |]. split; [lia |].
  unfold get_time_info. cbv zeta. cbn [DateTime.type_].
  rewrite H1. cbn [mbind option_bind DateTime.tmsp]. rewrite H2.
  cbn [mbind option_bind].
  replace U2 with (U1 * type_value ty) by lia. reflexivity.
Qed.

(** On an object that holds a whole number of seconds, [get_time_info]
    changes nothing. *)
Lemma get_time_info_whole (secs : Z) (ty : EpochTimestampType) :
  0 <= secs * type_value ty < 2 ^ 51 - 10 ^ 9 ->
  get_time_info localtime (DateTime.mk (secs * type_value ty) ty)
    = (time_info ← localtime secs;
       Some (time_info, DateTime.mk (secs * type_value ty) ty)).
Proof.
  intros Ht.
  destruct (get_time_info_spec (DateTime.mk (secs * type_value ty) ty) Ht)
    as (U & HU & Herr & ->).
  cbn [DateTime.tmsp DateTime.type_] in *.
  assert (U = secs) as -> by (destruct ty; cbn [type_value] in *; lia).
  reflexivity.
Qed.

(** [get_time_info] and [is_week_end], for ticks below 2^50.  The second
    handed to [localtime] is a nearest one to the timestamp (not the
    second that contains it), [is_week_end] answers for the day of that
    second, and the object is left at that whole second: the part of the
    timestamp below a second is lost by a query. *)
Theorem is_week_end_rounds_to_seconds (x : DateTime.t)
    (Hticks : 0 <= DateTime.tmsp x < 2 ^ 50) :
  exists secs : Z,
    0 <= secs /\
    2 * Z.abs (secs * type_value (DateTime.type_ x) - DateTime.tmsp x)
      <= type_value (DateTime.type_ x) /\
    get_time_info localtime x
      = (time_info ← localtime secs;
         Some (time_info,
               DateTime.mk (secs * type_value (DateTime.type_ x)) (DateTime.type_ x))) /\
    is_week_end localtime x
      = (time_info ← localtime secs;
         Some ((tm_wday time_info =? 0) || (tm_wday time_info =? 6),
               DateTime.mk (secs * type_value (DateTime.type_ x)) (DateTime.type_ x))).
Proof.
  destruct (get_time_info_spec x) as (secs & Hsecs & Herr & Hinfo); [lia |].
  exists secs. repeat (split; [assumption |]).
  unfold is_week_end. rewrite Hinfo.
  destruct (localtime secs) as [time_info |]; cbn [mbind option_bind];
    [| reflexivity].
  destruct (tm_wday time_info =? 0); [reflexivity |].
  destruct (tm_wday time_info =? 6); reflexivity.
Qed.

Lemma call_ret_get_time_info (p : loc) (hp : heap) (x : DateTime.t)
    (time_info : tm) (hp1 : heap) :
  hp !! p = Some x ->
  0 <= DateTime.tmsp x < 2 ^ 51 - 10 ^ 9 ->
  call_ret (get_time_info localtime) p hp = Some (time_info, hp1) ->
  exists secs : Z,
    0 <= secs /\
    2 * Z.abs (secs * type_value (DateTime.type_ x) - DateTime.tmsp x)
      <= type_value (DateTime.type_ x) /\
    localtime secs = Some time_info /\
    hp1 = <[p := DateTime.mk (secs * type_value (DateTime.type_ x)) (DateTime.type_ x)]> hp.
Proof.
  intros Hx Ht. unfold call_ret. rewrite Hx. cbn [mbind option_bind].
  destruct (get_time_info_spec x Ht) as (secs & Hsecs & Herr & ->).
  destruct (localtime secs) as [ti |] eqn:Hlt; cbn; [| discriminate].
  intros [= <- <-]. exists secs. repeat split; assumption.
Qed.

Lemma holiday_loop_self (time_info : tm) (secs : Z) (ty : EpochTimestampType)
    (this : loc) (holiday_datetimes : list loc) :
  localtime secs = Some time_info ->
  0 <= secs * type_value ty < 2 ^ 51 - 10 ^ 9 ->
  In this holiday_datetimes ->
  forall (hp : heap) (b : bool) (hp' : heap),
    hp !! this = Some (DateTime.mk (secs * type_value ty) ty) ->
    holiday_loop localtime time_info holiday_datetimes hp = Some (b, hp') ->
    b = true.
Proof.
  intros Hlt Hb.
  induction holiday_datetimes as [| h rest IH]; intros Hin hp b hp' Hthis Hrun;
    [destruct Hin |].
  cbn [holiday_loop] in Hrun.
  destruct (call_ret _ h hp) as [[h_time_info hp1] |] eqn:Hcall;
    cbn [mbind option_bind] in Hrun; [| discriminate].
  destruct (decide (h = this)) as [-> | Hne].
  - unfold call_ret in Hcall. rewrite Hthis in Hcall.
    cbn [mbind option_bind] in Hcall.
    rewrite get_time_info_whole, Hlt in Hcall by exact Hb.
    cbn in Hcall. injection Hcall as <- <-.
    rewrite !Z.eqb_refl in Hrun. cbn in Hrun. congruence.
  - destruct (_ && _); [congruence |].
    destruct Hin as [-> | Hin]; [contradiction |].
    eapply (IH Hin hp1); [| exact Hrun].
    unfold call_ret in Hcall.
    destruct (hp !! h) as [y |]; cbn in Hcall; [| discriminate].
    destruct (get_time_info localtime y) as [[ti y'] |]; cbn in Hcall;
      [| discriminate].
    injection Hcall as _ <-.
    rewrite list_lookup_insert_ne by exact Hne. exact Hthis.
Qed.

(** A date is a holiday when the list of holidays holds a pointer to the
    date itself: if the call returns, it returns true, whatever
    [localtime] is and whatever the other holidays are. *)
Theorem is_date_in_holiday_self
    (this : loc) (holiday_datetimes : list loc) (hp : heap) (x : DateTime.t)
    (b : bool) (hp' : heap)
    (Hx : hp !! this = Some x)
    (Hticks : 0 <= DateTime.tmsp x < 2 ^ 50)
    (Hin : In this holiday_datetimes)
    (Hret : is_date_in_holiday localtime this holiday_datetimes hp = Some (b, hp')) :
  b = true.
Proof.
  unfold is_date_in_holiday in Hret.
  destruct (call_ret _ this hp) as [[time_info hp1] |] eqn:Hcall;
    cbn [mbind option_bind] in Hret; [| discriminate].
  destruct (call_ret_get_time_info _ _ _ _ _ Hx ltac:(lia) Hcall)
    as (secs & Hsecs & Herr & Hlt & ->).
  assert (Hty : 1 <= type_value (DateTime.type_ x) <= 1000000000)
    by (destruct (DateTime.type_ x); cbn; lia).
  eapply (holiday_loop_self time_info secs (DateTime.type_ x) this);
    [exact Hlt | lia | exact Hin | | exact Hret].
  apply list_lookup_insert_eq. eapply lookup_lt_Some, Hx.
Qed.

End CalendarProperties.

(** The theorem at 1704067200500 ms, in the stand-in calendar. *)
Lemma is_week_end_rounds_to_seconds_witness :
  exists secs : Z,
    0 <= secs /\
    2 * Z.abs (secs * 1000 - 1704067200500) <= 1000 /\
    get_time_info utc_day_and_time (DateTime.mk 1704067200500 MILLISECONDS)
      = (time_info ← utc_day_and_time secs;
         Some (time_info, DateTime.mk (secs * 1000) MILLISECONDS)) /\
    is_week_end utc_day_and_time (DateTime.mk 1704067200500 MILLISECONDS)
      = (time_info ← utc_day_and_time secs;
         Some ((tm_wday time_info =? 0) || (tm_wday time_info =? 6),
               DateTime.mk (secs * 1000) MILLISECONDS)).
Proof.
  apply (is_week_end_rounds_to_seconds utc_day_and_time
           (DateTime.mk 1704067200500 MILLISECONDS)); cbn; lia.
Defined.

(** The theorem at 1704067200500 ms, second in its own list of
    holidays. *)
Lemma is_date_in_holiday_self_witness :
  let hp := [DateTime.mk 1704067200500 MILLISECONDS; DateTime.mk 1711929600 SECONDS] in
  let hp' := [DateTime.mk 1704067201000 MILLISECONDS; DateTime.mk 1711929600 SECONDS] in
  is_date_in_holiday utc_day_and_time 0%nat [1; 0]%nat hp = Some (true, hp') /\
  true = true.
Proof.
  cbv zeta.
  assert (H : is_date_in_holiday utc_day_and_time 0%nat [1; 0]%nat
                [DateTime.mk 1704067200500 MILLISECONDS; DateTime.mk 1711929600 SECONDS]
              = Some (true, [DateTime.mk 1704067201000 MILLISECONDS;
                             DateTime.mk 1711929600 SECONDS]))
    by (vm_compute; reflexivity).
  split; [exact H |].
  apply (is_date_in_holiday_self utc_day_and_time 0%nat [1; 0]%nat
           [DateTime.mk 1704067200500 MILLISECONDS; DateTime.mk 1711929600 SECONDS]
           (DateTime.mk 1704067200500 MILLISECONDS) true
           [DateTime.mk 1704067201000 MILLISECONDS; DateTime.mk 1711929600 SECONDS]
           eq_refl);
    [cbn; lia | right; left; reflexivity | exact H].
Defined.

(** ** Interpolation at the knots and off the axis *)

(** [x - x] is +0 for every finite [x]. *)
Lemma sub_diag (x : double) : finite x = true -> sub x x = S754_zero false.
Proof.
  destruct x as [[] | | | s m e]; try discriminate; intros _; try reflexivity.
  unfold sub, SFsub.
  destruct (shl_align m e (Z.min e e)) as [m' e'] eqn:Ha. cbn [fst].
  rewrite Z.sub_diag. reflexivity.
Qed.

Lemma mul_zero_finite (y : double) :
  finite y = true -> exists s, mul (S754_zero false) y = S754_zero s.
Proof. destruct y; try discriminate; intros _; cbn; eauto. Qed.

Lemma div_zero_l (s : bool) (y : double) :
  is_zero y = false -> is_nan y = false ->
  exists s', div (S754_zero s) y = S754_zero s'.
Proof. destruct y; try discriminate; intros _ _; cbn; eauto. Qed.

Lemma add_zero_r (x : double) (s : bool) :
  is_nan x = false ->
  eqb (add x (S754_zero s)) x = true /\
  (is_zero x = false -> add x (S754_zero s) = x).
Proof.
  destruct x as [[] | [] | | [] m e]; try discriminate; intros _;
    destruct s; cbn -[eqb]; (split; [| intros H; first [discriminate H | reflexivity]]);
    try reflexivity; unfold eqb, SFeqb, SFcompare; rewrite ?Pos.compare_refl, ?Z.compare_refl;
    cbn; rewrite ?Pos.compare_refl; reflexivity.
Qed.

(** At the left knot [linear_interpolate] returns the left value: the
    result compares equal to [y0], and is [y0] itself unless [y0] is a
    zero, as long as [x0] is finite, [y1 - y0] does not overflow and
    [x1 - x0] is neither zero nor NaN. *)
Theorem linear_interpolate_left_knot (x0 y0 x1 y1 : double)
    (Hx0 : finite x0 = true)
    (Hy0 : is_nan y0 = false)
    (Hdy : finite (sub y1 y0) = true)
    (Hdx : is_zero (sub x1 x0) = false)
    (Hdx' : is_nan (sub x1 x0) = false) :
  eqb (LinearInterpolation2D.linear_interpolate x0 y0 x1 y1 x0) y0 = true /\
  (is_zero y0 = false ->
   LinearInterpolation2D.linear_interpolate x0 y0 x1 y1 x0 = y0).
Proof.
  unfold LinearInterpolation2D.linear_interpolate.
  rewrite (sub_diag x0 Hx0).
  destruct (mul_zero_finite _ Hdy) as [s ->].
  destruct (div_zero_l s _ Hdx Hdx') as [s' ->].
  apply add_zero_r, Hy0.
Qed.

(** The theorem between (1, 0.1) and (3, 1). *)
Lemma linear_interpolate_left_knot_witness :
  eqb (LinearInterpolation2D.linear_interpolate (of_Z 1) tenth (of_Z 3) (of_Z 1) (of_Z 1))
      tenth = true /\
  (is_zero tenth = false ->
   LinearInterpolation2D.linear_interpolate (of_Z 1) tenth (of_Z 3) (of_Z 1) (of_Z 1)
     = tenth).
Proof.
  apply (linear_interpolate_left_knot (of_Z 1) tenth (of_Z 3) (of_Z 1));
    vm_compute; reflexivity.
Defined.

Lemma leb_nan_r (x : double) : leb x S754_nan = false.
Proof. destruct x as [[] | [] | | [] m e]; reflexivity. Qed.

Lemma ltb_nan_l (x : double) : ltb S754_nan x = false.
Proof. destruct x; reflexivity. Qed.

Lemma ltb_nan_r (x : double) : ltb x S754_nan = false.
Proof. destruct x as [[] | [] | | [] m e]; reflexivity. Qed.

Lemma evaluate_loop_nan (iters i : nat) (self : Interpolation2D.t) :
  LinearInterpolation2D.evaluate_loop iters i self S754_nan = None.
Proof.
  revert i. induction iters as [| iters IH]; intros i; [reflexivity |].
  cbn [LinearInterpolation2D.evaluate_loop].
  destruct (Interpolation2D.x self !! (i - 1)%nat) as [a |];
    cbn [mbind option_bind]; [| reflexivity].
  destruct (Interpolation2D.x self !! i) as [b |];
    cbn [mbind option_bind]; [| reflexivity].
  rewrite leb_nan_r, andb_false_r. apply IH.
Qed.

Lemma find_segment_nan (iters j : nat) (x : list double) :
  CubicSpline2D.find_segment iters j x S754_nan = None \/
  CubicSpline2D.find_segment iters j x S754_nan = Some 0%nat.
Proof.
  revert j. induction iters as [| iters IH]; intros j; [right; reflexivity |].
  cbn [CubicSpline2D.find_segment].
  destruct (x !! j) as [xj |]; cbn [mbind option_bind]; [| left; reflexivity].
  rewrite ltb_nan_l. apply IH.
Qed.

Lemma sub_nan_l (x : double) : sub S754_nan x = S754_nan.
Proof. destruct x; reflexivity. Qed.

Lemma mul_nan_r (x : double) : mul x S754_nan = S754_nan.
Proof. destruct x; reflexivity. Qed.

Lemma add_nan_r (x : double) : add x S754_nan = S754_nan.
Proof. destruct x; reflexivity. Qed.

(** A NaN argument is never rejected as out of range: both comparisons
    of the range test are false on it.  In LinearInterpolation2D no
    segment holds it and control leaves [evaluate] without a return
    value; in CubicSpline2D the search leaves the first segment selected
    and [evaluate] returns NaN. *)
Theorem evaluate_nan_not_rejected :
  (forall self : Interpolation2D.t,
     LinearInterpolation2D.evaluate self S754_nan = None) /\
  (forall obj : CubicSpline2D.t,
     CubicSpline2D.evaluate obj S754_nan = None \/
     CubicSpline2D.evaluate obj S754_nan = Some (Ret S754_nan)) /\
  (forall (obj : CubicSpline2D.t) (x0 a0 b0 c0 d0 : double),
     Interpolation2D.x (CubicSpline2D.base obj) !! 0%nat = Some x0 ->
     CubicSpline2D.a_ obj !! 0%nat = Some a0 ->
     CubicSpline2D.b_ obj !! 0%nat = Some b0 ->
     CubicSpline2D.c_ obj !! 0%nat = Some c0 ->
     CubicSpline2D.d_ obj !! 0%nat = Some d0 ->
     CubicSpline2D.evaluate obj S754_nan = Some (Ret S754_nan)).
Proof.
  assert (Hguard : forall b : Interpolation2D.t,
            ltb S754_nan (Interpolation2D.x_min b)
            || ltb (Interpolation2D.x_max b) S754_nan = false).
  { intros b. rewrite ltb_nan_l, ltb_nan_r. reflexivity. }
  assert (Heq : forall x, eqb S754_nan x = false) by (intros x; destruct x; reflexivity).
  split; [| split].
  - intros self. unfold LinearInterpolation2D.evaluate.
    rewrite Hguard. apply evaluate_loop_nan.
  - intros obj. unfold CubicSpline2D.evaluate. cbv zeta.
    rewrite Hguard, Heq.
    destruct (find_segment_nan
                (length (Interpolation2D.x (CubicSpline2D.base obj)) - 1) 1
                (Interpolation2D.x (CubicSpline2D.base obj))) as [-> | ->];
      [left; reflexivity |].
    cbn [mbind option_bind].
    destruct (Interpolation2D.x _ !! 0%nat) as [x0 |];
      cbn [mbind option_bind]; [| left; reflexivity].
    destruct (CubicSpline2D.a_ obj !! 0%nat) as [a0 |];
      cbn [mbind option_bind]; [| left; reflexivity].
    destruct (CubicSpline2D.b_ obj !! 0%nat) as [b0 |];
      cbn [mbind option_bind]; [| left; reflexivity].
    destruct (CubicSpline2D.c_ obj !! 0%nat) as [c0 |];
      cbn [mbind option_bind]; [| left; reflexivity].
    destruct (CubicSpline2D.d_ obj !! 0%nat) as [d0 |];
      cbn [mbind option_bind]; [| left; reflexivity].
    right. rewrite sub_nan_l, !mul_nan_r, !add_nan_r. reflexivity.
  - intros obj x0 a0 b0 c0 d0 Hx Ha Hb Hc Hd.
    unfold CubicSpline2D.evaluate. cbv zeta. rewrite Hguard, Heq.
    assert (Hseg : forall iters j,
              (j + iters = length (Interpolation2D.x (CubicSpline2D.base obj)))%nat ->
              CubicSpline2D.find_segment iters j
                (Interpolation2D.x (CubicSpline2D.base obj)) S754_nan = Some 0%nat).
    { induction iters as [| iters IH]; intros j Hj; [reflexivity |].
      cbn [CubicSpline2D.find_segment].
      destruct (lookup_lt_is_Some_2
                  (Interpolation2D.x (CubicSpline2D.base obj)) j ltac:(lia))
        as [xj ->].
      cbn [mbind option_bind]. rewrite ltb_nan_l. apply IH. lia. }
    rewrite Hseg by (apply lookup_lt_Some in Hx; lia).
    cbn [mbind option_bind]. rewrite Hx, Ha, Hb, Hc, Hd. cbn [mbind option_bind].
    rewrite sub_nan_l, !mul_nan_r, !add_nan_r. reflexivity.
Qed.

(** ** The axis of an interpolation *)

Lemma eqb_refl x : is_nan x = false -> eqb x x = true.
Proof.
  intros Hx. unfold eqb, SFeqb.
  pose proof (SFcompare_antisym x x) as H.
  destruct (SFcompare x x) as [[] |] eqn:Hc; try reflexivity; try discriminate H.
  apply compare_is_nan in Hc. destruct Hc; congruence.
Qed.

Lemma min_element_from_least best l :
  (forall b, In b l -> ltb b best = false) -> min_element_from best l = best.
Proof.
  induction l as [| v l IH]; intros Hl; [reflexivity |].
  cbn [min_element_from]. rewrite (Hl v) by (left; reflexivity).
  apply IH. intros b Hb. apply Hl. right. exact Hb.
Qed.

Lemma min_element_increasing l : increasing l -> min_element l = head l.
Proof.
  destruct l as [| v l]; [reflexivity |]. intros Hinc. cbn. f_equal.
  apply min_element_from_least. intros b Hb.
  apply ltb_asym. eapply increasing_head_lt; eassumption.
Qed.

(** In an increasing list of two elements or more, no element is NaN and
    every element is at most the last. *)
Lemma increasing_le_last (l : list double) (hi k : double) :
  increasing l -> (2 <= length l)%nat -> last l = Some hi -> In k l ->
  is_nan k = false /\ leb k hi = true.
Proof.
  intros Hinc Hlen Hlast Hk.
  rewrite last_lookup in Hlast.
  apply list_elem_of_In, list_elem_of_lookup_1 in Hk as [i Hi].
  pose proof (lookup_lt_Some _ _ _ Hi) as Hlt.
  destruct (decide (i = Nat.pred (length l))) as [-> | Hne].
  - assert (k = hi) as -> by congruence.
    destruct (lookup_lt_is_Some_2 l 0 ltac:(lia)) as [a Ha].
    assert (Hlo : ltb a hi = true).
    { eapply (increasing_lookup_lt_far l 0 (Nat.pred (length l)));
        [exact Hinc | lia | exact Ha | exact Hlast]. }
    apply ltb_not_nan in Hlo as [_ Hnan].
    split; [exact Hnan | apply leb_refl, Hnan].
  - assert (Hlo : ltb k hi = true).
    { eapply (increasing_lookup_lt_far l i (Nat.pred (length l)));
        [exact Hinc | lia | exact Hi | exact Hlast]. }
    split; [apply (ltb_not_nan _ _ Hlo) | apply ltb_leb, Hlo].
Qed.

Lemma new_y indeterminate (mp : map_double) (obj : Interpolation2D.t) :
  Interpolation2D.new indeterminate mp = Some (Ret obj) ->
  exists lo n,
    min_element (map fst mp) = Some lo /\ to_size_t lo = Some n /\
    n <= vector_max_size /\
    Interpolation2D.y obj = replicate (Z.to_nat n) zero.
Proof.
  unfold Interpolation2D.new, Interpolation2D.get_x_values.
  cbv zeta. change (0 <? 0)%nat with false. cbn [mbind option_bind].
  destruct (length (map fst mp) <? 2)%nat; cbn; [discriminate |].
  destruct (min_element _) as [lo |] eqn:Hlo; cbn; [| discriminate].
  destruct (to_size_t lo) as [n |] eqn:Hsize; cbn; [| discriminate].
  destruct (Z.ltb_spec vector_max_size n) as [| Hn]; [discriminate |].
  destruct (max_element _) as [hi |]; cbn; [| discriminate].
  intros [= <-]. cbn. exists lo, n. repeat split; assumption.
Qed.

(** What the constructor of Interpolation2D establishes over a map with
    increasing keys: [x] holds the keys, at least two, none of them NaN;
    [x_max] is the last key and every key is at most [x_max]; [y] is as
    many zeros as the first key, converted to [size_t], says; [x_min]
    keeps the value its storage had. *)
Theorem interpolation_axis_invariant
    (indeterminate : double) (mp : map_double) (obj : Interpolation2D.t)
    (Hinc : increasing (map fst mp))
    (Hnew : Interpolation2D.new indeterminate mp = Some (Ret obj)) :
  Interpolation2D.x obj = map fst mp /\
  (2 <= length (Interpolation2D.x obj))%nat /\
  last (Interpolation2D.x obj) = Some (Interpolation2D.x_max obj) /\
  (forall k : double,
     In k (Interpolation2D.x obj) ->
     is_nan k = false /\ leb k (Interpolation2D.x_max obj) = true) /\
  (exists (lo : double) (n : Z),
     head (Interpolation2D.x obj) = Some lo /\
     to_size_t lo = Some n /\
     Interpolation2D.y obj = replicate (Z.to_nat n) zero) /\
  Interpolation2D.x_min obj = indeterminate.
Proof.
  pose proof (new_y _ _ _ Hnew) as (lo & n & Hlo & Hn & _ & Hy).
  apply new_inv in Hnew as (Hmp & Hx & Hmin & Hmax & Hlen).
  rewrite max_element_increasing in Hmax by exact Hinc.
  rewrite min_element_increasing in Hlo by exact Hinc.
  rewrite Hx.
  assert (Hlen' : (2 <= length (map fst mp))%nat) by (rewrite length_map; exact Hlen).
  split; [reflexivity |]. split; [exact Hlen' |]. split; [exact Hmax |].
  split; [| split; [| exact Hmin]].
  - intros k Hk. eapply increasing_le_last; eassumption.
  - exists lo, n. auto.
Qed.

(** The theorem over [{4:0, 5:1, 6:0, 7:1}]. *)
Lemma interpolation_axis_invariant_witness :
  let obj := Interpolation2D.mk shifted_axis [of_Z 4; of_Z 5; of_Z 6; of_Z 7]
               [zero; zero; zero; zero] (of_Z 0) (of_Z 7) in
  Interpolation2D.x obj = map fst shifted_axis /\
  (2 <= length (Interpolation2D.x obj))%nat /\
  last (Interpolation2D.x obj) = Some (Interpolation2D.x_max obj) /\
  (forall k : double,
     In k (Interpolation2D.x obj) ->
     is_nan k = false /\ leb k (Interpolation2D.x_max obj) = true) /\
  (exists (lo : double) (n : Z),
     head (Interpolation2D.x obj) = Some lo /\
     to_size_t lo = Some n /\
     Interpolation2D.y obj = replicate (Z.to_nat n) zero) /\
  Interpolation2D.x_min obj = of_Z 0.
Proof.
  cbv zeta.
  apply (interpolation_axis_invariant (of_Z 0) shifted_axis);
    [apply map_of_list_increasing | vm_compute; reflexivity].
Defined.

Lemma lookup_map_snd (mp : map_double) (i : nat) :
  map snd mp !! i = option_map snd (mp !! i).
Proof.
  revert i. induction mp as [| kv mp IH]; intros [| i]; cbn; auto.
Qed.

(** [get_x_values] and [get_y_values] are aligned: they have the same
    length, and the value at an index is the one that [mapped_x_y.at]
    finds for the key at that index; for a key that is equivalent to none
    of the keys, [at] throws [std::out_of_range]. *)
Theorem get_x_y_values_aligned (mp : map_double) (keys : list double)
    (Hinc : increasing (map fst mp))
    (Hx : Interpolation2D.get_x_values mp = Some (Ret keys)) :
  length (Interpolation2D.get_y_values mp) = length keys /\
  (forall (i : nat) (k : double),
     keys !! i = Some k ->
     exists v : double,
       Interpolation2D.get_y_values mp !! i = Some v /\ map_at mp k = Ret v) /\
  (forall k : double,
     (forall k' : double, In k' keys -> ltb k k' || ltb k' k = true) ->
     map_at mp k = Throw std_out_of_range).
Proof.
  assert (keys = map fst mp) as ->.
  { unfold Interpolation2D.get_x_values in Hx. cbv zeta in Hx.
    change (0 <? 0)%nat with false in Hx. cbn [mbind option_bind] in Hx.
    destruct (length (map fst mp) <? 2)%nat; congruence. }
  unfold Interpolation2D.get_y_values.
  split; [rewrite !length_map; reflexivity |]. split.
  - intros i k Hi. rewrite lookup_map_fst in Hi.
    destruct (mp !! i) as [[k' v] |] eqn:Hmp; [| discriminate Hi].
    cbn in Hi. injection Hi as ->. exists v.
    split; [rewrite lookup_map_snd, Hmp; reflexivity |].
    eapply map_at_lookup; eassumption.
  - intros k Hk. clear Hinc Hx.
    induction mp as [| [k' v'] mp IH]; [reflexivity |].
    cbn [map_at]. rewrite (Hk k') by (left; reflexivity).
    apply IH. intros k'' Hk''. apply Hk. right. exact Hk''.
Qed.

(** The theorem over [{0:0, 3:0.1}]. *)
Lemma get_x_y_values_aligned_witness :
  length (Interpolation2D.get_y_values tenth_axis) = length [of_Z 0; of_Z 3] /\
  (forall (i : nat) (k : double),
     [of_Z 0; of_Z 3] !! i = Some k ->
     exists v : double,
       Interpolation2D.get_y_values tenth_axis !! i = Some v /\
       map_at tenth_axis k = Ret v) /\
  (forall k : double,
     (forall k' : double, In k' [of_Z 0; of_Z 3] -> ltb k k' || ltb k' k = true) ->
     map_at tenth_axis k = Throw std_out_of_range).
Proof.
  apply (get_x_y_values_aligned tenth_axis);
    [apply map_of_list_increasing | vm_compute; reflexivity].
Defined.

(** CubicSpline2D at the right end of the axis: above [x_max],
    [evaluate] throws Interpolation2DOutOfRange; at [x_max], when the
    range test lets it through, it returns the value stored with the last
    key, read from the map and not from the polynomial. *)
Theorem cubic_spline_evaluate_at_x_max
    (indeterminate : double) (mp : map_double) (obj : CubicSpline2D.t)
    (Hinc : increasing (map fst mp))
    (Hnew : CubicSpline2D.new indeterminate mp = Some (Ret obj)) :
  let hi := Interpolation2D.x_max (CubicSpline2D.base obj) in
  (forall x_ : double,
     ltb hi x_ = true ->
     CubicSpline2D.evaluate obj x_ = Some (Throw Interpolation2DOutOfRange)) /\
  (ltb hi indeterminate = false ->
   exists v : double,
     last mp = Some (hi, v) /\
     CubicSpline2D.evaluate obj hi = Some (Ret v)).
Proof.
  intros hi. unfold CubicSpline2D.new in Hnew.
  destruct (Interpolation2D.new indeterminate mp) as [[self | e] |] eqn:Hbase;
    cbn in Hnew; [| discriminate ..].
  destruct (CubicSpline2D.get_parameters self) as [obj' |] eqn:Hpar;
    cbn in Hnew; [| discriminate].
  injection Hnew as ->.
  apply get_parameters_a in Hpar as [Hself _].
  apply new_inv in Hbase as (Hmp & Hx & Hmin & Hlast & Hlen).
  rewrite max_element_increasing, <- Hx in Hlast by exact Hinc.
  assert (Hkeys : forall k, In k (Interpolation2D.x self) ->
            is_nan k = false /\ leb k (Interpolation2D.x_max self) = true).
  { intros k Hk. eapply increasing_le_last; [| | exact Hlast | exact Hk];
      rewrite Hx; [exact Hinc | rewrite length_map; exact Hlen]. }
  subst hi. rewrite Hself.
  split.
  - intros x_ Habove. unfold CubicSpline2D.evaluate. cbv zeta.
    rewrite Hself, Habove, orb_true_r. reflexivity.
  - intros Hguard.
    set (hi := Interpolation2D.x_max self) in *.
    assert (Hhi : is_nan hi = false).
    { apply (Hkeys hi). rewrite last_lookup in Hlast.
      eapply list_elem_of_In, list_elem_of_lookup_2, Hlast. }
    rewrite Hx, last_lookup, lookup_map_fst, length_map in Hlast.
    destruct (mp !! Nat.pred (length mp)) as [[k v] |] eqn:Hk;
      [| discriminate Hlast].
    cbn in Hlast. injection Hlast as ->.
    exists v. split; [rewrite last_lookup; exact Hk |].
    unfold CubicSpline2D.evaluate. cbv zeta. rewrite Hself. fold hi.
    rewrite Hmin, Hguard, ltb_irrefl, (eqb_refl hi Hhi). cbn [orb].
    rewrite Hmp. f_equal. eapply map_at_lookup; eassumption.
Qed.

(** The theorem over [{4:0, 5:1, 6:0, 7:1}] when [x_min] happens to hold
    the first key. *)
Lemma cubic_spline_evaluate_at_x_max_witness :
  exists obj : CubicSpline2D.t,
    CubicSpline2D.new (of_Z 4) shifted_axis = Some (Ret obj) /\
    CubicSpline2D.evaluate obj (of_Z 8) = Some (Throw Interpolation2DOutOfRange) /\
    exists v : double,
      last shifted_axis = Some (Interpolation2D.x_max (CubicSpline2D.base obj), v) /\
      CubicSpline2D.evaluate obj (Interpolation2D.x_max (CubicSpline2D.base obj))
        = Some (Ret v).
Proof.
  destruct (CubicSpline2D.new (of_Z 4) shifted_axis) as [[obj | e] |] eqn:Hnew;
    [| vm_compute in Hnew; discriminate Hnew ..].
  exists obj. split; [reflexivity |].
  pose proof (cubic_spline_evaluate_at_x_max (of_Z 4) shifted_axis obj
                (map_of_list_increasing _) Hnew) as [Habove Hat].
  split.
  - apply Habove. vm_compute in Hnew. injection Hnew as <-. reflexivity.
  - apply Hat. vm_compute in Hnew. injection Hnew as <-. reflexivity.
Defined.

(** [get_parameters] reads [a_[n]], with [n] the number of segments. *)
Lemma get_parameters_reads_last (self : Interpolation2D.t) (obj : CubicSpline2D.t) :
  (2 <= length (Interpolation2D.x self))%nat ->
  CubicSpline2D.get_parameters self = Some obj ->
  (length (Interpolation2D.x self) <= length (Interpolation2D.y self))%nat.
Proof.
  intros Hlen. unfold CubicSpline2D.get_parameters. cbv zeta. intros H.
  repeat match type of H with
    | (for_down ?n ?j ?body ?st ≫= _) = Some _ =>
        let E := fresh "Hdown" in
        destruct (for_down n j body st) as [?v |] eqn:E;
        cbn [mbind option_bind] in H; [| discriminate H]
    | (?m ≫= _) = Some _ =>
        let E := fresh "E" in
        destruct m as [?v |] eqn:E; cbn [mbind option_bind] in H;
        [clear E | discriminate H]
    | (let '(_, _) := ?p in _) = Some _ => destruct p
    | (match ?p with (_, _) => _ end) = Some _ => destruct p
    end.
  clear H.
  destruct (length (Interpolation2D.x self) - 1)%nat as [| n'] eqn:Hn; [lia |].
  cbn [for_down] in Hdown.
  replace (S n' - 1)%nat with n' in Hdown by lia.
  match type of Hdown with
  | (?m ≫= _) = Some _ => destruct m as [st' |] eqn:Hbody; [| discriminate Hdown]
  end.
  clear Hdown.
  repeat match type of Hbody with
    | (Interpolation2D.y self !! ?i ≫= _) = Some _ =>
        let E := fresh "Hy" in
        destruct (Interpolation2D.y self !! i) as [?v |] eqn:E;
        cbn [mbind option_bind] in Hbody; [| discriminate Hbody]
    | (?m ≫= _) = Some _ =>
        let E := fresh "E" in
        destruct m as [?v |] eqn:E; cbn [mbind option_bind] in Hbody;
        [clear E | discriminate Hbody]
    end.
  match goal with
  | Hy : Interpolation2D.y self !! (n' + 1)%nat = Some _ |- _ =>
      apply lookup_lt_Some in Hy; lia
  end.
Qed.

(** The constructor of CubicSpline2D returns only when the first key,
    converted to [size_t], is at least the number of points: [a_] has
    that many elements, and [get_parameters] reads [a_] at the index of
    the last point. *)
Theorem cubic_spline_needs_large_first_key
    (indeterminate : double) (mp : map_double) (obj : CubicSpline2D.t)
    (Hinc : increasing (map fst mp))
    (Hnew : CubicSpline2D.new indeterminate mp = Some (Ret obj)) :
  exists (lo v : double) (n : Z),
    mp !! 0%nat = Some (lo, v) /\
    to_size_t lo = Some n /\
    CubicSpline2D.a_ obj = replicate (Z.to_nat n) zero /\
    Z.of_nat (length mp) <= n.
Proof.
  unfold CubicSpline2D.new in Hnew.
  destruct (Interpolation2D.new indeterminate mp) as [[self | e] |] eqn:Hbase;
    cbn in Hnew; [| discriminate ..].
  destruct (CubicSpline2D.get_parameters self) as [obj' |] eqn:Hpar;
    cbn in Hnew; [| discriminate].
  injection Hnew as ->.
  pose proof (new_y _ _ _ Hbase) as (lo & n & Hlo & Hn & _ & Hy).
  rewrite min_element_increasing in Hlo by exact Hinc.
  apply new_inv in Hbase as (_ & Hx & _ & _ & Hlen).
  rewrite <- (length_map fst), <- Hx in Hlen.
  pose proof (get_parameters_reads_last _ _ Hlen Hpar) as Hread.
  apply get_parameters_a in Hpar as [_ Ha].
  rewrite Hx in Hread. rewrite length_map in Hread.
  rewrite Hy, length_replicate in Hread.
  rewrite Hx, length_map in Hlen.
  assert (Hbound : Z.of_nat (length mp) <= n) by lia.
  destruct mp as [| [k v] mp']; [discriminate Hlo |].
  cbn in Hlo. injection Hlo as ->.
  exists lo, v, n. split; [reflexivity |]. split; [exact Hn |].
  split; [congruence | exact Hbound].
Qed.

(** The theorem over [{4:0, 5:1, 6:0, 7:1}]: four points, first key 4. *)
Lemma cubic_spline_needs_large_first_key_witness :
  exists obj : CubicSpline2D.t,
    CubicSpline2D.new (of_Z 0) shifted_axis = Some (Ret obj) /\
    exists (lo v : double) (n : Z),
      shifted_axis !! 0%nat = Some (lo, v) /\
      to_size_t lo = Some n /\
      CubicSpline2D.a_ obj = replicate (Z.to_nat n) zero /\
      Z.of_nat (length shifted_axis) <= n.
Proof.
  destruct (CubicSpline2D.new (of_Z 0) shifted_axis) as [[obj | e] |] eqn:Hnew;
    [| vm_compute in Hnew; discriminate Hnew ..].
  exists obj. split; [reflexivity |].
  exact (cubic_spline_needs_large_first_key (of_Z 0) shifted_axis obj
           (map_of_list_increasing _) Hnew).
Defined.
